(** * DISANAMath: binned cross-sections, beam-spin asymmetry and pi0 correction

    A shallow embedding of [DreamAN/DrawHist/DISANAMath.h], and of the two
    functions of [DreamAN/DrawHist/DISANAcomparer.h] that compute rather
    than draw: [NormalizeHistogram] and [getMeanQ2xBt].

    Numbers.  The C++ code computes on [double]; the embedding computes on the
    real numbers [R] of the Standard Library.  The embedding is exact on every
    run in which no division by zero, no square root of a negative number and
    no rounding occurs; statements that depend on such a side condition carry
    it as a hypothesis.  Comparisons of doubles become decidable comparisons
    of reals ([Rltb], [Reqb]).

    Objects.  Histograms are heap objects reached through pointers
    ([TH1D *]).  The heap is a list of histogram objects, a pointer is an
    index into it and [nullptr] is [None].  Functions that allocate or mutate
    histograms are state transformers over the heap. *)

From Stdlib Require Import Reals Lra Lia ZArith List.
From stdpp Require Import base list gmap.

(** * Part I: the embedding *)

(** ** Decidable comparisons on reals *)

Module RealCmp.
Local Open Scope R_scope.

Definition Rltb (x y : R) : bool := if Rlt_dec x y then true else false.
Definition Reqb (x y : R) : bool := if Req_dec_T x y then true else false.

End RealCmp.
Export RealCmp.

(** ** Bin edges and [findBin] *)

Module Binning.
Local Open Scope R_scope.

(** [edges[i]] of a [std::vector<double>]; only read inside its bounds. *)
Definition at_ (edges : list R) (i : nat) : R := nth i edges 0.

(** [std::upper_bound(first, last, val)]: the halving search of the standard
    library.  [first] and [len] are the loop variables; the loop runs while
    [len > 0], and [len] at least halves every turn, so [length edges] turns
    are always enough. *)
Fixpoint upper_bound_loop (fuel : nat) (edges : list R) (val : R)
    (first len : nat) : nat :=
  match fuel with
  | O => first
  | S fuel' =>
      match len with
      | O => first
      | S _ =>
          let half := Nat.div2 len in
          let middle := (first + half)%nat in
          if Rltb val (at_ edges middle)
          then upper_bound_loop fuel' edges val first half
          else upper_bound_loop fuel' edges val (S middle) (len - half - 1)
      end
  end.

(** The iterator returned, as its distance from [edges.begin()]. *)
Definition upper_bound (edges : list R) (val : R) : nat :=
  upper_bound_loop (length edges) edges val 0 (length edges).

(** The lambda [findBin] of [ComputeDVCS_CrossSection]. *)
Definition findBin (val : R) (edges : list R) : Z :=
  let it := upper_bound edges val in
  if (Nat.eqb it 0 || Nat.eqb it (length edges))%bool then (-1)%Z
  else (Z.of_nat it - 1)%Z.

(** Strictly increasing edges. *)
Definition strictly_increasing (edges : list R) : Prop :=
  forall i j, (i < j < length edges)%nat -> at_ edges i < at_ edges j.

(** [val] lies in the half-open bin [i]. *)
Definition in_bin (edges : list R) (val : R) (i : nat) : Prop :=
  (S i < length edges)%nat /\ at_ edges i <= val < at_ edges (S i).

End Binning.
Export Binning.

(** ** The histogram library: axes

    [TAxis], [TH1D] and [THnSparseD] belong to the ROOT library the header is
    written against.  They are embedded as far as the analysis code observes
    them: axis look-up, bin contents, sums of squared weights and the entry
    counter.  Names, titles, directories and drawing attributes are left
    out, and so are the running statistics ([fTsumw] ...), which nothing in
    the header reads back. *)

Module Axis.
Local Open Scope R_scope.

(** An axis: [fNbins] bins over [[fXmin, fXmax)], of equal width when
    [fXbins] is empty and with the edges [fXbins] otherwise. *)
Record TAxis := mkTAxis {
  fNbins : nat;
  fXmin : R;
  fXmax : R;
  fXbins : list R
}.

(** [int(x)] of a non-negative double. *)
Definition trunc (x : R) : nat := Z.to_nat (Int_part x).

(** [std::lower_bound], the halving search with the comparison
    [*middle < val]. *)
Fixpoint lower_bound_loop (fuel : nat) (a : list R) (val : R)
    (first len : nat) : nat :=
  match fuel with
  | O => first
  | S fuel' =>
      match len with
      | O => first
      | S _ =>
          let half := Nat.div2 len in
          let middle := (first + half)%nat in
          if Rltb (at_ a middle) val
          then lower_bound_loop fuel' a val (S middle) (len - half - 1)
          else lower_bound_loop fuel' a val first half
      end
  end.

(** [TMath::BinarySearch(n, array, value)]: the index of the element equal
    to [value], else of the nearest smaller one, [-1] when there is none. *)
Definition BinarySearch (a : list R) (value : R) : Z :=
  let pind := lower_bound_loop (length a) a value 0 (length a) in
  if (Nat.ltb pind (length a) && Reqb (at_ a pind) value)%bool
  then Z.of_nat pind
  else (Z.of_nat pind - 1)%Z.

(** [TAxis::FindBin(x)] on an axis that cannot be extended: [0] is the
    underflow bin and [fNbins + 1] the overflow bin. *)
Definition FindBin (ax : TAxis) (x : R) : nat :=
  if Rltb x (fXmin ax) then O
  else if negb (Rltb x (fXmax ax)) then S (fNbins ax)
  else match fXbins ax with
       | [] => (1 + trunc (INR (fNbins ax) * (x - fXmin ax) / (fXmax ax - fXmin ax)))%nat
       | _ => Z.to_nat (1 + BinarySearch (fXbins ax) x)
       end.

End Axis.

(** ** The histogram library: one-dimensional histograms *)

Module Hist.
Local Open Scope R_scope.

(** A [TH1D]: [fArray] holds [fNcells = nbins + 2] contents (cell [0] is the
    underflow, cell [nbins + 1] the overflow), [fSumw2] is empty until the
    sums of squared weights are switched on and holds [fNcells] values from
    then on. *)
Record TH1D := mkTH1D {
  fXaxis : Axis.TAxis;
  fArray : list R;
  fSumw2 : list R;
  fEntries : R
}.

Definition GetNbinsX (h : TH1D) : nat := Axis.fNbins (fXaxis h).
Definition fNcells (h : TH1D) : nat := length (fArray h).
Definition GetSumw2N (h : TH1D) : nat := length (fSumw2 h).

(** [new TH1D(name, title, nbins, xlow, xup)] *)
Definition TH1D_new (nbins : nat) (xlow xup : R) : TH1D :=
  {| fXaxis := Axis.mkTAxis nbins xlow xup [];
     fArray := replicate (nbins + 2) 0;
     fSumw2 := [];
     fEntries := 0 |}.

Definition RetrieveBinContent (h : TH1D) (bin : nat) : R := at_ (fArray h) bin.

Definition UpdateBinContent (h : TH1D) (bin : nat) (content : R) : TH1D :=
  {| fXaxis := fXaxis h; fArray := <[bin := content]> (fArray h);
     fSumw2 := fSumw2 h; fEntries := fEntries h |}.

Definition setSumw2 (h : TH1D) (s : list R) : TH1D :=
  {| fXaxis := fXaxis h; fArray := fArray h; fSumw2 := s; fEntries := fEntries h |}.

Definition setEntries (h : TH1D) (e : R) : TH1D :=
  {| fXaxis := fXaxis h; fArray := fArray h; fSumw2 := fSumw2 h; fEntries := e |}.

(** Bin numbers above the overflow cell are read as the overflow cell. *)
Definition clamp (h : TH1D) (bin : nat) : nat := Nat.min bin (fNcells h - 1).

Definition GetBinContent (h : TH1D) (bin : nat) : R :=
  RetrieveBinContent h (clamp h bin).

(** [TH1::Sumw2()]: switch the sums of squared weights on; a histogram that
    has entries starts from the absolute bin contents. *)
Definition Sumw2 (h : TH1D) : TH1D :=
  match fSumw2 h with
  | _ :: _ => h
  | [] => setSumw2 h (if Rltb 0 (fEntries h) then map Rabs (fArray h)
                      else replicate (fNcells h) 0)
  end.

Definition GetBinErrorSqUnchecked (h : TH1D) (bin : nat) : R :=
  match fSumw2 h with
  | [] => RetrieveBinContent h bin
  | s => at_ s bin
  end.

(** [TH1::GetBinError(bin)] with the default (normal) error option. *)
Definition GetBinError (h : TH1D) (bin : nat) : R :=
  let bin := clamp h bin in
  match fSumw2 h with
  | [] => sqrt (Rabs (RetrieveBinContent h bin))
  | s => sqrt (at_ s bin)
  end.

(** [TH1::SetBinContent(bin, content)] on an axis that cannot be extended. *)
Definition SetBinContent (h : TH1D) (bin : nat) (content : R) : TH1D :=
  let h := setEntries h (fEntries h + 1) in
  if Nat.leb (fNcells h) bin then h else UpdateBinContent h bin content.

(** [TH1::SetBinError(bin, error)] *)
Definition SetBinError (h : TH1D) (bin : nat) (error : R) : TH1D :=
  if Nat.leb (fNcells h) bin then h
  else let h := Sumw2 h in
       setSumw2 h (<[bin := error * error]> (fSumw2 h)).

(** [TH1::Fill(x, w)] *)
Definition Fill (h : TH1D) (x w : R) : TH1D :=
  let h := setEntries h (fEntries h + 1) in
  let bin := Axis.FindBin (fXaxis h) x in
  let h := if (Nat.eqb (GetSumw2N h) 0 && negb (Reqb w 1))%bool then Sumw2 h else h in
  let h := match fSumw2 h with
           | [] => h
           | s => setSumw2 h (<[bin := at_ s bin + w * w]> s)
           end in
  UpdateBinContent h bin (RetrieveBinContent h bin + w).

(** [TH1::Reset()]: contents, sums of squared weights and entries go to
    zero; the sums of squared weights stay switched on. *)
Definition Reset (h : TH1D) : TH1D :=
  {| fXaxis := fXaxis h;
     fArray := replicate (length (fArray h)) 0;
     fSumw2 := replicate (length (fSumw2 h)) 0;
     fEntries := 0 |}.

(** [TH1::ResetStats()]: the entry counter is recomputed from the bins
    [1 .. nbins], as the effective number of entries when the histogram is
    weighted. *)
Definition sum_bins (f : nat -> R) (h : TH1D) : R :=
  fold_left (fun acc b => acc + f b) (seq 1 (GetNbinsX h)) 0.

Definition ResetStats (h : TH1D) : TH1D :=
  let s0 := sum_bins (RetrieveBinContent h) h in
  let s1 := sum_bins (fun b => Rabs (GetBinError h b) * Rabs (GetBinError h b)) h in
  if (negb (Nat.eqb (GetSumw2N h) 0) && Rltb 0 s0 && Rltb 0 s1)%bool
  then setEntries h (s0 * s0 / s1)
  else setEntries h (Rabs s0).

End Hist.

(** ** The histogram library: sparse four-dimensional histograms *)

Module Sparse.
Local Open Scope R_scope.

(** A [THnSparseD] of dimension four: its axes and the bins that were ever
    filled.  A bin that was never filled has no entry and reads as [0]. *)
Record THnSparseD := mkTHnSparseD {
  axis0 : Axis.TAxis;
  axis1 : Axis.TAxis;
  axis2 : Axis.TAxis;
  axis3 : Axis.TAxis;
  fFilled : gmap (nat * nat * nat * nat) R
}.

(** [THnSparse::GetBinContent(const Int_t *idx)] *)
Definition GetBinContent (h : THnSparseD) (idx : nat * nat * nat * nat) : R :=
  default 0 (fFilled h !! idx).

End Sparse.
(** ** The heap of histogram objects and the diagnostics stream *)

Module Mem.
Import Hist.

(** A [TH1D *]: the address of an object on the heap; [None] is [nullptr]. *)
Abbreviation ptr := nat (only parsing).

(** What the header writes to [std::cerr]. *)
Inductive Diag :=
| ErrXBMismatch                          (* "ERROR: xB dim mismatch!" *)
| ErrQ2Mismatch (ix : nat)               (* "ERROR: Q² dim mismatch at xB ix!" *)
| ErrTMismatch (ix iq : nat)             (* "ERROR: t dim mismatch at (xB,q2)=(ix,iq)!" *)
| WarnNullHist (ix iq it : nat)          (* "WARNING: null hist @(ix,iq,it)" *)
| MissingHist (q2_bin xb_bin t_bin : nat). (* "Missing histogram for Q² bin ..." *)

Record World := mkWorld {
  heap : list TH1D;
  cerr : list Diag
}.

(** Computations that read and write the heap and the diagnostics. *)
Definition M (A : Type) : Type := World -> A * World.

Definition ret {A} (a : A) : M A := fun w => (a, w).
Definition bind {A B} (c : M A) (k : A -> M B) : M B :=
  fun w => let (a, w') := c w in k a w'.

Definition TH1D_null : TH1D := TH1D_new 0 0%R 0%R.

(** [new TH1D(...)] and [Clone]: the object goes to a fresh address. *)
Definition alloc (h : TH1D) : M ptr :=
  fun w => (length (heap w), mkWorld (heap w ++ [h]) (cerr w)).

(** A method that reads the object at [p]. *)
Definition query {A} (p : ptr) (f : TH1D -> A) : M A :=
  fun w => (f (nth p (heap w) TH1D_null), w).

(** A method that updates the object at [p]. *)
Definition call (p : ptr) (f : TH1D -> TH1D) : M unit :=
  fun w => (tt, mkWorld (alter f p (heap w)) (cerr w)).

(** [std::cerr << ...] *)
Definition report (d : Diag) : M unit :=
  fun w => (tt, mkWorld (heap w) (cerr w ++ [d])).

End Mem.
Import Mem.

#[export] Instance M_ret : MRet M := @ret.
#[export] Instance M_bind : MBind M := fun A B k c => bind c k.

Module Loops.

(** [for (x : l) body]: the body runs for its effect. *)
Fixpoint for_ {A} (l : list A) (body : A -> M unit) : M unit :=
  match l with
  | [] => mret tt
  | a :: l' => body a;; for_ l' body
  end.

(** A loop that fills a vector, one element per turn. *)
Fixpoint for_collect {A B} (l : list A) (body : A -> M B) : M (list B) :=
  match l with
  | [] => mret []
  | a :: l' => b ← body a; bs ← for_collect l' body; mret (b :: bs)
  end.

(** A loop that fills a vector and whose body may leave the enclosing
    function with [return]: the body answers [None] when it does, and the
    remaining turns do not run. *)
Fixpoint for_collect_or_return {A B} (l : list A) (body : A -> M (option B))
    : M (option (list B)) :=
  match l with
  | [] => mret (Some [])
  | a :: l' =>
      r ← body a;
      match r with
      | None => mret None
      | Some b =>
          rs ← for_collect_or_return l' body;
          mret (match rs with Some bs => Some (b :: bs) | None => None end)
      end
  end.

(** A loop that updates a local variable [s] on every turn. *)
Fixpoint for_fold {A S} (l : list A) (s : S) (body : A -> S -> M S) : M S :=
  match l with
  | [] => mret s
  | a :: l' => s' ← body a s; for_fold l' s' body
  end.

End Loops.
Import Loops.

(** ** The histogram library: operations on several histograms

    [Divide] and [Multiply] read two histograms and write a third, and the
    header calls them with the written histogram among the ones read.  They
    are embedded on the heap, cell by cell, as the library runs them. *)

Module HistPtr.
Import Hist.
Local Open Scope R_scope.

(** One turn of the loop over the cells of [TH1::Divide(h1, h2, c1, c2)]. *)
Definition divide_cell (this h1 h2 : ptr) (c1 c2 : R) (i : nat) : M unit :=
  b1 ← query h1 (fun h => RetrieveBinContent h i);
  b2 ← query h2 (fun h => RetrieveBinContent h i);
  call this (fun h => UpdateBinContent h i
                        (if negb (Reqb b2 0) then c1 * b1 / (c2 * b2) else 0));;
  s ← query this GetSumw2N;
  if Nat.eqb s 0 then mret tt
  else if Reqb b2 0 then call this (fun h => setSumw2 h (<[i := 0]> (fSumw2 h)))
  else
    let b1sq := b1 * b1 in
    let b2sq := b2 * b2 in
    let c1sq := c1 * c1 in
    let c2sq := c2 * c2 in
    e1sq ← query h1 (fun h => GetBinErrorSqUnchecked h i);
    e2sq ← query h2 (fun h => GetBinErrorSqUnchecked h i);
    call this (fun h => setSumw2 h
      (<[i := c1sq * c2sq * (e1sq * b2sq + e2sq * b1sq) / (c2sq * c2sq * b2sq * b2sq)]>
         (fSumw2 h))).

(** The sums of squared weights are switched on when one of the operands
    has them. *)
Definition inherit_sumw2 (this h1 h2 : ptr) : M unit :=
  s ← query this GetSumw2N;
  s1 ← query h1 GetSumw2N;
  s2 ← query h2 GetSumw2N;
  if (Nat.eqb s 0 && negb (Nat.eqb s1 0 && Nat.eqb s2 0))%bool
  then call this Sumw2 else mret tt.

(** Histograms with different numbers of bins are refused. *)
Definition consistent (this h1 h2 : ptr) : M bool :=
  n ← query this GetNbinsX;
  n1 ← query h1 GetNbinsX;
  n2 ← query h2 GetNbinsX;
  mret (Nat.eqb n1 n2 && Nat.eqb n n1)%bool.

(** [this->Divide(h1, h2, c1, c2)]; the value is the [Bool_t] returned. *)
Definition Divide (this h1 h2 : ptr) (c1 c2 : R) : M bool :=
  ok ← consistent this h1 h2;
  if negb ok then mret false
  else if Reqb c2 0 then mret false
  else
    inherit_sumw2 this h1 h2;;
    ncells ← query this fNcells;
    for_ (seq 0 ncells) (divide_cell this h1 h2 c1 c2);;
    call this ResetStats;;
    mret true.

(** One turn of the loop over the cells of [TH1::Multiply(h1, h2, c1, c2)]. *)
Definition multiply_cell (this h1 h2 : ptr) (c1 c2 : R) (i : nat) : M unit :=
  let c1sq := c1 * c1 in
  let c2sq := c2 * c2 in
  b1 ← query h1 (fun h => RetrieveBinContent h i);
  b2 ← query h2 (fun h => RetrieveBinContent h i);
  call this (fun h => UpdateBinContent h i (c1 * b1 * c2 * b2));;
  s ← query this GetSumw2N;
  if Nat.eqb s 0 then mret tt
  else
    e1sq ← query h1 (fun h => GetBinErrorSqUnchecked h i);
    e2sq ← query h2 (fun h => GetBinErrorSqUnchecked h i);
    call this (fun h => setSumw2 h
      (<[i := c1sq * c2sq * (e1sq * b2 * b2 + e2sq * b1 * b1)]> (fSumw2 h))).

(** [this->Multiply(h1, h2, c1, c2)] *)
Definition Multiply (this h1 h2 : ptr) (c1 c2 : R) : M bool :=
  ok ← consistent this h1 h2;
  if negb ok then mret false
  else
    inherit_sumw2 this h1 h2;;
    ncells ← query this fNcells;
    for_ (seq 0 ncells) (multiply_cell this h1 h2 c1 c2);;
    call this ResetStats;;
    mret true.

End HistPtr.
(** ** [ComputeBeamSpinAsymmetry] *)

Module BSA.
Import Hist.
Local Open Scope R_scope.

(** [std::vector<std::vector<std::vector<TH1D *>>>] *)
Abbreviation Grid := (list (list (list (option ptr)))) (only parsing).

(** [g[ix][iq][it]], read inside the bounds of the three vectors. *)
Definition cell (g : Grid) (ix iq it : nat) : option ptr :=
  nth it (nth iq (nth ix g []) []) None.

(** [g[ix][iq][it] = v] *)
Definition cell_set (g : Grid) (ix iq it : nat) (v : option ptr) : Grid :=
  alter (alter (fun row => <[it := v]> row) iq) ix g.

(** Asymmetry and propagated error of one bin (lines 315-319). *)
Definition asym_A (Np Nm : R) : R :=
  let den := Np + Nm in
  let num := Np - Nm in
  if negb (Reqb den 0) then num / den else 0.

Definition asym_E (Np Nm Ep Em : R) : R :=
  let den := Np + Nm in
  if negb (Reqb den 0)
  then 2 / (den * den) * sqrt ((Nm * Ep) ^ 2 + (Np * Em) ^ 2)
  else 0.

(** One turn of the loop over the bins [b] (lines 314-322). *)
Definition bsa_bin (hp hm ha : ptr) (pol : R) (b : nat) : M unit :=
  Np ← query hp (fun h => GetBinContent h b);
  Nm ← query hm (fun h => GetBinContent h b);
  Ep ← query hp (fun h => GetBinError h b);
  Em ← query hm (fun h => GetBinError h b);
  let A := asym_A Np Nm in
  let E := asym_E Np Nm Ep Em in
  call ha (fun h => SetBinContent h b (A / pol));;
  call ha (fun h => SetBinError h b (E / pol)).

(** The body of the loop over [it] (lines 303-323); the value is what
    [asym[ix][iq][it]] holds afterwards. *)
Definition bsa_cell (ix iq it : nat) (hp hm : option ptr) (pol : R)
    : M (option ptr) :=
  match hp, hm with
  | Some hp, Some hm =>
      obj ← query hp (fun h => h);
      ha ← alloc obj;
      call ha Reset;;
      n ← query hp GetNbinsX;
      for_ (seq 1 n) (bsa_bin hp hm ha pol);;
      mret (Some ha)
  | _, _ => report (WarnNullHist ix iq it);; mret None
  end.

(** The body of the loop over [iq] (lines 295-324). *)
Definition bsa_q2 (ix iq : nat) (pos neg : list (option ptr)) (pol : R)
    : M (option (list (option ptr))) :=
  if negb (Nat.eqb (length pos) (length neg))
  then report (ErrTMismatch ix iq);; mret None
  else
    let n_t := length pos in
    row ← for_collect (seq 0 n_t)
             (fun it => bsa_cell ix iq it (nth it pos None) (nth it neg None) pol);
    mret (Some row).

(** The body of the loop over [ix] (lines 287-325). *)
Definition bsa_xb (ix : nat) (pos neg : list (list (option ptr))) (pol : R)
    : M (option (list (list (option ptr)))) :=
  if negb (Nat.eqb (length pos) (length neg))
  then report (ErrQ2Mismatch ix);; mret None
  else
    let n_q2 := length pos in
    for_collect_or_return (seq 0 n_q2)
      (fun iq => bsa_q2 ix iq (nth iq pos []) (nth iq neg []) pol).

Definition ComputeBeamSpinAsymmetry (sigma_pos sigma_neg : Grid) (pol : R)
    : M Grid :=
  if negb (Nat.eqb (length sigma_pos) (length sigma_neg))
  then report ErrXBMismatch;; mret []
  else
    let n_xb := length sigma_pos in
    r ← for_collect_or_return (seq 0 n_xb)
           (fun ix => bsa_xb ix (nth ix sigma_pos []) (nth ix sigma_neg []) pol);
    match r with
    | None => mret []
    | Some asym => ret asym
    end.

End BSA.

(** ** [BinManager] *)

Module Bins.
Local Open Scope R_scope.

Record BinManager := mkBinManager {
  q2_bins_ : list R;
  t_bins_ : list R;
  xb_bins_ : list R
}.

(** The default constructor. *)
Definition BinManager_default : BinManager :=
  {| q2_bins_ := [1; 2; 4; 6];
     t_bins_ := [0.1; 0.3; 0.6; 1];
     xb_bins_ := [0.1; 0.2; 0.4; 0.6] |}.

Definition GetQ2Bins := q2_bins_.
Definition GetTBins := t_bins_.
Definition GetXBBins := xb_bins_.

End Bins.

(** ** [DISANAMath]: correction look-up and [ComputeDVCS_CrossSection] *)

Module DVCS.
Import Hist Bins BSA.
Local Open Scope R_scope.

(** The members of a [DISANAMath] object that the cross-section code reads:
    the switch and the pointer to the correction table.  The table is never
    written through this pointer, so the object holds its value; [None] is
    [nullptr]. *)
Record DISANAMath := mkDISANAMath {
  applyCorrection : bool;
  correctionHist : option Sparse.THnSparseD
}.

(** Default member initialisers. *)
Definition DISANAMath_default : DISANAMath :=
  {| applyCorrection := false; correctionHist := None |}.

Definition SetApplyCorrPi0BKG (this : DISANAMath) (enable : bool) : DISANAMath :=
  {| applyCorrection := enable; correctionHist := correctionHist this |}.

Definition SetCorrHist (this : DISANAMath) (hist : option Sparse.THnSparseD) : DISANAMath :=
  {| applyCorrection := applyCorrection this; correctionHist := hist |}.

Definition GetCorrectionFactor (this : DISANAMath) (Q2 t xB phi_deg : R) : R :=
  match applyCorrection this, correctionHist this with
  | true, Some hist =>
      let bins := (Axis.FindBin (Sparse.axis0 hist) Q2,
                   Axis.FindBin (Sparse.axis1 hist) t,
                   Axis.FindBin (Sparse.axis2 hist) xB,
                   Axis.FindBin (Sparse.axis3 hist) phi_deg) in
      Sparse.GetBinContent hist bins
  | _, _ => 1
  end.

(** A row of the data frame: the columns ["Q2"], ["t"], ["xB"], ["phi"]. *)
Record Row := mkRow { row_Q2 : R; row_t : R; row_xB : R; row_phi : R }.

Definition phi_min : R := 0.
Definition phi_max : R := 360.
Definition n_phi_bins : nat := 18.

(** Lines 211-228: one new histogram per cell, in the order of the three
    nested loops. *)
Definition new_grid (n_xb n_q2 n_t : nat) : M Grid :=
  for_collect (seq 0 n_xb) (fun ix =>
    for_collect (seq 0 n_q2) (fun iq =>
      for_collect (seq 0 n_t) (fun it =>
        p ← alloc (TH1D_new n_phi_bins phi_min phi_max);
        mret (Some p)))).

(** The weight of one row: the lambda [filler] up to the call of [Fill]. *)
Definition fill_weight (this : DISANAMath) (r : Row) : R :=
  let factor :=
    match applyCorrection this, correctionHist this with
    | true, Some _ => GetCorrectionFactor this (row_Q2 r) (row_t r) (row_xB r) (row_phi r)
    | _, _ => 1
    end in
  let q2xBtbin_size := 1 in
  factor / q2xBtbin_size.

(** The lambda [filler] (lines 236-250). *)
Definition filler (this : DISANAMath) (bins : BinManager) (histograms : Grid)
    (r : Row) : M unit :=
  let iq := findBin (row_Q2 r) (GetQ2Bins bins) in
  let it := findBin (row_t r) (GetTBins bins) in
  let ix := findBin (row_xB r) (GetXBBins bins) in
  if ((0 <=? iq)%Z && (0 <=? it)%Z && (0 <=? ix)%Z)%bool then
    match cell histograms (Z.to_nat ix) (Z.to_nat iq) (Z.to_nat it) with
    | Some h => call h (fun h => Fill h (row_phi r) (fill_weight this r))
    | None => mret tt
    end
  else mret tt.

(** Lines 260-268: one turn of the loop over the bins of one histogram. *)
Definition normalize_bin (luminosity bin_width : R) (h : ptr) (b : nat) : M unit :=
  raw ← query h (fun h => GetBinContent h b);
  let norm := raw / (luminosity * bin_width) in
  let err := sqrt raw / (luminosity * bin_width) in
  call h (fun h => SetBinContent h b norm);;
  call h (fun h => SetBinError h b err).

(** Lines 255-269. *)
Definition normalize (luminosity : R) (histograms : Grid) : M unit :=
  let bin_width := (phi_max - phi_min) / INR n_phi_bins in
  for_ histograms (fun vec_q2 =>
    for_ vec_q2 (fun vec_t =>
      for_ vec_t (fun h =>
        match h with
        | Some h =>
            n ← query h GetNbinsX;
            for_ (seq 1 n) (normalize_bin luminosity bin_width h)
        | None => mret tt
        end))).

(** The histograms as they stand after the event loop, before they are
    normalised (lines 203-252). *)
Definition accumulate (this : DISANAMath) (df : list Row) (bins : BinManager)
    : M Grid :=
  let q2_bins := GetQ2Bins bins in
  let t_bins := GetTBins bins in
  let xb_bins := GetXBBins bins in
  let n_q2 := (length q2_bins - 1)%nat in
  let n_t := (length t_bins - 1)%nat in
  let n_xb := (length xb_bins - 1)%nat in
  histograms ← new_grid n_xb n_q2 n_t;
  for_ df (filler this bins histograms);;
  mret histograms.

Definition ComputeDVCS_CrossSection (this : DISANAMath) (df : list Row)
    (bins : BinManager) (luminosity : R) : M Grid :=
  histograms ← accumulate this df bins;
  normalize luminosity histograms;;
  mret histograms.

End DVCS.
(** ** [CalcPi0Corr] *)

Module Pi0.
Import Hist Bins BSA DVCS HistPtr.
Local Open Scope R_scope.

(** The body of the innermost loop (lines 353-367); the value is [hCorr]
    after the turn. *)
Definition pi0_cell (mc_dvcs mc_pi0 data_dvcs data_pi0 : Grid)
    (t_bin q2_bin xb_bin : nat) (hCorr : Grid) : M Grid :=
  match cell mc_dvcs xb_bin q2_bin t_bin, cell mc_pi0 xb_bin q2_bin t_bin,
        cell data_dvcs xb_bin q2_bin t_bin, cell data_pi0 xb_bin q2_bin t_bin with
  | Some h_dvcs_mc, Some h_pi0_mc, Some h_dvcs_data, Some h_pi0_data =>
      obj ← query h_dvcs_mc (fun h => h);
      hRatio ← alloc obj;
      call hRatio Reset;;
      Divide hRatio h_dvcs_mc h_pi0_mc 1 1;;
      Multiply hRatio hRatio h_pi0_data 1 1;;
      Divide hRatio hRatio h_dvcs_data 1 1;;
      mret (cell_set hCorr xb_bin q2_bin t_bin (Some hRatio))
  | _, _, _, _ =>
      report (MissingHist q2_bin xb_bin t_bin);;
      mret hCorr
  end.

(** Lines 348-372. *)
Definition pi0_combine (n_t n_q2 n_xb : nat)
    (mc_dvcs mc_pi0 data_dvcs data_pi0 : Grid) : M Grid :=
  let hCorr := replicate n_xb (replicate n_q2 (replicate n_t None)) in
  for_fold (seq 0 n_t) hCorr (fun t_bin hCorr =>
    for_fold (seq 0 n_q2) hCorr (fun q2_bin hCorr =>
      for_fold (seq 0 n_xb) hCorr (fun xb_bin hCorr =>
        pi0_cell mc_dvcs mc_pi0 data_dvcs data_pi0 t_bin q2_bin xb_bin hCorr))).

Definition CalcPi0Corr (df_dvcs_mc df_pi0_mc df_dvcs_data df_pi0_data : list Row)
    (xBins : BinManager) : M Grid :=
  let n_t := (length (GetTBins xBins) - 1)%nat in
  let n_q2 := (length (GetQ2Bins xBins) - 1)%nat in
  let n_xb := (length (GetXBBins xBins) - 1)%nat in
  let pi0Corr := DISANAMath_default in
  df_dvcs_mc_CrossSection ← ComputeDVCS_CrossSection pi0Corr df_dvcs_mc xBins 1;
  df_pi0_mc_CrossSection ← ComputeDVCS_CrossSection pi0Corr df_pi0_mc xBins 1;
  df_dvcs_data_CrossSection ← ComputeDVCS_CrossSection pi0Corr df_dvcs_data xBins 1;
  df_pi0_data_CrossSection ← ComputeDVCS_CrossSection pi0Corr df_pi0_data xBins 1;
  pi0_combine n_t n_q2 n_xb df_dvcs_mc_CrossSection df_pi0_mc_CrossSection
    df_dvcs_data_CrossSection df_pi0_data_CrossSection.

End Pi0.
(** ** Vectors and [ComputeKinematics] *)

Module Kin.
Local Open Scope R_scope.

(** The constants of the header; [pi] is the real number it stands for. *)
Definition pi : R := PI.
Definition m_e : R := 0.000511.
Definition m_p : R := 0.938272.

Record TVector3 := mkTVector3 { vX : R; vY : R; vZ : R }.

(** [TLorentzVector(x, y, z, t)] *)
Record TLorentzVector := mkTLorentzVector { fP : TVector3; fE : R }.

Definition v3_minus (a b : TVector3) : TVector3 :=
  mkTVector3 (vX a - vX b) (vY a - vY b) (vZ a - vZ b).
Definition v3_Dot (a b : TVector3) : R := vX a * vX b + vY a * vY b + vZ a * vZ b.
Definition v3_Mag2 (a : TVector3) : R := vX a * vX a + vY a * vY a + vZ a * vZ a.
Definition v3_Cross (a p : TVector3) : TVector3 :=
  mkTVector3 (vY a * vZ p - vY p * vZ a)
             (vZ a * vX p - vZ p * vX a)
             (vX a * vY p - vX p * vY a).

(** [TVector3::Unit()]: a vector of length zero is returned as it is. *)
Definition v3_Unit (a : TVector3) : TVector3 :=
  let tot2 := v3_Mag2 a in
  let tot := if Rltb 0 tot2 then 1 / sqrt tot2 else 1 in
  mkTVector3 (vX a * tot) (vY a * tot) (vZ a * tot).

Definition lv_minus (a b : TLorentzVector) : TLorentzVector :=
  mkTLorentzVector (v3_minus (fP a) (fP b)) (fE a - fE b).
Definition lv_plus (a b : TLorentzVector) : TLorentzVector :=
  mkTLorentzVector
    (mkTVector3 (vX (fP a) + vX (fP b)) (vY (fP a) + vY (fP b)) (vZ (fP a) + vZ (fP b)))
    (fE a + fE b).
Definition Vect (a : TLorentzVector) : TVector3 := fP a.
Definition E (a : TLorentzVector) : R := fE a.
Definition Mag2 (a : TLorentzVector) : R := fE a * fE a - v3_Mag2 (fP a).
(** [TLorentzVector::Mag()]: the square root carries the sign of [Mag2]. *)
Definition Mag (a : TLorentzVector) : R :=
  let mm := Mag2 a in
  if Rltb mm 0 then - sqrt (- mm) else sqrt mm.
Definition Dot (a q : TLorentzVector) : R :=
  fE a * fE q - vZ (fP a) * vZ (fP q) - vY (fP a) * vY (fP q) - vX (fP a) * vX (fP q).

(** [std::atan2(y, x)] on real numbers. *)
Definition atan2 (y x : R) : R :=
  if Rltb 0 x then atan (y / x)
  else if Rltb x 0 then
    (if Rltb y 0 then atan (y / x) - PI else atan (y / x) + PI)
  else if Rltb 0 y then PI / 2
  else if Rltb y 0 then - (PI / 2)
  else 0.

(** [SphericalToCartesian] and [Build4Vector] *)
Definition SphericalToCartesian (p theta phi : R) : TVector3 :=
  let px := p * sin theta * cos phi in
  let py := p * sin theta * sin phi in
  let pz := p * cos theta in
  mkTVector3 px py pz.

Definition Build4Vector (p theta phi mass : R) : TLorentzVector :=
  let vec := SphericalToCartesian p theta phi in
  let E := sqrt (v3_Mag2 vec + mass * mass) in
  mkTLorentzVector vec E.

(** The kinematic members of [DISANAMath]. *)
Record Kinematics := mkKinematics {
  Q2_ : R; xB_ : R; t_ : R; phi_deg_ : R; W_ : R; nu_ : R; y_ : R
}.

(** [ComputeKinematics], lines 141-156.  The rest of the function computes
    the exclusivity members from the same five vectors and does not write
    the members above. *)
Definition ComputeKinematics
    (electron_in electron_out proton_in proton_out photon : TLorentzVector)
    : Kinematics :=
  let q := lv_minus electron_in electron_out in
  let Q2 := - Mag2 q in
  let nu := E q in
  let y := nu / E electron_in in
  let W := Mag (lv_plus proton_in q) in
  let xB := Q2 / (2 * Dot proton_in q) in
  let t := Rabs (Mag2 (lv_minus proton_in proton_out)) in
  let n_L := v3_Unit (v3_Cross (Vect electron_in) (Vect electron_out)) in
  let n_H := v3_Unit (v3_Cross (Vect q) (Vect proton_out)) in
  let cos_phi := v3_Dot n_L n_H in
  let sin_phi := v3_Dot (v3_Cross n_L n_H) (v3_Unit (Vect q)) in
  let phi := atan2 sin_phi cos_phi + pi in
  let phi_deg := phi * 180 / pi in
  {| Q2_ := Q2; xB_ := xB; t_ := t; phi_deg_ := phi_deg; W_ := W; nu_ := nu; y_ := y |}.

(** The constructor from measured momenta and angles (lines 84-92). *)
Definition DISANAMath_new (e_in_E e_out_p e_out_theta e_out_phi
    p_out_p p_out_theta p_out_phi g_p g_theta g_phi : R) : Kinematics :=
  let electron_in := mkTLorentzVector (mkTVector3 0 0 e_in_E) e_in_E in
  let electron_out := Build4Vector e_out_p e_out_theta e_out_phi m_e in
  let proton_in := mkTLorentzVector (mkTVector3 0 0 0) m_p in
  let proton_out := Build4Vector p_out_p p_out_theta p_out_phi m_p in
  let photon := Build4Vector g_p g_theta g_phi 0 in
  ComputeKinematics electron_in electron_out proton_in proton_out photon.

End Kin.

(** ** [ComputePhiH] and the exclusivity members *)

Module Excl.
Import Kin.
Local Open Scope R_scope.

Definition v3_plus (a b : TVector3) : TVector3 :=
  mkTVector3 (vX a + vX b) (vY a + vY b) (vZ a + vZ b).
Definition v3_Mag (a : TVector3) : R := sqrt (v3_Mag2 a).
Definition v3_Perp (a : TVector3) : R := sqrt (vX a * vX a + vY a * vY a).

(** [TVector3::Angle(q)]: [0] when one of the vectors has length zero; the
    cosine is brought back into [[-1, 1]] before [TMath::ACos]. *)
Definition v3_Angle (a q : TVector3) : R :=
  let ptot2 := v3_Mag2 a * v3_Mag2 q in
  if negb (Rltb 0 ptot2) then 0
  else
    let arg := v3_Dot a q / sqrt ptot2 in
    let arg := if Rltb 1 arg then 1 else arg in
    let arg := if Rltb arg (-1) then -1 else arg in
    acos arg.

(** [TLorentzVector::Angle(const TVector3 &)] *)
Definition Angle (a : TLorentzVector) (v : TVector3) : R := v3_Angle (fP a) v.


(** The exclusivity members of [DISANAMath].  The member [delta_phi_] is
    not among them: line 179 computes it with an unqualified [abs], and
    which overload that is depends on the headers in scope. *)
Record Exclusivity := mkExclusivity {
  mx2_ep_ : R; emiss_ : R; ptmiss_ : R; mx2_epg_ : R;
  theta_gg_ : R; mx2_egamma_ : R; Theta_e_gamma_ : R; DeltaE_ : R
}.

(** [ComputeKinematics], lines 159-192, without the lines 171-179 that
    compute [delta_phi_]. *)
Definition ComputeExclusivity
    (electron_in electron_out proton_in proton_out photon : TLorentzVector)
    : Exclusivity :=
  let total_initial := lv_plus electron_in proton_in in
  let total_final := lv_plus (lv_plus electron_out proton_out) photon in
  let missing := lv_minus total_initial total_final in
  let mx2_ep := Mag2 (lv_minus (lv_minus total_initial electron_out) proton_out) in
  let emiss := E missing in
  let ptmiss := v3_Perp (Vect missing) in
  let mx2_epg := Mag2 missing in
  let theta_gg :=
    Angle photon (Vect (lv_minus total_initial (lv_plus electron_out proton_out)))
    * 180 / pi in
  let mx2_egamma :=
    Mag2 (lv_minus (lv_minus (lv_plus electron_in proton_in) electron_out) photon) in
  let Theta_e_gamma := Angle electron_out (Vect photon) * 180 / pi in
  let DeltaE :=
    (E electron_in + E proton_in) - (E electron_out + E proton_out + E photon) in
  {| mx2_ep_ := mx2_ep; emiss_ := emiss; ptmiss_ := ptmiss; mx2_epg_ := mx2_epg;
     theta_gg_ := theta_gg; mx2_egamma_ := mx2_egamma;
     Theta_e_gamma_ := Theta_e_gamma; DeltaE_ := DeltaE |}.

End Excl.

(** ** [DISANAcomparer::NormalizeHistogram] *)

Module Comparer.
Import Hist Bins DVCS.
Local Open Scope R_scope.

(** [TH1::Integral()] of a histogram whose axis range was not restricted:
    the sum of the contents of the bins [1 .. nbins], without underflow
    and overflow. *)
Definition Integral (h : TH1D) : R := sum_bins (RetrieveBinContent h) h.

(** [TH1::Scale(c1)] with the default option: the sums of squared weights
    are switched on first, then every cell is multiplied by [c1] and every
    sum of squared weights by [c1 * c1]. *)
Definition Scale (h : TH1D) (c1 : R) : TH1D :=
  let h := if Nat.eqb (GetSumw2N h) 0 then Sumw2 h else h in
  {| fXaxis := fXaxis h;
     fArray := map (fun x => c1 * x) (fArray h);
     fSumw2 := map (fun x => x * (c1 * c1)) (fSumw2 h);
     fEntries := fEntries h |}.

(** [NormalizeHistogram] (lines 39-43 of [DISANAcomparer.h]). *)
Definition NormalizeHistogram (hist : option ptr) : M unit :=
  match hist with
  | None => mret tt
  | Some hist =>
      integral ← query hist Integral;
      if Rltb 0 integral then call hist (fun h => Scale h (1 / integral))
      else mret tt
  end.

(** *** [getMeanQ2xBt]

    The function cuts the frame with expressions it prints with
    [Form("... %f ...")].  The conversion [%f] writes a number with six
    digits after the point, rounded to the nearest such number, a tie to
    the even last digit; the expression is compiled from the text, so the
    cut compares with the number written. *)
Definition round_half_even (y : R) : Z :=
  let f := Int_part y in
  let d := frac_part y in
  if Rltb d (1 / 2) then f
  else if Rltb (1 / 2) d then (f + 1)%Z
  else if Z.even f then f else (f + 1)%Z.

Definition fmt_f (x : R) : R := IZR (round_half_even (x * 1000000)) / 1000000.

(** The expression ["x >= %f && x < %f"] formed with [lo] and [hi]. *)
Definition cut (lo hi x : R) : bool := negb (Rltb x (fmt_f lo)) && Rltb x (fmt_f hi).

(** [RDataFrame::Filter] and [RDataFrame::Mean(column).GetValue()]: the
    mean of an empty selection is [0]. *)
Definition Filter (expr : Row -> bool) (rdf : list Row) : list Row := List.filter expr rdf.

Definition Mean (column : Row -> R) (rdf : list Row) : R :=
  let sumOfSums := fold_left (fun s r => s + column r) rdf 0 in
  let sumOfCounts := length rdf in
  sumOfSums / (if Nat.ltb 0 sumOfCounts then INR sumOfCounts else 1).

(** Lines 109-144 of [DISANAcomparer.h]; [rdf] is the frame of the
    plotter. *)
Definition getMeanQ2xBt (bins : BinManager) (rdf : list Row)
    : list (list (list (R * R * R))) :=
  let xb_bins := GetXBBins bins in
  let q2_bins := GetQ2Bins bins in
  let t_bins := GetTBins bins in
  let n_xb := (length xb_bins - 1)%nat in
  let n_q2 := (length q2_bins - 1)%nat in
  let n_t := (length t_bins - 1)%nat in
  map (fun ix =>
    map (fun iq =>
      map (fun it =>
        let xb_lo := at_ xb_bins ix in
        let xb_hi := at_ xb_bins (ix + 1) in
        let q2_lo := at_ q2_bins iq in
        let q2_hi := at_ q2_bins (iq + 1) in
        let t_lo := at_ t_bins it in
        let t_hi := at_ t_bins (it + 1) in
        let rdf_cut :=
          Filter (fun r => cut t_lo t_hi (row_t r))
            (Filter (fun r => cut q2_lo q2_hi (row_Q2 r))
               (Filter (fun r => cut xb_lo xb_hi (row_xB r)) rdf)) in
        let mean_xB := Mean row_xB rdf_cut in
        let mean_Q2 := Mean row_Q2 rdf_cut in
        let mean_t := Mean row_t rdf_cut in
        (mean_xB, mean_Q2, mean_t))
      (seq 0 n_t))
    (seq 0 n_q2))
  (seq 0 n_xb).

End Comparer.
(** ** Vocabulary of the statements *)

Module Spec.
Import Hist BSA Bins DVCS Pi0.
Local Open Scope R_scope.

(** [w'] extends [w]: the objects of [w] are still there, unchanged, and so
    is what was reported. *)
Definition extends (w w' : World) : Prop :=
  heap w `prefix_of` heap w' /\ cerr w `prefix_of` cerr w'.

(** Strictly increasing, checked on neighbours. *)
Fixpoint increasing_from (a : R) (l : list R) : Prop :=
  match l with
  | [] => True
  | b :: l' => a < b /\ increasing_from b l'
  end.

Definition increasing (l : list R) : Prop :=
  match l with
  | [] => True
  | a :: l' => increasing_from a l'
  end.

(** The object reached through a pointer. *)
Definition obj (w : World) (p : ptr) : TH1D := nth p (heap w) TH1D_null.

(** The invariant the library keeps on every histogram: [nbins + 2] cells,
    and sums of squared weights either off or one per cell. *)
Definition wf_hist (h : TH1D) : Prop :=
  length (fArray h) = (GetNbinsX h + 2)%nat /\
  (fSumw2 h = [] \/ length (fSumw2 h) = length (fArray h)).

(** Warnings, as opposed to errors. *)
Definition is_warning (d : Diag) : bool :=
  match d with
  | WarnNullHist _ _ _ | MissingHist _ _ _ => true
  | _ => false
  end.

(** [w'] extends [w] and only warnings were reported in between. *)
Definition extends_quietly (w w' : World) : Prop :=
  heap w `prefix_of` heap w' /\
  exists mid, cerr w' = cerr w ++ mid /\ forallb is_warning mid = true.

(** [w'] extends [w] and the last thing reported is an error [d] with
    [P d], after warnings only. *)
Definition fails_with (P : Diag -> Prop) (w w' : World) : Prop :=
  heap w `prefix_of` heap w' /\
  exists mid d, cerr w' = cerr w ++ mid ++ [d] /\
                forallb is_warning mid = true /\ P d.

(** The three dimensions of a grid. *)
Definition shape (g : Grid) : list (list nat) := map (map (@length _)) g.

(** The error [d] names a dimension in which [a] and [b] really differ. *)
Definition mismatch_at (a b : Grid) (d : Diag) : Prop :=
  match d with
  | ErrXBMismatch => length a <> length b
  | ErrQ2Mismatch ix => length (nth ix a []) <> length (nth ix b [])
  | ErrTMismatch ix iq =>
      length (nth iq (nth ix a []) []) <> length (nth iq (nth ix b []) [])
  | _ => False
  end.

(** Every non-null pointer of the grid points into the heap. *)
Definition grid_valid (w : World) (g : Grid) : Prop :=
  forall ix iq it p, cell g ix iq it = Some p -> (p < length (heap w))%nat.

(** Content and error of bin [b] set one after the other. *)
Definition set_bin (h : TH1D) (b : nat) (content error : R) : TH1D :=
  SetBinError (SetBinContent h b content) b error.

(** [N] cells, sums of squared weights off or one per cell. *)
Definition cells (N : nat) (h : TH1D) : Prop :=
  length (fArray h) = N /\ (fSumw2 h = [] \/ length (fSumw2 h) = N).

(** [N] cells, sums of squared weights switched on. *)
Definition sumw2_on (N : nat) (h : TH1D) : Prop :=
  length (fArray h) = N /\ length (fSumw2 h) = N.

(** What the bin loop of [ComputeBeamSpinAsymmetry] does to the clone, as a
    function of the two input objects. *)
Definition bsa_step (Hp Hm : TH1D) (pol : R) (ha : TH1D) (b : nat) : TH1D :=
  let Np := GetBinContent Hp b in
  let Nm := GetBinContent Hm b in
  let Ep := GetBinError Hp b in
  let Em := GetBinError Hm b in
  SetBinError (SetBinContent ha b (asym_A Np Nm / pol)) b
              (asym_E Np Nm Ep Em / pol).

Definition bsa_obj (Hp Hm : TH1D) (pol : R) : TH1D :=
  fold_left (bsa_step Hp Hm pol) (seq 1 (GetNbinsX Hp)) (Reset Hp).

(** What [ComputeBeamSpinAsymmetry], started in world [w0], leaves in a cell
    whose inputs are [hp] and [hm]: nothing when one of them is null, else a
    new object, which is [bsa_obj] of the two input objects when both
    pointers are live. *)
Definition cell_post (w0 : World) (pol : R) (hp hm r : option ptr)
    (w' : World) : Prop :=
  match hp, hm with
  | Some hp, Some hm =>
      exists ha, r = Some ha /\ (length (heap w0) <= ha)%nat /\
        ((hp < length (heap w0))%nat -> (hm < length (heap w0))%nat ->
         heap w' !! ha = Some (bsa_obj (obj w0 hp) (obj w0 hm) pol))
  | _, _ => r = None
  end.

Definition row_post (w0 : World) (pol : R) (pos neg row : list (option ptr))
    (w' : World) : Prop :=
  length pos = length neg /\
  Forall2 (fun it r => cell_post w0 pol (nth it pos None) (nth it neg None) r w')
          (seq 0 (length pos)) row.

Definition plane_post (w0 : World) (pol : R)
    (pos neg plane : list (list (option ptr))) (w' : World) : Prop :=
  length pos = length neg /\
  Forall2 (fun iq row => row_post w0 pol (nth iq pos []) (nth iq neg []) row w')
          (seq 0 (length pos)) plane.

Definition grid_post (w0 : World) (pol : R) (sp sm g : Grid)
    (w' : World) : Prop :=
  length sp = length sm /\
  Forall2 (fun ix plane => plane_post w0 pol (nth ix sp []) (nth ix sm []) plane w')
          (seq 0 (length sp)) g.

(** *** Vocabulary for [ComputeDVCS_CrossSection] *)

(** The grid of pointers the function returns when it starts on a heap of
    [base] objects: the cell [(ix, iq, it)] is the object number
    [ix * (n_q2 * n_t) + iq * n_t + it] of the call. *)
Definition grid_of (base n_xb n_q2 n_t : nat) : Grid :=
  map (fun ix =>
    map (fun iq =>
      map (fun it => Some (base + (ix * (n_q2 * n_t) + iq * n_t + it))%nat)
          (seq 0 n_t))
      (seq 0 n_q2))
    (seq 0 n_xb).

Definition n_cells (bins : BinManager) : nat * nat * nat :=
  ((length (GetXBBins bins) - 1)%nat, (length (GetQ2Bins bins) - 1)%nat,
   (length (GetTBins bins) - 1)%nat).

Definition new_hist : TH1D := TH1D_new n_phi_bins phi_min phi_max.

(** The cell a row goes to, if any: [(ix, iq, it)]. *)
Definition row_cell (bins : BinManager) (r : Row) : option (nat * nat * nat) :=
  let iq := findBin (row_Q2 r) (GetQ2Bins bins) in
  let it := findBin (row_t r) (GetTBins bins) in
  let ix := findBin (row_xB r) (GetXBBins bins) in
  if ((0 <=? iq)%Z && (0 <=? it)%Z && (0 <=? ix)%Z)%bool
  then Some (Z.to_nat ix, Z.to_nat iq, Z.to_nat it) else None.

(** ... and the number of its object. *)
Definition route (bins : BinManager) (r : Row) : option nat :=
  match row_cell bins r with
  | Some (ix, iq, it) =>
      let '(_, n_q2, n_t) := n_cells bins in
      Some (ix * (n_q2 * n_t) + iq * n_t + it)%nat
  | None => None
  end.

(** The event loop seen from the object number [k]. *)
Definition fill_step (this : DISANAMath) (bins : BinManager) (k : nat)
    (h : TH1D) (r : Row) : TH1D :=
  if bool_decide (route bins r = Some k)
  then Fill h (row_phi r) (fill_weight this r) else h.

Definition acc_obj (this : DISANAMath) (df : list Row) (bins : BinManager)
    (k : nat) : TH1D :=
  fold_left (fill_step this bins k) df new_hist.

(** ... and from the list of all objects of the call. *)
Definition route_step (this : DISANAMath) (bins : BinManager)
    (objs : list TH1D) (r : Row) : list TH1D :=
  match route bins r with
  | Some k => alter (fun h => Fill h (row_phi r) (fill_weight this r)) k objs
  | None => objs
  end.

(** The normalisation loop as a function of the object. *)
Definition bin_width : R := (phi_max - phi_min) / INR n_phi_bins.

Definition norm_step (luminosity : R) (h : TH1D) (b : nat) : TH1D :=
  let raw := GetBinContent h b in
  SetBinError (SetBinContent h b (raw / (luminosity * bin_width))) b
              (sqrt raw / (luminosity * bin_width)).

Definition normalize_obj (luminosity : R) (h : TH1D) : TH1D :=
  fold_left (norm_step luminosity) (seq 1 (GetNbinsX h)) h.

Definition dvcs_obj (this : DISANAMath) (df : list Row) (bins : BinManager)
    (luminosity : R) (k : nat) : TH1D :=
  normalize_obj luminosity (acc_obj this df bins k).

(** Sums over the rows that fall into angular bin [b] of cell
    [(ix, iq, it)]: of the weights, and of their squares. *)
Definition lands (bins : BinManager) (ix iq it b : nat) (r : Row) : bool :=
  bool_decide (row_cell bins r = Some (ix, iq, it)) &&
  Nat.eqb (Axis.FindBin (fXaxis new_hist) (row_phi r)) b.

Fixpoint sum_w (this : DISANAMath) (bins : BinManager) (ix iq it b : nat)
    (df : list Row) : R :=
  match df with
  | [] => 0
  | r :: df' =>
      (if lands bins ix iq it b r then fill_weight this r else 0)
      + sum_w this bins ix iq it b df'
  end.

Fixpoint sum_w2 (this : DISANAMath) (bins : BinManager) (ix iq it b : nat)
    (df : list Row) : R :=
  match df with
  | [] => 0
  | r :: df' =>
      (if lands bins ix iq it b r then fill_weight this r * fill_weight this r else 0)
      + sum_w2 this bins ix iq it b df'
  end.

(** What holds of a histogram that was only ever filled: no negative
    entry count, and no negative content while the sums of squared weights
    are off (every weight was [1] so far). *)
Definition filled_only (N : nat) (h : TH1D) : Prop :=
  cells N h /\ 0 <= fEntries h /\
  (fSumw2 h = [] -> forall b, 0 <= at_ (fArray h) b).

(** The angular bins counted from [0]: the library numbers them from [1]
    and keeps the underflow in its bin [0]. *)
Definition angular_bin (h : TH1D) (i : nat) : R := GetBinContent h (S i).

(** The event of the end-to-end scenario, and a correction table with one
    bin per axis that holds the factor [v]. *)
Definition one_event : Row := mkRow 1.5 0.2 0.15 190.

Definition flat_table (v : R) : Sparse.THnSparseD :=
  Sparse.mkTHnSparseD (Axis.mkTAxis 1 0 1000 []) (Axis.mkTAxis 1 0 1000 [])
    (Axis.mkTAxis 1 0 1000 []) (Axis.mkTAxis 1 0 1000 [])
    {[ (1%nat, 1%nat, 1%nat, 1%nat) := v ]}.

(** *** Vocabulary for [Divide], [Multiply] and [CalcPi0Corr] *)

(** The content [TH1::Divide] writes into a cell: the quotient, or [0] when
    the denominator is [0]. *)
Definition div_value (c1 c2 b1 b2 : R) : R :=
  if negb (Reqb b2 0) then c1 * b1 / (c2 * b2) else 0.

(** A computation that, of everything on the heap, changes only the object
    at [this], keeps its axis and number of cells, and leaves [val i] in
    the cells [i] of the list [l] and the other cells as they were. *)
Definition writes_cells (this : nat) (l : list nat) (val : nat -> R) {A}
    (c : M A) (w : World) : Prop :=
  exists F,
    (c w).2 = mkWorld (alter F this (heap w)) (cerr w) /\
    fXaxis (F (obj w this)) = fXaxis (obj w this) /\
    length (fArray (F (obj w this))) = length (fArray (obj w this)) /\
    forall i, at_ (fArray (F (obj w this))) i =
              if bool_decide (i ∈ l) then val i else at_ (fArray (obj w this)) i.

(** The content [CalcPi0Corr] leaves in a cell whose four input contents
    are [s_mc], [b_mc], [s_data], [b_data]. *)
Definition pi0_value (s_mc b_mc s_data b_data : R) : R :=
  div_value 1 1 (1 * div_value 1 1 s_mc b_mc * 1 * b_data) s_data.

(** The cell [(xb, q2, t)] of [hCorr] has been computed: it holds a new
    object whose contents are [pi0_value] of the contents of the four input
    histograms of the cell, as they were in the world [w0] the loops
    started from. *)
Definition pi0_cell_done (g1 g2 g3 g4 : Grid) (w0 : World)
    (hCorr : Grid) (w' : World) (t q2 xb : nat) : Prop :=
  exists hr o p1 p2 p3 p4,
    cell g1 xb q2 t = Some p1 /\ cell g2 xb q2 t = Some p2 /\
    cell g3 xb q2 t = Some p3 /\ cell g4 xb q2 t = Some p4 /\
    cell hCorr xb q2 t = Some hr /\ (length (heap w0) <= hr)%nat /\
    heap w' !! hr = Some o /\
    length (fArray o) = length (fArray (obj w0 p1)) /\
    forall i, (i < length (fArray (obj w0 p1)))%nat ->
      RetrieveBinContent o i =
      pi0_value (RetrieveBinContent (obj w0 p1) i) (RetrieveBinContent (obj w0 p2) i)
                (RetrieveBinContent (obj w0 p3) i) (RetrieveBinContent (obj w0 p4) i).

(** The invariant of the loops of [CalcPi0Corr]: the cells in [D] are
    computed, and nothing that was on the heap has changed. *)
Definition pi0_inv (g1 g2 g3 g4 : Grid) (n_t n_q2 n_xb : nat) (w0 : World)
    (D : nat -> nat -> nat -> Prop) (hCorr : Grid) (w' : World) : Prop :=
  heap w0 `prefix_of` heap w' /\
  shape hCorr = replicate n_xb (replicate n_q2 n_t) /\
  forall t q2 xb, (t < n_t)%nat -> (q2 < n_q2)%nat -> (xb < n_xb)%nat ->
    D t q2 xb -> pi0_cell_done g1 g2 g3 g4 w0 hCorr w' t q2 xb.

(** The four input grids fit the loops: every cell in range is there, its
    four histograms are on the heap and have the same number of bins. *)
Definition pi0_inputs_ok (g1 g2 g3 g4 : Grid) (n_t n_q2 n_xb : nat) (w0 : World) : Prop :=
  forall t q2 xb, (t < n_t)%nat -> (q2 < n_q2)%nat -> (xb < n_xb)%nat ->
    exists p1 p2 p3 p4,
      cell g1 xb q2 t = Some p1 /\ cell g2 xb q2 t = Some p2 /\
      cell g3 xb q2 t = Some p3 /\ cell g4 xb q2 t = Some p4 /\
      (p1 < length (heap w0))%nat /\ (p2 < length (heap w0))%nat /\
      (p3 < length (heap w0))%nat /\ (p4 < length (heap w0))%nat /\
      GetNbinsX (obj w0 p2) = GetNbinsX (obj w0 p1) /\
      GetNbinsX (obj w0 p3) = GetNbinsX (obj w0 p1) /\
      GetNbinsX (obj w0 p4) = GetNbinsX (obj w0 p1).

(** Bin [b] of cell [(ix, iq, it)] of the cross-section grid of a data
    frame, as [CalcPi0Corr] computes it (no correction, luminosity [1]). *)
Definition xsec_content (df : list Row) (bins : BinManager) (w : World)
    (ix iq it b : nat) : R :=
  let X := ComputeDVCS_CrossSection DISANAMath_default df bins 1 w in
  match cell X.1 ix iq it with
  | Some p => GetBinContent (obj X.2 p) b
  | None => 0
  end.

(** A small world for examples: two one-bin histograms over [[0, 1)] with
    bin contents [3] and [1]. *)
Definition two_hists : World :=
  mkWorld [SetBinContent (TH1D_new 1 0 1) 1 3; SetBinContent (TH1D_new 1 0 1) 1 1] [].

End Spec.
Import Spec.


(** ** Reading the results *)

Module Read.
Import Hist BSA Bins DVCS Pi0.
Local Open Scope R_scope.

(** Content and error of bin [b] of cell [(ix, iq, it)] of the grid that
    [ComputeDVCS_CrossSection] returns when it is started in world [w]. *)
Definition dvcs_content (this : DISANAMath) (df : list Row) (bins : BinManager)
    (L : R) (w : World) (ix iq it b : nat) : R :=
  let X := ComputeDVCS_CrossSection this df bins L w in
  match cell X.1 ix iq it with
  | Some p => GetBinContent (obj X.2 p) b
  | None => 0
  end.

Definition dvcs_error (this : DISANAMath) (df : list Row) (bins : BinManager)
    (L : R) (w : World) (ix iq it b : nat) : R :=
  let X := ComputeDVCS_CrossSection this df bins L w in
  match cell X.1 ix iq it with
  | Some p => GetBinError (obj X.2 p) b
  | None => 0
  end.

(** No list of edges is empty: the header computes the numbers of bins as
    [size() - 1] on unsigned numbers, which is the number meant only then. *)
Definition edges_present (bins : BinManager) : Prop :=
  (1 <= length (GetQ2Bins bins))%nat /\ (1 <= length (GetTBins bins))%nat /\
  (1 <= length (GetXBBins bins))%nat.

(** Edges that never decrease. *)
Definition nondecreasing (edges : list R) : Prop :=
  forall i j, (i <= j < length edges)%nat -> at_ edges i <= at_ edges j.

(** Edges with at most six digits after the decimal point. *)
Definition six_decimals (edges : list R) : Prop :=
  Forall (fun e => exists n : Z, e * 1000000 = IZR n) edges.

(** [x] is farther than half a unit of the sixth decimal from every edge. *)
Definition clear_of (edges : list R) (x : R) : Prop :=
  Forall (fun e => 0.0000005 < Rabs (x - e)) edges.

(** The rows that [filler] sends to the histogram of cell [(ix, iq, it)]. *)
Definition cell_rows (bins : BinManager) (ix iq it : nat) (df : list Row) : list Row :=
  filter (fun r => row_cell bins r = Some (ix, iq, it)) df.

(** One of the three look-ups of [filler] fails for the row. *)
Definition off_grid (bins : BinManager) (r : Row) : Prop :=
  findBin (row_Q2 r) (GetQ2Bins bins) = (-1)%Z \/
  findBin (row_t r) (GetTBins bins) = (-1)%Z \/
  findBin (row_xB r) (GetXBBins bins) = (-1)%Z.

(** The number of rows that fall into angular bin [b] of cell
    [(ix, iq, it)]. *)
Definition count (bins : BinManager) (ix iq it b : nat) (df : list Row) : nat :=
  length (filter (fun r => lands bins ix iq it b r = true) df).

(** Content and error of bin [b] of cell [(ix, iq, it)] of the grid that
    [ComputeBeamSpinAsymmetry] returns when it is started in world [w]. *)
Definition bsa_content (sp sm : Grid) (pol : R) (w : World) (ix iq it b : nat) : R :=
  let X := ComputeBeamSpinAsymmetry sp sm pol w in
  match cell X.1 ix iq it with
  | Some ha => GetBinContent (obj X.2 ha) b
  | None => 0
  end.

Definition bsa_error (sp sm : Grid) (pol : R) (w : World) (ix iq it b : nat) : R :=
  let X := ComputeBeamSpinAsymmetry sp sm pol w in
  match cell X.1 ix iq it with
  | Some ha => GetBinError (obj X.2 ha) b
  | None => 0
  end.

(** Content of bin [b] of cell [(xb, q2, t)] of the grid that [CalcPi0Corr]
    returns when it is started in world [w]. *)
Definition pi0_content (df_dvcs_mc df_pi0_mc df_dvcs_data df_pi0_data : list Row)
    (xBins : BinManager) (w : World) (xb q2 t b : nat) : R :=
  let X := CalcPi0Corr df_dvcs_mc df_pi0_mc df_dvcs_data df_pi0_data xBins w in
  match cell X.1 xb q2 t with
  | Some hr => GetBinContent (obj X.2 hr) b
  | None => 0
  end.

End Read.
Import Read.
(** * Part II: facts and theorems *)

(** ** Decidable comparisons on reals *)

Section RealCmpFacts.
Local Open Scope R_scope.

Lemma Rltb_true x y : x < y -> Rltb x y = true.
Proof. intros H; unfold Rltb; destruct (Rlt_dec x y); [reflexivity | contradiction]. Qed.

Lemma Rltb_false x y : ~ x < y -> Rltb x y = false.
Proof. intros H; unfold Rltb; destruct (Rlt_dec x y); [contradiction | reflexivity]. Qed.

Lemma Rltb_spec x y : reflect (x < y) (Rltb x y).
Proof. unfold Rltb; destruct (Rlt_dec x y); constructor; assumption. Qed.

Lemma Reqb_true x y : x = y -> Reqb x y = true.
Proof. intros H; unfold Reqb; destruct (Req_dec_T x y); [reflexivity | contradiction]. Qed.

Lemma Reqb_false x y : x <> y -> Reqb x y = false.
Proof. intros H; unfold Reqb; destruct (Req_dec_T x y); [contradiction | reflexivity]. Qed.

Lemma Reqb_spec x y : reflect (x = y) (Reqb x y).
Proof. unfold Reqb; destruct (Req_dec_T x y); constructor; assumption. Qed.

End RealCmpFacts.

(** Evaluate comparisons between concrete reals. *)
Ltac Rdecide :=
  repeat match goal with
  | |- context [Rltb ?a ?b] =>
      first [ rewrite (Rltb_true a b) by lra | rewrite (Rltb_false a b) by lra ]
  | |- context [Reqb ?a ?b] =>
      first [ rewrite (Reqb_true a b) by lra | rewrite (Reqb_false a b) by lra ]
  end.

(** ** [findBin] *)

Section FindBinFacts.
Local Open Scope R_scope.

Lemma div2_lt_S n : (Nat.div2 (S n) <= n)%nat.
Proof.
  destruct n as [|n]; [simpl; lia|].
  pose proof (Nat.div2_decr (S (S n)) (S (S n))) as H.
  pose proof (Nat.lt_div2 (S (S n))) as H1. lia.
Qed.

(** The search maintains: everything left of [first] is [<= val], everything
    from [first + len] on is [> val]. *)
Lemma upper_bound_loop_spec edges val :
  strictly_increasing edges ->
  forall fuel first len,
    (len <= fuel)%nat ->
    (first + len <= length edges)%nat ->
    (forall i, (i < first)%nat -> at_ edges i <= val) ->
    (forall i, (first + len <= i < length edges)%nat -> val < at_ edges i) ->
    let r := upper_bound_loop fuel edges val first len in
    (r <= length edges)%nat /\
    (forall i, (i < r)%nat -> at_ edges i <= val) /\
    (forall i, (r <= i < length edges)%nat -> val < at_ edges i).
Proof.
  intros Hs fuel; induction fuel as [|fuel IH]; intros first len Hf Hb Hl Hr.
  - assert (len = 0)%nat by lia; subst len. simpl.
    split; [lia|]. split; [exact Hl|]. intros i Hi; apply Hr; lia.
  - destruct len as [|len'].
    + simpl. split; [lia|]. split; [exact Hl|]. intros i Hi; apply Hr; lia.
    + cbn [upper_bound_loop]. cbv zeta.
      pose proof (div2_lt_S len') as Hh.
      set (half := Nat.div2 (S len')) in *.
      destruct (Rltb_spec val (at_ edges (first + half)%nat)) as [Hlt|Hge].
      * apply IH; try lia; [exact Hl|].
        intros i Hi.
        destruct (Nat.eq_dec i (first + half)%nat) as [->|Hne]; [exact Hlt|].
        apply Rlt_trans with (at_ edges (first + half)%nat); [exact Hlt|].
        apply Hs; lia.
      * apply IH; try lia.
        -- intros i Hi.
           destruct (Nat.eq_dec i (first + half)%nat) as [->|Hne]; [lra|].
           destruct (Nat.lt_ge_cases i first) as [Hi'|Hi']; [apply Hl; exact Hi'|].
           apply Rle_trans with (at_ edges (first + half)%nat); [|lra].
           left; apply Hs; lia.
        -- intros i Hi; apply Hr; lia.
Qed.

Lemma upper_bound_spec edges val :
  strictly_increasing edges ->
  let r := upper_bound edges val in
  (r <= length edges)%nat /\
  (forall i, (i < r)%nat -> at_ edges i <= val) /\
  (forall i, (r <= i < length edges)%nat -> val < at_ edges i).
Proof.
  intros Hs. unfold upper_bound.
  apply upper_bound_loop_spec; try lia; try exact Hs; intros i Hi; lia.
Qed.

(** C1.  On strictly increasing edges with at least two values, [findBin]
    returns the out-of-range marker [-1] exactly when the value is below the
    first edge or at or above the last one; otherwise it returns a bin [i]
    with [edges[i] <= val < edges[i+1]], and no other bin holds the value. *)
Theorem findBin_locates (edges : list R) (val : R) :
  strictly_increasing edges ->
  (2 <= length edges)%nat ->
  (findBin val edges = (-1)%Z <->
     val < at_ edges 0 \/ at_ edges (length edges - 1)%nat <= val) /\
  (findBin val edges <> (-1)%Z ->
     exists i, findBin val edges = Z.of_nat i /\ in_bin edges val i) /\
  (forall i, in_bin edges val i -> findBin val edges = Z.of_nat i).
Proof.
  intros Hs Hlen.
  destruct (upper_bound_spec edges val Hs) as (Hr & Hlo & Hhi).
  unfold findBin. set (r := upper_bound edges val) in *.
  destruct (Nat.eqb_spec r 0) as [E0|N0]; cbn [orb].
  - (* it == edges.begin() *)
    assert (Hbelow : val < at_ edges 0) by (apply Hhi; lia).
    split; [split; [intros _; left; exact Hbelow | reflexivity]|].
    split; [intros H; contradiction H; reflexivity|].
    intros i (Hi & Hge & _). exfalso.
    assert (at_ edges 0 <= at_ edges i).
    { destruct i; [lra|]. left; apply Hs; lia. }
    lra.
  - destruct (Nat.eqb_spec r (length edges)) as [El|Nl].
    + (* it == edges.end() *)
      assert (Habove : at_ edges (length edges - 1)%nat <= val) by (apply Hlo; lia).
      split; [split; [intros _; right; exact Habove | reflexivity]|].
      split; [intros H; contradiction H; reflexivity|].
      intros i (Hi & _ & Hlt). exfalso.
      assert (at_ edges (S i) <= at_ edges (length edges - 1)%nat).
      { destruct (Nat.eq_dec (S i) (length edges - 1)%nat) as [->|Hne]; [lra|].
        left; apply Hs; lia. }
      lra.
    + (* a proper bin *)
      assert (Hin : in_bin edges val (r - 1)%nat).
      { split; [lia|]. split; [apply Hlo; lia|].
        replace (S (r - 1)%nat) with r by lia. apply Hhi; lia. }
      split.
      { split; [intros H; lia|].
        intros [Hb|Ha]; exfalso.
        - assert (at_ edges 0 <= val) by (apply Hlo; lia). lra.
        - assert (val < at_ edges (length edges - 1)%nat) by (apply Hhi; lia). lra. }
      split.
      { intros _. exists (r - 1)%nat. split; [lia | exact Hin]. }
      intros i (Hi & Hge & Hlt).
      destruct (Nat.lt_trichotomy i (r - 1)%nat) as [Hc|[->|Hc]]; [|lia|]; exfalso.
      * assert (at_ edges (S i) <= val) by (apply Hlo; lia). lra.
      * assert (val < at_ edges i) by (apply Hhi; lia). lra.
Qed.

Lemma increasing_from_above a l :
  increasing_from a l -> forall j, (j < length l)%nat -> a < at_ l j.
Proof.
  revert a. induction l as [|b l IH]; intros a H j Hj; [cbn in Hj; lia|].
  destruct H as [Hab Hl]. destruct j as [|j]; [exact Hab|].
  cbn. apply Rlt_trans with b; [exact Hab|]. apply IH; [exact Hl | cbn in Hj; lia].
Qed.

Lemma increasing_strictly l : increasing l -> strictly_increasing l.
Proof.
  induction l as [|a l IH]; intros H i j Hij; [cbn in Hij; lia|].
  cbn in H. destruct j as [|j]; [lia|]. destruct i as [|i].
  - cbn. apply increasing_from_above; [exact H | cbn in Hij; lia].
  - cbn. apply IH; [|cbn in Hij; lia].
    destruct l as [|b l]; [exact I | exact (proj2 H)].
Qed.

(** The theorem at the first default edge set and the value [1.5]. *)
Lemma findBin_locates_witness :
  exists i, findBin 1.5 [1; 2; 4; 6] = Z.of_nat i /\ in_bin [1; 2; 4; 6] 1.5 i.
Proof.
  assert (Hinc : strictly_increasing [1; 2; 4; 6]).
  { apply increasing_strictly. cbn. lra. }
  destruct (findBin_locates [1; 2; 4; 6] 1.5 Hinc ltac:(cbn; lia)) as (_ & H & _).
  apply H.
  unfold findBin, upper_bound. cbn. unfold at_; cbn. Rdecide. cbn. discriminate.
Defined.

End FindBinFacts.

(** ** Reasoning about heap computations *)

Section MonadFacts.

Lemma run_bind {A B} (c : M A) (k : A -> M B) (w : World) :
  (c ≫= k) w = k (c w).1 (c w).2.
Proof. unfold mbind, M_bind, bind. destruct (c w); reflexivity. Qed.

Lemma run_ret {A} (a : A) (w : World) : (mret a : M A) w = (a, w).
Proof. reflexivity. Qed.

#[global] Instance extends_preorder : PreOrder extends.
Proof.
  split.
  - intros w; split; reflexivity.
  - intros a b c [H1 H2] [H3 H4]; split; etransitivity; eassumption.
Qed.

Lemma extends_lookup w w' p h :
  extends w w' -> heap w !! p = Some h -> heap w' !! p = Some h.
Proof. intros [[ext ->] _] H. apply lookup_app_l_Some; exact H. Qed.

Lemma extends_length w w' : extends w w' -> length (heap w) <= length (heap w').
Proof. intros [H _]. apply prefix_length; exact H. Qed.

Lemma extends_nth w w' p :
  extends w w' -> p < length (heap w) ->
  nth p (heap w') TH1D_null = nth p (heap w) TH1D_null.
Proof.
  intros [[ext ->] _] H. apply app_nth1; exact H.
Qed.

Lemma prefix_alter_ge {A} (f : A -> A) (l0 l : list A) p :
  l0 `prefix_of` l -> length l0 <= p -> l0 `prefix_of` alter f p l.
Proof.
  intros [ext ->] Hp. exists (alter f (p - length l0) ext).
  rewrite alter_app_r_alt by exact Hp. reflexivity.
Qed.

End MonadFacts.

(** Loop rules.  [R] relates the world before a turn to the world after it,
    [Q a b] is what is known of the value [b] computed for [a]; it has to
    survive the later turns. *)
Section LoopRules.
Context {A B : Type} (R : World -> World -> Prop) `{!PreOrder R}.
Context (Q : A -> B -> World -> Prop).
Hypothesis Q_stable : forall a b w w', Q a b w -> R w w' -> Q a b w'.

Lemma for_collect_spec (w0 : World) (l : list A) (body : A -> M B) :
  (forall a, a ∈ l -> forall w, R w0 w ->
     R w (body a w).2 /\ Q a (body a w).1 (body a w).2) ->
  forall w, R w0 w ->
    R w (for_collect l body w).2 /\
    Forall2 (fun a b => Q a b (for_collect l body w).2) l (for_collect l body w).1.
Proof.
  induction l as [|a l IH]; intros Hbody w Hw.
  - cbn. split; [reflexivity | constructor].
  - cbn [for_collect]. rewrite run_bind.
    destruct (Hbody a ltac:(left) w Hw) as [HR HQ].
    destruct (body a w) as [b w1]; cbn [fst snd] in *.
    rewrite run_bind.
    assert (Hw1 : R w0 w1) by (etransitivity; eassumption).
    destruct (IH (fun a' Ha' => Hbody a' ltac:(right; exact Ha')) w1 Hw1) as [HR' HQ'].
    destruct (for_collect l body w1) as [bs w2]; cbn [fst snd] in *.
    rewrite run_ret; cbn [fst snd].
    split; [etransitivity; eassumption|].
    constructor; [eapply Q_stable; eassumption | exact HQ'].
Qed.

(** With early return: [Err w w'] is what is known when the function was
    left at world [w'] by a turn started (some turns after) [w]. *)
Context (Err : World -> World -> Prop).
Hypothesis Err_after : forall w w' w'', R w w' -> Err w' w'' -> Err w w''.

Lemma for_collect_or_return_spec (w0 : World) (l : list A)
    (body : A -> M (option B)) :
  (forall a, a ∈ l -> forall w, R w0 w ->
     match (body a w).1 with
     | Some b => R w (body a w).2 /\ Q a b (body a w).2
     | None => Err w (body a w).2
     end) ->
  forall w, R w0 w ->
    match (for_collect_or_return l body w).1 with
    | Some bs => R w (for_collect_or_return l body w).2 /\
                 Forall2 (fun a b => Q a b (for_collect_or_return l body w).2) l bs
    | None => Err w (for_collect_or_return l body w).2
    end.
Proof.
  induction l as [|a l IH]; intros Hbody w Hw.
  - cbn. split; [reflexivity | constructor].
  - cbn [for_collect_or_return]. rewrite run_bind.
    pose proof (Hbody a ltac:(left) w Hw) as Ha.
    destruct (body a w) as [[b|] w1]; cbn [fst snd] in *.
    + destruct Ha as [HR HQ]. rewrite run_bind.
      assert (Hw1 : R w0 w1) by (etransitivity; eassumption).
      pose proof (IH (fun a' Ha' => Hbody a' ltac:(right; exact Ha')) w1 Hw1) as Hl.
      destruct (for_collect_or_return l body w1) as [[bs|] w2]; cbn [fst snd] in *.
      * destruct Hl as [HR' HQ']. split; [etransitivity; eassumption|].
        constructor; [eapply Q_stable; eassumption | exact HQ'].
      * eapply Err_after; eassumption.
    + exact Ha.
Qed.

End LoopRules.
(** ** [ComputeBeamSpinAsymmetry]: what one cell does *)

Section BsaCell.
Import Hist BSA.
Local Open Scope R_scope.

Lemma nth_alter_ne {A} (f : A -> A) (l : list A) (i j : nat) (d : A) :
  i <> j -> nth j (alter f i l) d = nth j l d.
Proof. intros H. rewrite !nth_lookup, list_lookup_alter_ne by exact H. reflexivity. Qed.

Lemma nth_alter_eq {A} (f : A -> A) (l : list A) (i : nat) (d : A) :
  (i < length l)%nat -> nth i (alter f i l) d = f (nth i l d).
Proof.
  intros H. rewrite !nth_lookup, list_lookup_alter_eq.
  destruct (lookup_lt_is_Some_2 l i H) as [x ->]. reflexivity.
Qed.

Lemma alter_snoc {A} (f : A -> A) (l : list A) (x : A) :
  alter f (length l) (l ++ [x]) = l ++ [f x].
Proof.
  replace (length l) with (length l + 0)%nat at 1 by lia.
  rewrite alter_app_r. reflexivity.
Qed.

(** One turn of the bin loop updates the clone and nothing else. *)
Lemma bsa_bin_run hp hm ha pol b w :
  bsa_bin hp hm ha pol b w =
  (tt, mkWorld (alter (fun a => bsa_step (obj w hp) (obj w hm) pol a b) ha (heap w))
               (cerr w)).
Proof.
  unfold bsa_bin, mbind, M_bind, bind, query, call; cbn.
  rewrite list_alter_alter_eq. reflexivity.
Qed.

Lemma bsa_bins_frame hp hm ha pol l : forall w,
  exists f, for_ l (bsa_bin hp hm ha pol) w =
            (tt, mkWorld (alter f ha (heap w)) (cerr w)).
Proof.
  induction l as [|b l IH]; intros w.
  - exists (fun a => a). cbn. rewrite list_alter_id by reflexivity.
    destruct w; reflexivity.
  - cbn [for_]. rewrite run_bind, bsa_bin_run; cbn [fst snd].
    destruct (IH (mkWorld (alter (fun a => bsa_step (obj w hp) (obj w hm) pol a b) ha (heap w))
                          (cerr w))) as [f ->]; cbn [heap cerr].
    eexists. rewrite list_alter_alter_eq. reflexivity.
Qed.

(** When the clone is neither of the two inputs, the loop is the fold of
    [bsa_step] over the bins. *)
Lemma bsa_bins_run hp hm ha pol l : forall w,
  hp <> ha -> hm <> ha ->
  for_ l (bsa_bin hp hm ha pol) w =
  (tt, mkWorld (alter (fun a => fold_left (bsa_step (obj w hp) (obj w hm) pol) l a)
                      ha (heap w))
               (cerr w)).
Proof.
  induction l as [|b l IH]; intros w Hp Hm.
  - cbn. rewrite list_alter_id by reflexivity. destruct w; reflexivity.
  - cbn [for_]. rewrite run_bind, bsa_bin_run; cbn [fst snd].
    rewrite IH by assumption; cbn [heap cerr].
    unfold obj; cbn [heap].
    rewrite !nth_alter_ne by congruence.
    rewrite list_alter_alter_eq. reflexivity.
Qed.

(** A cell with both inputs present: one new object, at the next free
    address; nothing else moves. *)
Lemma bsa_cell_some ix iq it hp hm pol w :
  exists o,
    bsa_cell ix iq it (Some hp) (Some hm) pol w =
      (Some (length (heap w)), mkWorld (heap w ++ [o]) (cerr w)) /\
    ((hp < length (heap w))%nat -> (hm < length (heap w))%nat ->
     o = bsa_obj (obj w hp) (obj w hm) pol).
Proof.
  unfold bsa_cell. repeat rewrite run_bind.
  unfold query, alloc, call. cbn [fst snd heap cerr].
  set (o0 := nth hp (heap w) TH1D_null).
  rewrite alter_snoc.
  set (n := GetNbinsX (nth hp (heap w ++ [Reset o0]) TH1D_null)).
  set (w1 := mkWorld (heap w ++ [Reset o0]) (cerr w)).
  destruct (bsa_bins_frame hp hm (length (heap w)) pol (seq 1 n) w1) as [f Hf].
  exists (f (Reset o0)). split.
  - rewrite Hf. cbn [fst snd heap cerr]. rewrite run_ret.
    subst w1; cbn [heap]. rewrite alter_snoc. reflexivity.
  - intros Hhp Hhm.
    rewrite bsa_bins_run in Hf by lia.
    assert (Hobj : forall p, (p < length (heap w))%nat -> obj w1 p = obj w p).
    { intros p Hlt. unfold obj, w1; cbn [heap]. apply app_nth1; exact Hlt. }
    rewrite !Hobj in Hf by assumption.
    injection Hf as Hf.
    subst w1; cbn [heap] in Hf.
    rewrite !alter_snoc in Hf. apply app_inv_head in Hf.
    injection Hf as Hf. rewrite <- Hf.
    unfold bsa_obj. subst n o0.
    rewrite app_nth1 by exact Hhp. reflexivity.
Qed.

Lemma bsa_cell_null ix iq it hp hm pol w :
  hp = None \/ hm = None ->
  bsa_cell ix iq it hp hm pol w =
    (None, mkWorld (heap w) (cerr w ++ [WarnNullHist ix iq it])).
Proof.
  intros H. unfold bsa_cell.
  destruct hp as [hp|], hm as [hm|]; try (destruct H; discriminate); reflexivity.
Qed.

End BsaCell.
(** ** [ComputeBeamSpinAsymmetry]: the loops over the grid *)

Section BsaGrid.
Import Hist BSA.

#[local] Instance extends_quietly_preorder : PreOrder extends_quietly.
Proof.
  split.
  - intros w; split; [reflexivity|]. exists []. rewrite app_nil_r. split; reflexivity.
  - intros a b c [H1 (m1 & E1 & W1)] [H2 (m2 & E2 & W2)]. split; [etransitivity; eassumption|].
    exists (m1 ++ m2). rewrite E2, E1, <- app_assoc. split; [reflexivity|].
    rewrite forallb_app, W1, W2. reflexivity.
Qed.

Lemma fails_after P w w' w'' :
  extends_quietly w w' -> fails_with P w' w'' -> fails_with P w w''.
Proof.
  intros [H1 (m1 & E1 & W1)] [H2 (m2 & d & E2 & W2 & Hd)].
  split; [etransitivity; eassumption|].
  exists (m1 ++ m2), d. rewrite E2, E1, <- !app_assoc. split; [reflexivity|].
  rewrite forallb_app, W1, W2. split; [reflexivity | exact Hd].
Qed.

Lemma cell_post_stable w0 pol hp hm r w w' :
  cell_post w0 pol hp hm r w -> extends_quietly w w' -> cell_post w0 pol hp hm r w'.
Proof.
  unfold cell_post. destruct hp as [hp|], hm as [hm|]; try (intros; assumption).
  intros (ha & -> & Hge & Hobj) [[ext Hext] _].
  exists ha. split; [reflexivity|]. split; [exact Hge|].
  intros Hp Hm. rewrite Hext. apply lookup_app_l_Some. apply Hobj; assumption.
Qed.

Lemma row_post_stable w0 pol pos neg row w w' :
  row_post w0 pol pos neg row w -> extends_quietly w w' -> row_post w0 pol pos neg row w'.
Proof.
  intros [Hl HF] He. split; [exact Hl|].
  eapply Forall2_impl; [exact HF|]. intros it r Hc.
  exact (cell_post_stable _ _ _ _ _ _ _ Hc He).
Qed.

Lemma plane_post_stable w0 pol pos neg plane w w' :
  plane_post w0 pol pos neg plane w -> extends_quietly w w' ->
  plane_post w0 pol pos neg plane w'.
Proof.
  intros [Hl HF] He. split; [exact Hl|].
  eapply Forall2_impl; [exact HF|]. intros iq row Hc.
  exact (row_post_stable _ _ _ _ _ _ _ Hc He).
Qed.

Lemma bsa_cell_spec w0 pol ix iq it hp hm w :
  extends_quietly w0 w ->
  extends_quietly w (bsa_cell ix iq it hp hm pol w).2 /\
  cell_post w0 pol hp hm (bsa_cell ix iq it hp hm pol w).1 (bsa_cell ix iq it hp hm pol w).2.
Proof.
  intros [[ext Hext] _].
  destruct hp as [hp|]; [destruct hm as [hm|]|].
  - destruct (bsa_cell_some ix iq it hp hm pol w) as (o & -> & Ho). cbn [fst snd].
    split.
    + split; cbn [heap cerr]; [apply prefix_app_r; reflexivity|].
      exists []. rewrite app_nil_r. split; reflexivity.
    + exists (length (heap w)). split; [reflexivity|].
      split; [rewrite Hext, length_app; lia|].
      intros Hp Hm. cbn [heap].
      rewrite Ho by (rewrite Hext, length_app; lia).
      unfold obj. rewrite Hext, !app_nth1 by assumption.
      rewrite <- Hext. rewrite lookup_app_r by lia.
      rewrite Nat.sub_diag. reflexivity.
  - rewrite bsa_cell_null by (right; reflexivity). cbn [fst snd].
    split; [|reflexivity].
    split; cbn [heap cerr]; [reflexivity|].
    exists [WarnNullHist ix iq it]. split; reflexivity.
  - rewrite bsa_cell_null by (left; reflexivity). cbn [fst snd].
    split; [|reflexivity].
    split; cbn [heap cerr]; [reflexivity|].
    exists [WarnNullHist ix iq it]. split; reflexivity.
Qed.

Lemma report_fails (P : Diag -> Prop) {A} (a : A) d w :
  P d -> fails_with P w ((report d;; mret a) w).2.
Proof.
  intros Hd. split; cbn; [reflexivity|].
  exists [], d. cbn. split; [reflexivity|]. split; [reflexivity | exact Hd].
Qed.

Lemma bsa_q2_spec w0 pol sp sm ix iq w :
  extends_quietly w0 w ->
  let pos := nth iq (nth ix sp []) [] in
  let neg := nth iq (nth ix sm []) [] in
  match (bsa_q2 ix iq pos neg pol w).1 with
  | Some row => extends_quietly w (bsa_q2 ix iq pos neg pol w).2 /\
                row_post w0 pol pos neg row (bsa_q2 ix iq pos neg pol w).2
  | None => fails_with (mismatch_at sp sm) w (bsa_q2 ix iq pos neg pol w).2
  end.
Proof.
  intros Hw pos neg. unfold bsa_q2.
  destruct (Nat.eqb_spec (length pos) (length neg)) as [E|N]; cbn [negb].
  - rewrite run_bind, run_ret. cbn [fst snd].
    destruct (for_collect_spec extends_quietly
                (fun it r w' => cell_post w0 pol (nth it pos None) (nth it neg None) r w')
                (fun a b w1 w2 H1 H2 => cell_post_stable _ _ _ _ _ _ _ H1 H2)
                w0 (seq 0 (length pos))
                (fun it => bsa_cell ix iq it (nth it pos None) (nth it neg None) pol)
                (fun it _ w1 Hw1 => bsa_cell_spec w0 pol ix iq it _ _ w1 Hw1)
                w Hw) as [HR HQ].
    split; [exact HR|]. split; [exact E | exact HQ].
  - apply (report_fails (mismatch_at sp sm)). exact N.
Qed.

Lemma bsa_xb_spec w0 pol sp sm ix w :
  extends_quietly w0 w ->
  let pos := nth ix sp [] in
  let neg := nth ix sm [] in
  match (bsa_xb ix pos neg pol w).1 with
  | Some plane => extends_quietly w (bsa_xb ix pos neg pol w).2 /\
                  plane_post w0 pol pos neg plane (bsa_xb ix pos neg pol w).2
  | None => fails_with (mismatch_at sp sm) w (bsa_xb ix pos neg pol w).2
  end.
Proof.
  intros Hw pos neg. unfold bsa_xb.
  destruct (Nat.eqb_spec (length pos) (length neg)) as [E|N]; cbn [negb].
  - pose proof (for_collect_or_return_spec extends_quietly
                (fun iq row w' => row_post w0 pol (nth iq pos []) (nth iq neg []) row w')
                (fun a b w1 w2 H1 H2 => row_post_stable _ _ _ _ _ _ _ H1 H2)
                (fails_with (mismatch_at sp sm))
                (fails_after (mismatch_at sp sm))
                w0 (seq 0 (length pos))
                (fun iq => bsa_q2 ix iq (nth iq pos []) (nth iq neg []) pol)
                (fun iq _ w1 Hw1 => bsa_q2_spec w0 pol sp sm ix iq w1 Hw1)
                w Hw) as H.
    destruct (for_collect_or_return _ _ w) as [[plane|] w']; cbn [fst snd] in *.
    + destruct H as [HR HQ]. split; [exact HR|]. split; [exact E | exact HQ].
    + exact H.
  - apply (report_fails (mismatch_at sp sm)). exact N.
Qed.

(** The whole function: either every size check passed, only warnings were
    reported and every cell holds what [cell_post] says, or the grid
    returned is empty and the last report is the error of a size check
    that failed. *)
Lemma ComputeBeamSpinAsymmetry_outcome sp sm pol w :
  let out := ComputeBeamSpinAsymmetry sp sm pol w in
  (extends_quietly w out.2 /\ grid_post w pol sp sm out.1 out.2) \/
  (out.1 = [] /\ fails_with (mismatch_at sp sm) w out.2).
Proof.
  cbv zeta. unfold ComputeBeamSpinAsymmetry.
  destruct (Nat.eqb_spec (length sp) (length sm)) as [E|N]; cbn [negb].
  - rewrite run_bind.
    pose proof (for_collect_or_return_spec extends_quietly
                (fun ix plane w' => plane_post w pol (nth ix sp []) (nth ix sm []) plane w')
                (fun a b w1 w2 H1 H2 => plane_post_stable _ _ _ _ _ _ _ H1 H2)
                (fails_with (mismatch_at sp sm))
                (fails_after (mismatch_at sp sm))
                w (seq 0 (length sp))
                (fun ix => bsa_xb ix (nth ix sp []) (nth ix sm []) pol)
                (fun ix _ w1 Hw1 => bsa_xb_spec w pol sp sm ix w1 Hw1)
                w ltac:(reflexivity)) as H.
    destruct (for_collect_or_return _ _ w) as [[g|] w']; cbn [fst snd] in *.
    + left. destruct H as [HR HQ]. split; [exact HR|]. split; [exact E | exact HQ].
    + right. split; [reflexivity | exact H].
  - right. split; [reflexivity|].
    apply (report_fails (mismatch_at sp sm)). exact N.
Qed.

End BsaGrid.
(** ** Setting the bins of a histogram one by one *)

Section BsaObj.
Import Hist BSA.
Local Open Scope R_scope.

Lemma wf_hist_cells h : wf_hist h -> cells (GetNbinsX h + 2) h.
Proof. intros [H1 H2]. split; [exact H1|]. destruct H2; [left|right]; congruence. Qed.

Lemma Reset_cells N h : cells N h -> cells N (Reset h).
Proof.
  intros [H1 H2]. unfold cells, Reset; cbn.
  rewrite !length_replicate. split; [exact H1|].
  destruct H2 as [->|H2]; [left; reflexivity | right; exact H2].
Qed.

Lemma Sumw2_on N h : cells N h -> sumw2_on N (Sumw2 h) /\ fArray (Sumw2 h) = fArray h.
Proof.
  intros [H1 H2]. unfold Sumw2, sumw2_on.
  destruct (fSumw2 h) as [|s0 s] eqn:Es.
  - cbn. split; [|reflexivity]. split; [exact H1|].
    destruct (Rltb 0 (fEntries h)); [rewrite length_map | rewrite length_replicate];
      exact H1.
  - split; [|reflexivity]. split; [exact H1|]. rewrite Es.
    destruct H2 as [H2|H2]; [discriminate | exact H2].
Qed.

Lemma Sumw2_id N h : sumw2_on N h -> (0 < N)%nat -> Sumw2 h = h.
Proof.
  intros [_ H2] HN. unfold Sumw2. destruct (fSumw2 h); [cbn in H2; lia | reflexivity].
Qed.

(** Setting bin [b] writes both values of bin [b] ... *)
Lemma set_bin_at N h b v e :
  cells N h -> (b < N)%nat ->
  let h' := set_bin h b v e in
  sumw2_on N h' /\ fXaxis h' = fXaxis h /\
  fArray h' !! b = Some v /\ fSumw2 h' !! b = Some (e * e).
Proof.
  intros Hc Hb. cbv zeta. unfold set_bin.
  assert (Hc1 : cells N (SetBinContent h b v) /\
                fXaxis (SetBinContent h b v) = fXaxis h /\
                fArray (SetBinContent h b v) !! b = Some v).
  { destruct Hc as [H1 H2]. unfold SetBinContent, fNcells; cbn.
    destruct (Nat.leb_spec (length (fArray h)) b) as [Hle|Hlt]; [lia|].
    unfold cells, UpdateBinContent, setEntries; cbn.
    rewrite length_insert. split; [split; assumption|]. split; [reflexivity|].
    apply list_lookup_insert_eq; exact Hlt. }
  destruct Hc1 as (Hc1 & Hax & Hv). set (h1 := SetBinContent h b v) in *.
  unfold SetBinError, fNcells.
  destruct (Nat.leb_spec (length (fArray h1)) b) as [Hle|Hlt];
    [destruct Hc1 as [Hc1 _]; lia|].
  destruct (Sumw2_on N h1 Hc1) as [[Ha Hs] Hfa].
  unfold sumw2_on, setSumw2; cbn [fArray fSumw2 fXaxis].
  rewrite length_insert, Hfa.
  split; [split; [apply Hc1 | exact Hs]|].
  split; [rewrite <- Hax; unfold Sumw2; destruct (fSumw2 h1); reflexivity|].
  split; [exact Hv|].
  apply list_lookup_insert_eq. lia.
Qed.

(** ... leaves the contents of the other bins alone ... *)
Lemma set_bin_other_content N h b b' v e :
  cells N h -> (b' < N)%nat -> b' <> b ->
  fArray (set_bin h b' v e) !! b = fArray h !! b.
Proof.
  intros [H1 H2] Hb Hne. unfold set_bin, SetBinContent, fNcells; cbn.
  destruct (Nat.leb_spec (length (fArray h)) b') as [Hle|Hlt]; [lia|].
  unfold SetBinError, fNcells; cbn. rewrite length_insert.
  destruct (Nat.leb_spec (length (fArray h)) b') as [Hle'|_]; [lia|].
  cbn [fArray setSumw2].
  replace (fArray (Sumw2 (UpdateBinContent (setEntries h (fEntries h + 1)) b' v)))
    with (<[b' := v]> (fArray h)).
  - apply list_lookup_insert_ne. exact Hne.
  - unfold Sumw2. destruct (fSumw2 _); reflexivity.
Qed.

(** ... and their errors too, once the sums are on. *)
Lemma set_bin_other N h b b' v e :
  sumw2_on N h -> (b' < N)%nat -> b' <> b ->
  let h' := set_bin h b' v e in
  sumw2_on N h' /\ fArray h' !! b = fArray h !! b /\ fSumw2 h' !! b = fSumw2 h !! b.
Proof.
  intros Hon Hb Hne. cbv zeta.
  assert (Hc : cells N h) by (destruct Hon; split; [assumption | right; assumption]).
  destruct (set_bin_at N h b' v e Hc Hb) as (Hon' & _ & _).
  split; [exact Hon'|].
  split; [apply (set_bin_other_content N); assumption|].
  destruct Hon as [H1 H2].
  unfold set_bin, SetBinContent, fNcells; cbn.
  destruct (Nat.leb_spec (length (fArray h)) b') as [Hle|Hlt]; [lia|].
  unfold SetBinError, fNcells; cbn. rewrite length_insert.
  destruct (Nat.leb_spec (length (fArray h)) b') as [Hle'|_]; [lia|].
  unfold Sumw2; cbn.
  destruct (fSumw2 h) as [|s0 s] eqn:Es; [cbn in H2; lia|].
  cbn [fArray fSumw2 setSumw2 UpdateBinContent setEntries].
  rewrite !list_lookup_insert_ne by exact Hne. rewrite ?Es. reflexivity.
Qed.

Lemma bsa_step_at Hp Hm pol N h b :
  cells N h -> (b < N)%nat ->
  let h' := bsa_step Hp Hm pol h b in
  sumw2_on N h' /\
  fArray h' !! b =
    Some (asym_A (GetBinContent Hp b) (GetBinContent Hm b) / pol) /\
  fSumw2 h' !! b =
    Some (asym_E (GetBinContent Hp b) (GetBinContent Hm b)
                 (GetBinError Hp b) (GetBinError Hm b) / pol *
          (asym_E (GetBinContent Hp b) (GetBinContent Hm b)
                  (GetBinError Hp b) (GetBinError Hm b) / pol)).
Proof.
  intros Hc Hb. cbv zeta.
  destruct (set_bin_at N h b
              (asym_A (GetBinContent Hp b) (GetBinContent Hm b) / pol)
              (asym_E (GetBinContent Hp b) (GetBinContent Hm b)
                      (GetBinError Hp b) (GetBinError Hm b) / pol) Hc Hb)
    as (H1 & _ & H2 & H3).
  auto.
Qed.

Lemma bsa_step_other Hp Hm pol N h b b' :
  sumw2_on N h -> (b' < N)%nat -> b' <> b ->
  let h' := bsa_step Hp Hm pol h b' in
  sumw2_on N h' /\ fArray h' !! b = fArray h !! b /\ fSumw2 h' !! b = fSumw2 h !! b.
Proof. intros Hon Hb Hne. apply (set_bin_other N); assumption. Qed.

Lemma bsa_fold_other Hp Hm pol N b l : forall h,
  sumw2_on N h -> Forall (fun b' => (b' < N)%nat) l -> b ∉ l ->
  let h' := fold_left (bsa_step Hp Hm pol) l h in
  sumw2_on N h' /\ fArray h' !! b = fArray h !! b /\ fSumw2 h' !! b = fSumw2 h !! b.
Proof.
  induction l as [|b' l IH]; intros h Hon Hl Hnin; cbn.
  - split; [exact Hon|]. split; reflexivity.
  - apply Forall_cons in Hl as [Hb' Hl].
    apply not_elem_of_cons in Hnin as [Hne Hnin].
    destruct (bsa_step_other Hp Hm pol N h b b' Hon Hb' ltac:(congruence))
      as (Hon' & Ea & Es).
    destruct (IH _ Hon' Hl Hnin) as (Hon'' & Ea' & Es').
    split; [exact Hon''|]. split; congruence.
Qed.

Lemma bsa_fold_at Hp Hm pol N b l : forall h,
  cells N h -> Forall (fun b' => (b' < N)%nat) l -> NoDup l -> b ∈ l ->
  let h' := fold_left (bsa_step Hp Hm pol) l h in
  sumw2_on N h' /\
  fArray h' !! b =
    Some (asym_A (GetBinContent Hp b) (GetBinContent Hm b) / pol) /\
  fSumw2 h' !! b =
    Some (asym_E (GetBinContent Hp b) (GetBinContent Hm b)
                 (GetBinError Hp b) (GetBinError Hm b) / pol *
          (asym_E (GetBinContent Hp b) (GetBinContent Hm b)
                  (GetBinError Hp b) (GetBinError Hm b) / pol)).
Proof.
  induction l as [|b' l IH]; intros h Hc Hl Hnd Hin; cbn.
  - apply elem_of_nil in Hin; contradiction.
  - apply Forall_cons in Hl as [Hb' Hl].
    apply NoDup_cons in Hnd as [Hnin Hnd].
    destruct (bsa_step_at Hp Hm pol N h b' Hc Hb') as (Hon & Ea & Es).
    apply elem_of_cons in Hin as [->|Hin].
    + destruct (bsa_fold_other Hp Hm pol N b' l _ Hon Hl Hnin) as (Hon' & Ea' & Es').
      split; [exact Hon'|]. split; congruence.
    + apply IH; try assumption.
      destruct Hon; split; [assumption | right; assumption].
Qed.

(** Reading the clone back after the loop. *)
Lemma bsa_obj_bin Hp Hm pol b :
  wf_hist Hp -> (1 <= b <= GetNbinsX Hp)%nat ->
  let Np := GetBinContent Hp b in
  let Nm := GetBinContent Hm b in
  let Ep := GetBinError Hp b in
  let Em := GetBinError Hm b in
  GetBinContent (bsa_obj Hp Hm pol) b = asym_A Np Nm / pol /\
  GetBinError (bsa_obj Hp Hm pol) b = Rabs (asym_E Np Nm Ep Em / pol).
Proof.
  intros Hwf Hb. cbv zeta.
  set (N := (GetNbinsX Hp + 2)%nat).
  assert (Hc : cells N (Reset Hp)) by (apply Reset_cells, wf_hist_cells; exact Hwf).
  assert (Hl : Forall (fun b' => (b' < N)%nat) (seq 1 (GetNbinsX Hp))).
  { apply Forall_forall. intros x Hx. apply elem_of_seq in Hx. unfold N; lia. }
  assert (Hin : b ∈ seq 1 (GetNbinsX Hp)) by (apply elem_of_seq; lia).
  destruct (bsa_fold_at Hp Hm pol N b _ _ Hc Hl (NoDup_seq _ _) Hin) as ([Ha Hs] & Ea & Es).
  fold (bsa_obj Hp Hm pol) in *.
  unfold GetBinContent, GetBinError, RetrieveBinContent, clamp, fNcells.
  rewrite Ha. replace (Nat.min b (N - 1)) with b by (unfold N; lia).
  split.
  - unfold at_. apply nth_lookup_Some. exact Ea.
  - destruct (fSumw2 (bsa_obj Hp Hm pol)) as [|s0 s] eqn:E; [cbn in Hs; unfold N in Hs; lia|].
    unfold at_. rewrite (nth_lookup_Some _ _ _ _ Es).
    rewrite <- sqrt_Rsqr_abs. reflexivity.
Qed.

End BsaObj.
(** ** Shapes of grids *)

Section Shapes.
Import Hist BSA.

Lemma Forall2_seq_nth {B} (P : nat -> B -> Prop) (n : nat) (bs : list B) (d : B) :
  Forall2 P (seq 0 n) bs ->
  length bs = n /\ forall i, i < n -> P i (nth i bs d).
Proof.
  intros H. pose proof (Forall2_length _ _ _ H) as Hl. rewrite length_seq in Hl.
  split; [symmetry; exact Hl|]. intros i Hi.
  apply (Forall2_lookup_lr _ _ _ i i (nth i bs d) H).
  - apply lookup_seq. split; [reflexivity | exact Hi].
  - destruct (nth_lookup_or_length bs i d) as [E|E]; [exact E | lia].
Qed.

Lemma shape_plane_length (g : Grid) ix :
  length (nth ix (shape g) []) = length (nth ix g []).
Proof.
  unfold shape. change (@nil nat) with (map (@length (option nat)) []).
  rewrite map_nth, length_map. reflexivity.
Qed.

Lemma shape_row_length (g : Grid) ix iq :
  nth iq (nth ix (shape g) []) 0 = length (nth iq (nth ix g []) []).
Proof.
  unfold shape. change (@nil nat) with (map (@length (option nat)) []).
  rewrite map_nth. change 0 with (@length (option nat) []).
  rewrite map_nth. reflexivity.
Qed.

Lemma shape_length (g : Grid) : length (shape g) = length g.
Proof. unfold shape. apply length_map. Qed.

Lemma shape_eq_intro (a b : Grid) :
  length a = length b ->
  (forall ix, ix < length a ->
     length (nth ix a []) = length (nth ix b []) /\
     forall iq, iq < length (nth ix a []) ->
       length (nth iq (nth ix a []) []) = length (nth iq (nth ix b []) [])) ->
  shape a = shape b.
Proof.
  intros Hl H.
  apply (nth_ext _ _ [] []); [rewrite !shape_length; exact Hl|].
  intros ix Hix. rewrite shape_length in Hix.
  destruct (H ix Hix) as [Hq Ht].
  apply (nth_ext _ _ 0 0); [rewrite !shape_plane_length; exact Hq|].
  intros iq Hiq. rewrite shape_plane_length in Hiq.
  rewrite !shape_row_length. apply Ht; exact Hiq.
Qed.

(** An error that names a real mismatch means the shapes differ. *)
Lemma mismatch_shape (a b : Grid) d : mismatch_at a b d -> shape a <> shape b.
Proof.
  intros Hm E. destruct d as [|ix|ix iq| |]; cbn in Hm; try contradiction.
  - apply Hm. rewrite <- (shape_length a), <- (shape_length b), E. reflexivity.
  - apply Hm. rewrite <- !shape_plane_length, E. reflexivity.
  - apply Hm. rewrite <- !shape_row_length, E. reflexivity.
Qed.

Lemma cell_in_range (g : Grid) ix iq it p :
  cell g ix iq it = Some p ->
  ix < length g /\ iq < length (nth ix g []) /\ it < length (nth iq (nth ix g []) []).
Proof.
  unfold cell. intros H.
  assert (H3 : it < length (nth iq (nth ix g []) [])).
  { destruct (Nat.lt_ge_cases it (length (nth iq (nth ix g []) []))) as [L|G]; [exact L|].
    rewrite nth_overflow in H by exact G. discriminate. }
  assert (H2 : iq < length (nth ix g [])).
  { destruct (Nat.lt_ge_cases iq (length (nth ix g []))) as [L|G]; [exact L|].
    rewrite (nth_overflow (nth ix g []) _ G) in H3. cbn in H3; lia. }
  assert (H1 : ix < length g).
  { destruct (Nat.lt_ge_cases ix (length g)) as [L|G]; [exact L|].
    rewrite (nth_overflow g _ G) in H2. cbn in H2; lia. }
  auto.
Qed.

(** Reading [grid_post] cell by cell. *)
Lemma grid_post_cells w0 pol (sp sm g : Grid) w' :
  grid_post w0 pol sp sm g w' ->
  shape sp = shape sm /\ shape g = shape sp /\
  forall ix iq it,
    ix < length sp -> iq < length (nth ix sp []) ->
    it < length (nth iq (nth ix sp []) []) ->
    cell_post w0 pol (cell sp ix iq it) (cell sm ix iq it) (cell g ix iq it) w'.
Proof.
  intros [Hl HF].
  destruct (Forall2_seq_nth _ _ _ [] HF) as [Hg Hplane].
  assert (Hrow : forall ix, ix < length sp ->
            length (nth ix sp []) = length (nth ix sm []) /\
            length (nth ix g []) = length (nth ix sp []) /\
            forall iq, iq < length (nth ix sp []) ->
              row_post w0 pol (nth iq (nth ix sp []) []) (nth iq (nth ix sm []) [])
                       (nth iq (nth ix g []) []) w').
  { intros ix Hix. destruct (Hplane ix Hix) as [Hq HFq].
    destruct (Forall2_seq_nth _ _ _ [] HFq) as [Hgq Hr]. auto. }
  assert (Hcell : forall ix iq, ix < length sp -> iq < length (nth ix sp []) ->
            length (nth iq (nth ix sp []) []) = length (nth iq (nth ix sm []) []) /\
            length (nth iq (nth ix g []) []) = length (nth iq (nth ix sp []) []) /\
            forall it, it < length (nth iq (nth ix sp []) []) ->
              cell_post w0 pol (cell sp ix iq it) (cell sm ix iq it) (cell g ix iq it) w').
  { intros ix iq Hix Hiq. destruct (Hrow ix Hix) as (_ & _ & Hr).
    destruct (Hr iq Hiq) as [Ht HFt].
    destruct (Forall2_seq_nth _ _ _ None HFt) as [Hgt Hc]. auto. }
  split; [|split].
  - apply shape_eq_intro; [exact Hl|]. intros ix Hix.
    split; [apply Hrow; exact Hix|]. intros iq Hiq. apply Hcell; assumption.
  - apply shape_eq_intro; [exact Hg|]. intros ix Hix. rewrite Hg in Hix.
    destruct (Hrow ix Hix) as (_ & Hgq & _).
    split; [exact Hgq|]. intros iq Hiq. rewrite Hgq in Hiq. apply Hcell; assumption.
  - intros ix iq it Hix Hiq Hit. apply Hcell; assumption.
Qed.

End Shapes.

(** ** [ComputeBeamSpinAsymmetry]: the claims *)

Section BsaTheorems.
Import Hist BSA.
Local Open Scope R_scope.

Lemma asym_E_nonneg Np Nm Ep Em : 0 <= asym_E Np Nm Ep Em.
Proof.
  unfold asym_E. destruct (Reqb_spec (Np + Nm) 0) as [E|N]; cbn [negb]; [lra|].
  apply Rmult_le_pos; [|apply sqrt_pos].
  apply Rlt_le, Rdiv_lt_0_compat; [lra|]. nra.
Qed.

(** C3, as the code has it.  For same-shaped grids, a cell whose two input
    histograms are present, and a bin [b] of it with contents [Np], [Nm]
    and errors [Ep], [Em]: the output histogram of that cell is a new
    object whose bin [b] holds [A / pol] with [A = (Np - Nm) / (Np + Nm)],
    and the error [|sigma / pol|] with
    [sigma = 2 / (Np + Nm)^2 * sqrt ((Nm Ep)^2 + (Np Em)^2)]: the histogram
    stores squared errors, so the error read back is never negative, and
    it is [sigma / pol] for a positive polarisation.  Both are [0] when
    [Np + Nm = 0], and the content is [0] when [Np = Nm]. *)
Theorem BSA_bin_values (sp sm : Grid) (pol : R) (w : World)
    (ix iq it hp hm b : nat) :
  shape sp = shape sm ->
  cell sp ix iq it = Some hp -> cell sm ix iq it = Some hm ->
  (hp < length (heap w))%nat -> (hm < length (heap w))%nat ->
  wf_hist (obj w hp) -> (1 <= b <= GetNbinsX (obj w hp))%nat ->
  pol <> 0 ->
  let out := ComputeBeamSpinAsymmetry sp sm pol w in
  let Np := GetBinContent (obj w hp) b in
  let Nm := GetBinContent (obj w hm) b in
  let Ep := GetBinError (obj w hp) b in
  let Em := GetBinError (obj w hm) b in
  let sigma := 2 / (Np + Nm) ^ 2 * sqrt ((Nm * Ep) ^ 2 + (Np * Em) ^ 2) in
  exists ha,
    cell out.1 ix iq it = Some ha /\ (length (heap w) <= ha)%nat /\
    (Np + Nm <> 0 ->
       GetBinContent (obj out.2 ha) b = (Np - Nm) / (Np + Nm) / pol /\
       GetBinError (obj out.2 ha) b = Rabs (sigma / pol) /\
       (0 < pol -> GetBinError (obj out.2 ha) b = sigma / pol)) /\
    (Np + Nm = 0 ->
       GetBinContent (obj out.2 ha) b = 0 /\ GetBinError (obj out.2 ha) b = 0) /\
    (Np = Nm -> GetBinContent (obj out.2 ha) b = 0).
Proof.
  intros Hshape Hcp Hcm Hhp Hhm Hwf Hb Hpol out Np Nm Ep Em sigma.
  destruct (ComputeBeamSpinAsymmetry_outcome sp sm pol w) as [[_ Hg]|[_ Hf]].
  2:{ destruct Hf as (_ & mid & d & _ & _ & Hd).
      exfalso. exact (mismatch_shape _ _ _ Hd Hshape). }
  fold out in Hg.
  destruct (grid_post_cells _ _ _ _ _ _ Hg) as (_ & _ & Hcells).
  destruct (cell_in_range _ _ _ _ _ Hcp) as (Hix & Hiq & Hit).
  specialize (Hcells ix iq it Hix Hiq Hit).
  unfold cell_post in Hcells. rewrite Hcp, Hcm in Hcells.
  destruct Hcells as (ha & Hha & Hfresh & Hobj).
  specialize (Hobj Hhp Hhm).
  exists ha. split; [exact Hha|]. split; [exact Hfresh|].
  assert (Eo : obj out.2 ha = bsa_obj (obj w hp) (obj w hm) pol).
  { unfold obj at 1. apply nth_lookup_Some. exact Hobj. }
  rewrite Eo.
  destruct (bsa_obj_bin (obj w hp) (obj w hm) pol b Hwf Hb) as [HC HE].
  fold Np Nm Ep Em in HC, HE. rewrite HC, HE.
  assert (Hs : Np + Nm <> 0 -> asym_E Np Nm Ep Em = sigma).
  { intros Hden. unfold asym_E, sigma. rewrite (Reqb_false _ _ Hden). cbn [negb].
    replace ((Np + Nm) ^ 2) with ((Np + Nm) * (Np + Nm)) by ring. reflexivity. }
  split; [|split].
  - intros Hden. rewrite (Hs Hden).
    split; [unfold asym_A; rewrite (Reqb_false _ _ Hden); reflexivity|].
    split; [reflexivity|].
    intros Hpos. apply Rabs_pos_eq.
    pose proof (asym_E_nonneg Np Nm Ep Em) as Hnn. rewrite (Hs Hden) in Hnn.
    unfold Rdiv. apply Rmult_le_pos; [exact Hnn|].
    left. apply Rinv_0_lt_compat. exact Hpos.
  - intros Hden. unfold asym_A, asym_E. rewrite (Reqb_true _ _ Hden). cbn [negb].
    unfold Rdiv. rewrite !Rmult_0_l, Rabs_R0. split; reflexivity.
  - intros Heq. unfold asym_A.
    destruct (Reqb (Np + Nm) 0); cbn [negb]; unfold Rdiv;
      [|replace (Np - Nm) with 0 by lra]; rewrite !Rmult_0_l; reflexivity.
Qed.

(** C6.  When the two grids differ in a dimension, the grid returned is
    empty and the last thing written to the error stream, after warnings
    about null cells at most, is the error of a dimension in which they
    differ. *)
Theorem BSA_shape_mismatch (sp sm : Grid) (pol : R) (w : World) :
  shape sp <> shape sm ->
  let out := ComputeBeamSpinAsymmetry sp sm pol w in
  out.1 = [] /\
  exists warnings d,
    cerr out.2 = cerr w ++ warnings ++ [d] /\
    forallb is_warning warnings = true /\
    is_warning d = false /\
    mismatch_at sp sm d.
Proof.
  intros Hshape out.
  destruct (ComputeBeamSpinAsymmetry_outcome sp sm pol w) as [[_ Hg]|[He Hf]].
  - exfalso. apply Hshape.
    destruct (grid_post_cells _ _ _ _ _ _ Hg) as (E & _). exact E.
  - split; [exact He|].
    destruct Hf as (_ & mid & d & E & Hw & Hd).
    exists mid, d. repeat split; try assumption.
    destruct d; cbn in Hd; try contradiction; reflexivity.
Qed.

(** C10.  Every histogram that was on the heap before the call, those of
    [sigma_pos] and [sigma_neg] among them, is the same object afterwards,
    with the same bin contents and bin errors; every histogram of the
    output is a new object. *)
Theorem BSA_inputs_unchanged (sp sm : Grid) (pol : R) (w : World) :
  let out := ComputeBeamSpinAsymmetry sp sm pol w in
  (forall p, (p < length (heap w))%nat ->
     obj out.2 p = obj w p /\
     forall b, GetBinContent (obj out.2 p) b = GetBinContent (obj w p) b /\
               GetBinError (obj out.2 p) b = GetBinError (obj w p) b) /\
  (forall ix iq it ha, cell out.1 ix iq it = Some ha -> (length (heap w) <= ha)%nat).
Proof.
  intros out.
  assert (Hpre : heap w `prefix_of` heap out.2).
  { destruct (ComputeBeamSpinAsymmetry_outcome sp sm pol w) as [[[H _] _]|[_ [H _]]];
      exact H. }
  split.
  - intros p Hp.
    assert (E : obj out.2 p = obj w p).
    { destruct Hpre as [ext Hext]. unfold obj. rewrite Hext. apply app_nth1. exact Hp. }
    split; [exact E|]. intros b. rewrite E. split; reflexivity.
  - intros ix iq it ha Hc.
    destruct (ComputeBeamSpinAsymmetry_outcome sp sm pol w) as [[_ Hg]|[He _]].
    + fold out in Hg.
      destruct (grid_post_cells _ _ _ _ _ _ Hg) as (_ & Hsh & Hcells).
      destruct (cell_in_range _ _ _ _ _ Hc) as (Hix & Hiq & Hit).
      rewrite <- (shape_length out.1), Hsh, shape_length in Hix.
      rewrite <- (shape_plane_length out.1), Hsh, shape_plane_length in Hiq.
      rewrite <- (shape_row_length out.1), Hsh, shape_row_length in Hit.
      specialize (Hcells ix iq it Hix Hiq Hit). unfold cell_post in Hcells.
      destruct (cell sp ix iq it), (cell sm ix iq it);
        try (rewrite Hc in Hcells; discriminate).
      destruct Hcells as (ha' & E & Hge & _). rewrite Hc in E.
      injection E as ->. exact Hge.
    + fold out in He. rewrite He in Hc. unfold cell in Hc.
      destruct ix, iq, it; discriminate.
Qed.

(** C3 at a one-cell grid over [two_hists], bin 1, polarisation 1. *)
Lemma BSA_bin_values_witness :
  exists ha,
    cell (ComputeBeamSpinAsymmetry [[[Some 0%nat]]] [[[Some 1%nat]]] 1 two_hists).1
         0 0 0 = Some ha /\
    (length (heap two_hists) <= ha)%nat.
Proof.
  destruct (BSA_bin_values [[[Some 0%nat]]] [[[Some 1%nat]]] 1 two_hists 0 0 0 0 1 1)
    as (ha & H1 & H2 & _).
  - reflexivity.
  - reflexivity.
  - reflexivity.
  - cbn; lia.
  - cbn; lia.
  - split; [reflexivity | left; reflexivity].
  - cbn; lia.
  - lra.
  - exists ha. split; assumption.
Defined.

(** C3, as stated, fails for a negative polarisation: over [two_hists]
    with [pol = -1] the error read back from the bin is [sigma], not the
    negative number [sigma / pol]. *)
Lemma BSA_error_counterexample :
  let w := two_hists in
  let out := ComputeBeamSpinAsymmetry [[[Some 0%nat]]] [[[Some 1%nat]]] (-1) w in
  let Np := GetBinContent (obj w 0) 1 in
  let Nm := GetBinContent (obj w 1) 1 in
  let Ep := GetBinError (obj w 0) 1 in
  let Em := GetBinError (obj w 1) 1 in
  let sigma := 2 / (Np + Nm) ^ 2 * sqrt ((Nm * Ep) ^ 2 + (Np * Em) ^ 2) in
  Np = 3 /\ Nm = 1 /\ 0 < sigma /\
  exists ha,
    cell out.1 0 0 0 = Some ha /\
    GetBinError (obj out.2 ha) 1 = sigma /\
    GetBinError (obj out.2 ha) 1 <> sigma / (-1).
Proof.
  cbv zeta.
  assert (ENp : GetBinContent (obj two_hists 0) 1 = 3).
  { cbn. unfold at_; cbn. reflexivity. }
  assert (ENm : GetBinContent (obj two_hists 1) 1 = 1).
  { cbn. unfold at_; cbn. reflexivity. }
  assert (EEm : GetBinError (obj two_hists 1) 1 = 1).
  { unfold GetBinError. cbn [obj two_hists heap nth fSumw2 SetBinContent].
    cbn. unfold at_; cbn. rewrite Rabs_R1. apply sqrt_1. }
  rewrite ENp, ENm, EEm.
  set (Ep := GetBinError (obj two_hists 0) 1).
  set (sigma := 2 / (3 + 1) ^ 2 * sqrt ((1 * Ep) ^ 2 + (3 * 1) ^ 2)).
  assert (Hsig : 0 < sigma).
  { unfold sigma. apply Rmult_lt_0_compat; [lra|]. apply sqrt_lt_R0.
    pose proof (pow2_ge_0 (1 * Ep)). lra. }
  split; [reflexivity|]. split; [reflexivity|]. split; [exact Hsig|].
  destruct (ComputeBeamSpinAsymmetry_outcome [[[Some 0%nat]]] [[[Some 1%nat]]] (-1)
              two_hists) as [[_ Hg]|[_ Hf]].
  2:{ destruct Hf as (_ & mid & d & _ & _ & Hd).
      exfalso. exact (mismatch_shape _ _ _ Hd eq_refl). }
  destruct (grid_post_cells _ _ _ _ _ _ Hg) as (_ & _ & Hcells).
  specialize (Hcells 0%nat 0%nat 0%nat ltac:(cbn; lia) ltac:(cbn; lia) ltac:(cbn; lia)).
  unfold cell_post in Hcells. cbn [cell nth] in Hcells.
  destruct Hcells as (ha & Hha & _ & Hobj).
  specialize (Hobj ltac:(cbn; lia) ltac:(cbn; lia)).
  exists ha. split; [exact Hha|].
  assert (Eo : obj (ComputeBeamSpinAsymmetry [[[Some 0%nat]]] [[[Some 1%nat]]] (-1)
                      two_hists).2 ha =
               bsa_obj (obj two_hists 0) (obj two_hists 1) (-1)).
  { unfold obj at 1. apply nth_lookup_Some. exact Hobj. }
  rewrite Eo.
  destruct (bsa_obj_bin (obj two_hists 0) (obj two_hists 1) (-1) 1) as [_ HE].
  { split; [reflexivity | left; reflexivity]. }
  { cbn; lia. }
  rewrite HE, ENp, ENm, EEm. fold Ep.
  assert (Es : asym_E 3 1 Ep 1 = sigma).
  { unfold asym_E, sigma. rewrite Reqb_false by lra. cbn [negb].
    replace ((3 + 1) ^ 2) with ((3 + 1) * (3 + 1)) by ring. reflexivity. }
  rewrite Es.
  assert (Ea : Rabs (sigma / -1) = sigma).
  { replace (sigma / -1) with (- sigma) by (field; lra).
    rewrite Rabs_Ropp. apply Rabs_pos_eq. lra. }
  rewrite Ea. split; [reflexivity|]. lra.
Qed.

(** C6 at two grids that differ in the third dimension. *)
Lemma BSA_shape_mismatch_witness :
  (ComputeBeamSpinAsymmetry [[[None]]] [[[None; None]]] 1 two_hists).1 = [].
Proof.
  apply (BSA_shape_mismatch [[[None]]] [[[None; None]]] 1 two_hists).
  cbn. discriminate.
Defined.

(** C10 at the first histogram of [two_hists]. *)
Lemma BSA_inputs_unchanged_witness :
  obj (ComputeBeamSpinAsymmetry [[[Some 0%nat]]] [[[Some 1%nat]]] 1 two_hists).2 0
  = obj two_hists 0.
Proof.
  apply (BSA_inputs_unchanged [[[Some 0%nat]]] [[[Some 1%nat]]] 1 two_hists).
  cbn; lia.
Defined.

End BsaTheorems.
(** ** Kinematics *)

Section KinFacts.
Import Kin.
Local Open Scope R_scope.

Lemma atan_nonneg x : 0 <= x -> 0 <= atan x.
Proof.
  intros [H|<-]; [|rewrite atan_0; lra].
  left. rewrite <- atan_0. apply atan_increasing. exact H.
Qed.

Lemma atan_nonpos x : x <= 0 -> atan x <= 0.
Proof.
  intros [H| ->]; [|rewrite atan_0; lra].
  left. rewrite <- atan_0. apply atan_increasing. exact H.
Qed.

Lemma atan2_range y x : - PI <= atan2 y x <= PI.
Proof.
  pose proof PI_RGT_0 as Hpi. unfold atan2.
  destruct (Rltb_spec 0 x) as [Hx|Hx].
  - pose proof (atan_bound (y / x)). lra.
  - destruct (Rltb_spec x 0) as [Hx'|Hx'].
    + pose proof (atan_bound (y / x)) as Hb.
      destruct (Rltb_spec y 0) as [Hy|Hy].
      * assert (0 <= atan (y / x)).
        { apply atan_nonneg. unfold Rdiv.
          replace (y * / x) with ((- y) * / (- x)) by (field; lra).
          apply Rmult_le_pos; [lra|]. left. apply Rinv_0_lt_compat. lra. }
        lra.
      * assert (atan (y / x) <= 0).
        { apply atan_nonpos. unfold Rdiv.
          replace (y * / x) with (- (y * / (- x))) by (field; lra).
          assert (0 <= y * / (- x)); [|lra].
          apply Rmult_le_pos; [lra|]. left. apply Rinv_0_lt_compat. lra. }
        lra.
    + destruct (Rltb_spec 0 y); [lra|]. destruct (Rltb_spec y 0); lra.
Qed.

(** C8, as the code has it.  The angle lies in the closed range
    [[0, 360]] degrees, for every input. *)
Theorem ComputeKinematics_phi_range
    (electron_in electron_out proton_in proton_out photon : TLorentzVector) :
  0 <= phi_deg_ (ComputeKinematics electron_in electron_out proton_in proton_out photon)
    <= 360.
Proof.
  unfold ComputeKinematics; cbn [phi_deg_]. unfold pi.
  set (a := atan2 _ _).
  pose proof (atan2_range
    (v3_Dot (v3_Cross
       (v3_Unit (v3_Cross (Vect electron_in) (Vect electron_out)))
       (v3_Unit (v3_Cross (Vect (lv_minus electron_in electron_out)) (Vect proton_out))))
       (v3_Unit (Vect (lv_minus electron_in electron_out))))
    (v3_Dot
       (v3_Unit (v3_Cross (Vect electron_in) (Vect electron_out)))
       (v3_Unit (v3_Cross (Vect (lv_minus electron_in electron_out)) (Vect proton_out)))))
    as Ha.
  fold a in Ha.
  pose proof PI_RGT_0 as Hpi.
  assert (E1 : (a + PI) * 180 / PI = (a / PI + 1) * 180) by (field; lra).
  rewrite E1.
  assert (-1 <= a / PI <= 1); [|lra].
  split.
  - apply Rmult_le_reg_r with PI; [exact Hpi|]. unfold Rdiv.
    rewrite Rmult_assoc, Rinv_l by lra. lra.
  - apply Rmult_le_reg_r with PI; [exact Hpi|]. unfold Rdiv.
    rewrite Rmult_assoc, Rinv_l by lra. lra.
Qed.

Lemma sqrt_4 : sqrt 4 = 2.
Proof. replace 4 with (2 * 2) by ring. apply sqrt_square. lra. Qed.

Lemma spherical_x : SphericalToCartesian 1 (PI / 2) 0 = mkTVector3 1 0 0.
Proof.
  unfold SphericalToCartesian. rewrite sin_PI2, cos_PI2, cos_0, sin_0.
  f_equal; ring.
Qed.

Lemma spherical_minus_x : SphericalToCartesian 1 (PI / 2) PI = mkTVector3 (-1) 0 0.
Proof.
  unfold SphericalToCartesian. rewrite sin_PI2, cos_PI2, cos_PI, sin_PI.
  f_equal; ring.
Qed.

Lemma unit_y a : a * a = 4 -> v3_Unit (mkTVector3 0 a 0) = mkTVector3 0 (a / 2) 0.
Proof.
  intros Ha. unfold v3_Unit, v3_Mag2; cbn [vX vY vZ].
  replace (0 * 0 + a * a + 0 * 0) with 4 by lra.
  rewrite (Rltb_true 0 4) by lra. rewrite sqrt_4.
  f_equal; field.
Qed.

(** C8, as stated, fails: an electron scattered at 90 degrees and a proton
    recoiling opposite to it in the same plane give exactly 360 degrees. *)
Lemma ComputeKinematics_phi_counterexample :
  phi_deg_ (DISANAMath_new 2 1 (PI / 2) 0 1 (PI / 2) PI 1 0 0) = 360 /\
  ~ (0 <= phi_deg_ (DISANAMath_new 2 1 (PI / 2) 0 1 (PI / 2) PI 1 0 0) < 360).
Proof.
  assert (H : phi_deg_ (DISANAMath_new 2 1 (PI / 2) 0 1 (PI / 2) PI 1 0 0) = 360).
  { unfold DISANAMath_new, ComputeKinematics, Build4Vector; cbn [phi_deg_].
    rewrite spherical_x, spherical_minus_x.
    unfold Vect, lv_minus, v3_minus; cbn [fP fE vX vY vZ].
    unfold v3_Cross; cbn [vX vY vZ].
    replace (0 * 0 - 0 * 2) with 0 by ring.
    replace (2 * 1 - 0 * 0) with 2 by ring.
    replace (0 * 0 - 1 * 0) with 0 by ring.
    replace ((0 - 0) * 0 - 0 * (2 - 0)) with 0 by ring.
    replace ((2 - 0) * -1 - 0 * (0 - 1)) with (-2) by ring.
    replace ((0 - 1) * 0 - -1 * (0 - 0)) with 0 by ring.
    rewrite (unit_y 2) by ring. rewrite (unit_y (-2)) by ring.
    unfold v3_Dot; cbn [vX vY vZ].
    set (u := v3_Unit _).
    replace ((2 / 2 * 0 - -2 / 2 * 0) * vX u + (0 * 0 - 0 * 0) * vY u +
             (0 * (-2 / 2) - 0 * (2 / 2)) * vZ u) with 0 by field.
    replace (0 * 0 + 2 / 2 * (-2 / 2) + 0 * 0) with (-1) by field.
    unfold atan2. rewrite (Rltb_false 0 (-1)) by lra.
    rewrite (Rltb_true (-1) 0) by lra. rewrite (Rltb_false 0 0) by lra.
    replace (0 / -1) with 0 by field. rewrite atan_0.
    unfold pi. pose proof PI_RGT_0. field. lra. }
  split; [exact H|]. rewrite H. lra.
Qed.

(** C9, as the code has it.  With equal lepton energies the energy
    transfer and the inelasticity are [0], and [Q2] is the squared
    difference of the two lepton momenta; it is [0] only when the two
    momenta are the same. *)
Theorem ComputeKinematics_elastic
    (electron_in electron_out proton_in proton_out photon : TLorentzVector) :
  E electron_in = E electron_out ->
  E electron_in <> 0 ->
  let k := ComputeKinematics electron_in electron_out proton_in proton_out photon in
  nu_ k = 0 /\ y_ k = 0 /\
  Q2_ k = v3_Mag2 (v3_minus (Vect electron_in) (Vect electron_out)) /\
  (Q2_ k = 0 <-> Vect electron_in = Vect electron_out).
Proof.
  intros HE HE0 k. subst k. unfold ComputeKinematics; cbn [nu_ y_ Q2_].
  unfold E in *. unfold lv_minus at 1 2 3; cbn [fE].
  assert (Hq : - Mag2 (lv_minus electron_in electron_out) =
               v3_Mag2 (v3_minus (Vect electron_in) (Vect electron_out))).
  { unfold Mag2, lv_minus, Vect; cbn [fE fP]. rewrite HE. ring. }
  split; [lra|]. split; [rewrite HE; unfold Rdiv; lra|].
  split; [exact Hq|].
  rewrite Hq. unfold Vect, v3_Mag2, v3_minus; cbn [vX vY vZ].
  destruct (fP electron_in) as [x1 y1 z1], (fP electron_out) as [x2 y2 z2]; cbn [vX vY vZ].
  split.
  - intros H.
    pose proof (Rle_0_sqr (x1 - x2)) as Hx. pose proof (Rle_0_sqr (y1 - y2)) as Hy.
    pose proof (Rle_0_sqr (z1 - z2)) as Hz. unfold Rsqr in Hx, Hy, Hz.
    assert (Ex : x1 - x2 = 0) by (apply Rsqr_0_uniq; unfold Rsqr; lra).
    assert (Ey : y1 - y2 = 0) by (apply Rsqr_0_uniq; unfold Rsqr; lra).
    assert (Ez : z1 - z2 = 0) by (apply Rsqr_0_uniq; unfold Rsqr; lra).
    f_equal; lra.
  - intros H. injection H as -> -> ->. ring.
Qed.

Lemma ComputeKinematics_elastic_witness :
  nu_ (ComputeKinematics (mkTLorentzVector (mkTVector3 0 0 1) 1)
         (mkTLorentzVector (mkTVector3 1 0 0) 1)
         (mkTLorentzVector (mkTVector3 0 0 0) m_p)
         (mkTLorentzVector (mkTVector3 0 0 1) 1)
         (mkTLorentzVector (mkTVector3 0 0 1) 1)) = 0.
Proof.
  apply (ComputeKinematics_elastic
           (mkTLorentzVector (mkTVector3 0 0 1) 1)
           (mkTLorentzVector (mkTVector3 1 0 0) 1)); cbn; lra.
Defined.

(** C9, as stated, fails: a beam of the energy of the scattered electron,
    scattered at 90 degrees, has equal lepton energies and [Q2 > 0]. *)
Lemma ComputeKinematics_elastic_counterexample :
  E (Build4Vector 1 (PI / 2) 0 m_e) = sqrt (1 + m_e * m_e) /\
  Q2_ (DISANAMath_new (sqrt (1 + m_e * m_e)) 1 (PI / 2) 0 1 (PI / 2) PI 1 0 0) <> 0.
Proof.
  assert (HE : E (Build4Vector 1 (PI / 2) 0 m_e) = sqrt (1 + m_e * m_e)).
  { unfold E, Build4Vector; cbn [fE]. rewrite spherical_x.
    unfold v3_Mag2; cbn [vX vY vZ]. f_equal. ring. }
  split; [exact HE|].
  unfold DISANAMath_new.
  set (ei := mkTLorentzVector _ (sqrt (1 + m_e * m_e))).
  set (eo := Build4Vector 1 (PI / 2) 0 m_e).
  destruct (ComputeKinematics_elastic ei eo
              (mkTLorentzVector (mkTVector3 0 0 0) m_p)
              (Build4Vector 1 (PI / 2) PI m_p) (Build4Vector 1 0 0 0))
    as (_ & _ & HQ & _).
  - subst ei eo. rewrite HE. reflexivity.
  - subst ei. cbn. assert (0 < sqrt (1 + m_e * m_e)); [|lra].
    apply sqrt_lt_R0. unfold m_e. lra.
  - rewrite HQ. unfold eo, ei, Build4Vector, Vect; cbn [fP]. rewrite spherical_x.
    unfold v3_Mag2, v3_minus; cbn [vX vY vZ].
    pose proof (sqrt_pos (1 + m_e * m_e)). nra.
Qed.

End KinFacts.
(** ** [GetCorrectionFactor] *)

Section CorrectionFacts.
Import DVCS.
Local Open Scope R_scope.

(** C7, as the code has it.  The factor is [1] when the correction is
    switched off or no table is set.  Otherwise it is what the table holds
    at the bins found on its four axes: the stored value where there is
    one, and [0] where the table has no entry. *)
Theorem GetCorrectionFactor_cases (this : DISANAMath) (Q2 t xB phi_deg : R) :
  (applyCorrection this = false \/ correctionHist this = None ->
     GetCorrectionFactor this Q2 t xB phi_deg = 1) /\
  (forall hist,
     applyCorrection this = true -> correctionHist this = Some hist ->
     let idx := (Axis.FindBin (Sparse.axis0 hist) Q2, Axis.FindBin (Sparse.axis1 hist) t,
                 Axis.FindBin (Sparse.axis2 hist) xB,
                 Axis.FindBin (Sparse.axis3 hist) phi_deg) in
     (forall v, Sparse.fFilled hist !! idx = Some v ->
        GetCorrectionFactor this Q2 t xB phi_deg = v) /\
     (Sparse.fFilled hist !! idx = None ->
        GetCorrectionFactor this Q2 t xB phi_deg = 0)).
Proof.
  unfold GetCorrectionFactor. split.
  - intros [H|H]; rewrite H; [reflexivity|].
    destruct (applyCorrection this); reflexivity.
  - intros hist Ha Hh. rewrite Ha, Hh. unfold Sparse.GetBinContent.
    split; [intros v Hv | intros Hv]; rewrite Hv; reflexivity.
Qed.

Lemma GetCorrectionFactor_cases_witness :
  GetCorrectionFactor DISANAMath_default 1 1 1 1 = 1.
Proof.
  apply (GetCorrectionFactor_cases DISANAMath_default 1 1 1 1).
  left. reflexivity.
Defined.

(** C7, as stated, fails: with the correction switched on and a table that
    has no entry at all, the factor at any point is [0], not [1]. *)
Lemma GetCorrectionFactor_counterexample :
  let table := Sparse.mkTHnSparseD (Axis.mkTAxis 1 0 2 []) (Axis.mkTAxis 1 0 2 [])
                 (Axis.mkTAxis 1 0 2 []) (Axis.mkTAxis 1 0 2 []) ∅ in
  let this := mkDISANAMath true (Some table) in
  (forall idx, Sparse.fFilled table !! idx = None) /\
  GetCorrectionFactor this 1 1 1 1 = 0 /\
  GetCorrectionFactor this 1 1 1 1 <> 1.
Proof.
  cbv zeta.
  assert (H : GetCorrectionFactor
                (mkDISANAMath true (Some (Sparse.mkTHnSparseD (Axis.mkTAxis 1 0 2 [])
                   (Axis.mkTAxis 1 0 2 []) (Axis.mkTAxis 1 0 2 []) (Axis.mkTAxis 1 0 2 []) ∅)))
                1 1 1 1 = 0).
  { unfold GetCorrectionFactor, Sparse.GetBinContent; cbn [applyCorrection correctionHist Sparse.fFilled].
    rewrite lookup_empty. reflexivity. }
  split; [intros idx; apply lookup_empty|].
  split; [exact H|]. rewrite H. lra.
Qed.

End CorrectionFacts.
(** ** [ComputeDVCS_CrossSection]: running the three phases *)

Section DvcsRun.
Import Hist Bins BSA DVCS.

Lemma upper_bound_loop_le edges val fuel : forall first len,
  upper_bound_loop fuel edges val first len <= first + len.
Proof.
  induction fuel as [|fuel IH]; intros first len; [cbn; lia|].
  destruct len as [|len']; [cbn; lia|].
  cbn [upper_bound_loop]. cbv zeta.
  pose proof (div2_lt_S len') as Hh.
  destruct (Rltb val _).
  - etransitivity; [apply IH|]. lia.
  - etransitivity; [apply IH|]. lia.
Qed.

(** Without any assumption on the edges, [findBin] answers [-1] or a bin
    number below [size() - 1]. *)
Lemma findBin_range val edges :
  findBin val edges = (-1)%Z \/
  (0 <= findBin val edges < Z.of_nat (length edges) - 1)%Z.
Proof.
  unfold findBin.
  pose proof (upper_bound_loop_le edges val (length edges) 0 (length edges)) as H.
  fold (upper_bound edges val) in H. cbn in H.
  destruct (Nat.eqb_spec (upper_bound edges val) 0); cbn [orb]; [left; reflexivity|].
  destruct (Nat.eqb_spec (upper_bound edges val) (length edges)); [left; reflexivity|].
  right. lia.
Qed.

Lemma for_app {A} (l1 l2 : list A) (body : A -> M unit) w :
  for_ (l1 ++ l2) body w = for_ l2 body (for_ l1 body w).2.
Proof.
  revert w. induction l1 as [|a l1 IH]; intros w; [reflexivity|].
  cbn [for_ app]. rewrite !run_bind. apply IH.
Qed.

Lemma for_concat {A} (ll : list (list A)) (body : A -> M unit) w :
  for_ ll (fun l => for_ l body) w = for_ (concat ll) body w.
Proof.
  revert w. induction ll as [|l ll IH]; intros w; [reflexivity|].
  cbn [for_ concat]. rewrite run_bind, for_app. apply IH.
Qed.

Lemma for_ext {A} (l : list A) (body body' : A -> M unit) :
  (forall a w, body a w = body' a w) -> forall w, for_ l body w = for_ l body' w.
Proof.
  intros H. induction l as [|a l IH]; intros w; [reflexivity|].
  cbn [for_]. rewrite !run_bind, H. apply IH.
Qed.

(** A loop whose every turn puts [m] new histograms on the heap and answers
    with a value that depends on where they went. *)
Lemma for_collect_alloc {A B} (l : list A) (c : M B) (f : nat -> B) (m : nat) :
  (forall w, c w = (f (length (heap w)),
                    mkWorld (heap w ++ replicate m new_hist) (cerr w))) ->
  forall w,
    for_collect l (fun _ => c) w =
    (map (fun i => f (length (heap w) + i * m)) (seq 0 (length l)),
     mkWorld (heap w ++ replicate (length l * m) new_hist) (cerr w)).
Proof.
  intros Hc. induction l as [|a l IH]; intros w.
  - cbn. rewrite app_nil_r. destruct w; reflexivity.
  - cbn [for_collect]. rewrite run_bind, Hc. cbn [fst snd].
    rewrite run_bind, IH. cbn [fst snd heap cerr]. rewrite run_ret.
    f_equal.
    + cbn [length seq map]. f_equal; [f_equal; lia|].
      rewrite <- fmap_S_seq. rewrite <- list_fmap_compose.
      apply list_fmap_ext. intros _ i _. cbn.
      rewrite length_app, length_replicate. f_equal. lia.
    + f_equal. rewrite <- app_assoc. f_equal.
      cbn [length]. rewrite <- replicate_add. f_equal.
Qed.

Lemma new_grid_run n_xb n_q2 n_t w :
  new_grid n_xb n_q2 n_t w =
  (grid_of (length (heap w)) n_xb n_q2 n_t,
   mkWorld (heap w ++ replicate (n_xb * (n_q2 * n_t)) new_hist) (cerr w)).
Proof.
  unfold new_grid.
  rewrite (for_collect_alloc (seq 0 n_xb) _
             (fun b => map (fun iq => map (fun it => Some (b + iq * n_t + it))
                                          (seq 0 n_t)) (seq 0 n_q2))
             (n_q2 * n_t)).
  - rewrite length_seq. f_equal. unfold grid_of.
    apply map_ext. intros ix. apply map_ext. intros iq. apply map_ext. intros it.
    f_equal. lia.
  - intros w1.
    rewrite (for_collect_alloc (seq 0 n_q2) _
               (fun b => map (fun it => Some (b + it)) (seq 0 n_t)) n_t).
    + rewrite length_seq. f_equal.
    + intros w2.
      rewrite (for_collect_alloc (seq 0 n_t) _ (fun b => Some b) 1).
      * rewrite length_seq. f_equal; [|f_equal; f_equal; f_equal; lia].
        apply map_ext. intros it. f_equal. lia.
      * intros w3. reflexivity.
Qed.

Lemma nth_map_seq {B} (f : nat -> B) (n i : nat) (d : B) :
  i < n -> nth i (map f (seq 0 n)) d = f i.
Proof.
  intros H. rewrite nth_lookup, list_lookup_fmap.
  rewrite (proj2 (lookup_seq 0 n i i) (conj eq_refl H)). reflexivity.
Qed.

Lemma cell_grid_of base n_xb n_q2 n_t ix iq it :
  ix < n_xb -> iq < n_q2 -> it < n_t ->
  cell (grid_of base n_xb n_q2 n_t) ix iq it =
  Some (base + (ix * (n_q2 * n_t) + iq * n_t + it)).
Proof.
  intros Hx Hq Ht. unfold cell, grid_of.
  rewrite (nth_map_seq _ n_xb ix) by exact Hx.
  rewrite (nth_map_seq _ n_q2 iq) by exact Hq.
  rewrite (nth_map_seq _ n_t it) by exact Ht. reflexivity.
Qed.

Lemma shape_grid_of base n_xb n_q2 n_t :
  shape (grid_of base n_xb n_q2 n_t) = replicate n_xb (replicate n_q2 n_t).
Proof.
  unfold shape, grid_of. rewrite map_map.
  assert (H : forall {B} (f : nat -> B) (c : B) n,
            (forall i, f i = c) -> map f (seq 0 n) = replicate n c).
  { intros B f c n Hf. generalize 0. induction n as [|n IH]; intros s; [reflexivity|].
    cbn. rewrite Hf, IH. reflexivity. }
  apply H. intros ix. rewrite map_map. apply H. intros iq.
  rewrite length_map, length_seq. reflexivity.
Qed.

(** The flat index is one-to-one on the cells of the grid. *)
Lemma flat_index_inj n_q2 n_t ix iq it ix' iq' it' :
  iq < n_q2 -> it < n_t -> iq' < n_q2 -> it' < n_t ->
  ix * (n_q2 * n_t) + iq * n_t + it = ix' * (n_q2 * n_t) + iq' * n_t + it' ->
  ix = ix' /\ iq = iq' /\ it = it'.
Proof.
  intros Hq Ht Hq' Ht' E.
  destruct (Nat.div_mod_unique n_t (ix * n_q2 + iq) (ix' * n_q2 + iq') it it' Ht Ht')
    as [E1 E2]; [lia|].
  destruct (Nat.div_mod_unique n_q2 ix ix' iq iq' Hq Hq') as [E3 E4]; [lia|].
  auto.
Qed.

Lemma flat_index_lt n_xb n_q2 n_t ix iq it :
  ix < n_xb -> iq < n_q2 -> it < n_t ->
  ix * (n_q2 * n_t) + iq * n_t + it < n_xb * (n_q2 * n_t).
Proof.
  intros Hx Hq Ht.
  assert (iq * n_t + it < n_q2 * n_t) by nia.
  nia.
Qed.

Lemma concat_map_seq {B} (f : nat -> B) (m n : nat) :
  concat (map (fun i => map (fun j => f (i * m + j)) (seq 0 m)) (seq 0 n)) =
  map f (seq 0 (n * m)).
Proof.
  induction n as [|n IH]; [reflexivity|].
  rewrite seq_S, map_app, concat_app, IH. cbn [map concat plus].
  rewrite app_nil_r.
  replace (S n * m) with (n * m + m) by lia.
  rewrite seq_app, map_app. cbn [plus]. f_equal.
  replace (seq (n * m) m) with (map (Nat.add (n * m)) (seq 0 m)).
  - rewrite map_map. reflexivity.
  - rewrite <- (Nat.add_0_r (n * m)) at 2. apply fmap_add_seq.
Qed.

Lemma concat_grid_of base n_xb n_q2 n_t :
  concat (concat (grid_of base n_xb n_q2 n_t)) =
  map (fun k => Some (base + k)) (seq 0 (n_xb * (n_q2 * n_t))).
Proof.
  rewrite Nat.mul_assoc.
  rewrite <- (concat_map_seq (fun k => Some (base + k)) n_t (n_xb * n_q2)).
  rewrite <- (concat_map_seq
                (fun k => map (fun j => Some (base + (k * n_t + j))) (seq 0 n_t))
                n_q2 n_xb).
  unfold grid_of. do 2 f_equal.
  apply map_ext. intros ix. apply map_ext. intros iq. apply map_ext. intros it.
  f_equal. ring.
Qed.

(** The event loop. *)
Lemma filler_run this bins H0 objs r w :
  heap w = H0 ++ objs ->
  let '(n_xb, n_q2, n_t) := n_cells bins in
  filler this bins (grid_of (length H0) n_xb n_q2 n_t) r w =
  (tt, mkWorld (H0 ++ route_step this bins objs r) (cerr w)).
Proof.
  intros Hw. unfold n_cells, filler, route_step, route, row_cell, n_cells.
  destruct (findBin_range (row_Q2 r) (GetQ2Bins bins)) as [Eq|Rq];
  destruct (findBin_range (row_t r) (GetTBins bins)) as [Et|Rt];
  destruct (findBin_range (row_xB r) (GetXBBins bins)) as [Ex|Rx];
  try (rewrite ?Eq, ?Et, ?Ex; cbn [Z.leb Z.compare andb];
       rewrite ?andb_false_r; cbn; rewrite <- Hw; destruct w; reflexivity).
  set (iq := findBin (row_Q2 r) (GetQ2Bins bins)) in *.
  set (it := findBin (row_t r) (GetTBins bins)) in *.
  set (ix := findBin (row_xB r) (GetXBBins bins)) in *.
  rewrite (proj2 (Z.leb_le 0 iq)), (proj2 (Z.leb_le 0 it)), (proj2 (Z.leb_le 0 ix)) by lia.
  cbn [andb].
  rewrite cell_grid_of by lia.
  unfold call. rewrite Hw, alter_app_r. reflexivity.
Qed.

Lemma fill_loop_run this bins H0 df : forall objs w,
  heap w = H0 ++ objs ->
  let '(n_xb, n_q2, n_t) := n_cells bins in
  for_ df (filler this bins (grid_of (length H0) n_xb n_q2 n_t)) w =
  (tt, mkWorld (H0 ++ fold_left (route_step this bins) df objs) (cerr w)).
Proof.
  unfold n_cells.
  induction df as [|r df IH]; intros objs w Hw.
  - cbn. rewrite <- Hw. destruct w; reflexivity.
  - cbn [for_ fold_left]. rewrite run_bind.
    pose proof (filler_run this bins H0 objs r w Hw) as Hr. unfold n_cells in Hr.
    rewrite Hr. cbn [fst snd].
    rewrite (IH (route_step this bins objs r)) by reflexivity. reflexivity.
Qed.

Lemma route_step_length this bins objs r :
  length (route_step this bins objs r) = length objs.
Proof. unfold route_step. destruct (route bins r); [apply length_alter | reflexivity]. Qed.

Lemma route_fold_length this bins df : forall objs,
  length (fold_left (route_step this bins) df objs) = length objs.
Proof.
  induction df as [|r df IH]; intros objs; [reflexivity|].
  cbn. rewrite IH. apply route_step_length.
Qed.

(** Seen from one object, the loop is the fold of [fill_step]. *)
Lemma route_fold_nth this bins k d df : forall objs,
  k < length objs ->
  nth k (fold_left (route_step this bins) df objs) d =
  fold_left (fill_step this bins k) df (nth k objs d).
Proof.
  induction df as [|r df IH]; intros objs Hk; [reflexivity|].
  cbn [fold_left]. rewrite IH by (rewrite route_step_length; exact Hk).
  f_equal. unfold route_step, fill_step.
  destruct (route bins r) as [k'|].
  - destruct (bool_decide_reflect (Some k' = Some k)) as [E|N].
    + injection E as ->. rewrite nth_alter_eq by exact Hk. reflexivity.
    + apply nth_alter_ne. congruence.
  - rewrite bool_decide_eq_false_2 by discriminate. reflexivity.
Qed.

(** The normalisation loop. *)
Lemma normalize_bin_run luminosity p b w :
  normalize_bin luminosity bin_width p b w =
  (tt, mkWorld (alter (fun h => norm_step luminosity h b) p (heap w)) (cerr w)).
Proof.
  unfold normalize_bin, mbind, M_bind, bind, query, call; cbn.
  rewrite list_alter_alter_eq. do 2 f_equal.
  apply list_alter_ext; [|reflexivity].
  intros x Hx. cbn. unfold norm_step.
  rewrite (nth_lookup_Some _ _ TH1D_null _ Hx). reflexivity.
Qed.

Lemma normalize_bins_run luminosity p l : forall w,
  for_ l (normalize_bin luminosity bin_width p) w =
  (tt, mkWorld (alter (fun h => fold_left (norm_step luminosity) l h) p (heap w))
               (cerr w)).
Proof.
  induction l as [|b l IH]; intros w.
  - cbn. rewrite list_alter_id by reflexivity. destruct w; reflexivity.
  - cbn [for_]. rewrite run_bind, normalize_bin_run. cbn [fst snd].
    rewrite IH. cbn [heap cerr]. rewrite list_alter_alter_eq. reflexivity.
Qed.

Lemma normalize_cell_run luminosity p w :
  (n ← query p GetNbinsX; for_ (seq 1 n) (normalize_bin luminosity bin_width p)) w =
  (tt, mkWorld (alter (normalize_obj luminosity) p (heap w)) (cerr w)).
Proof.
  rewrite run_bind. unfold query at 1 2. cbn [fst snd].
  rewrite normalize_bins_run. do 2 f_equal.
  apply list_alter_ext; [|reflexivity].
  intros x Hx. unfold normalize_obj.
  rewrite (nth_lookup_Some _ _ TH1D_null _ Hx). reflexivity.
Qed.

(** A loop that updates the objects [base ..] one after the other. *)
Lemma for_alter_all (f : TH1D -> TH1D) (body : option nat -> M unit) :
  (forall p w, body (Some p) w = (tt, mkWorld (alter f p (heap w)) (cerr w))) ->
  forall objs H0 T c,
    for_ (map (fun k => Some (length H0 + k)) (seq 0 (length objs))) body
         (mkWorld (H0 ++ objs ++ T) c) =
    (tt, mkWorld (H0 ++ map f objs ++ T) c).
Proof.
  intros Hb. induction objs as [|o objs IH]; intros H0 T c; [reflexivity|].
  cbn [length seq map for_]. rewrite run_bind, Hb. cbn [fst snd heap cerr].
  rewrite alter_app_r. cbn [alter list_alter app].
  rewrite <- fmap_S_seq.
  change (map (fun k => Some (length H0 + k)) (S <$> seq 0 (length objs)))
    with (map (fun k => Some (length H0 + k)) (map S (seq 0 (length objs)))).
  rewrite map_map.
  specialize (IH (H0 ++ [f o]) T c).
  rewrite <- !app_assoc in IH. cbn [app] in IH.
  rewrite <- IH. f_equal. apply map_ext. intros k. f_equal.
  rewrite length_app. cbn. lia.
Qed.

Lemma normalize_run luminosity H0 objs n_xb n_q2 n_t w :
  heap w = H0 ++ objs -> length objs = n_xb * (n_q2 * n_t) ->
  normalize luminosity (grid_of (length H0) n_xb n_q2 n_t) w =
  (tt, mkWorld (H0 ++ map (normalize_obj luminosity) objs) (cerr w)).
Proof.
  intros Hw Hlen. unfold normalize. cbv zeta.
  rewrite for_concat, for_concat, concat_grid_of, <- Hlen.
  destruct w as [hp ce]. cbn [heap cerr] in *. subst hp.
  rewrite <- (app_nil_r objs) at 2.
  rewrite (for_alter_all (normalize_obj luminosity)).
  - rewrite app_nil_r. reflexivity.
  - intros p w. apply normalize_cell_run.
Qed.

Lemma accumulate_run this df bins w :
  let '(n_xb, n_q2, n_t) := n_cells bins in
  accumulate this df bins w =
  (grid_of (length (heap w)) n_xb n_q2 n_t,
   mkWorld (heap w ++ fold_left (route_step this bins) df
                        (replicate (n_xb * (n_q2 * n_t)) new_hist))
           (cerr w)).
Proof.
  unfold n_cells, accumulate. cbv zeta.
  rewrite run_bind, new_grid_run. cbn [fst snd].
  rewrite run_bind.
  pose proof (fill_loop_run this bins (heap w) df
                (replicate ((length (GetXBBins bins) - 1) *
                            ((length (GetQ2Bins bins) - 1) * (length (GetTBins bins) - 1)))
                           new_hist)
                (mkWorld (heap w ++ replicate _ new_hist) (cerr w)) eq_refl) as H.
  unfold n_cells in H. rewrite H. reflexivity.
Qed.

Lemma ComputeDVCS_CrossSection_run this df bins luminosity w :
  let '(n_xb, n_q2, n_t) := n_cells bins in
  ComputeDVCS_CrossSection this df bins luminosity w =
  (grid_of (length (heap w)) n_xb n_q2 n_t,
   mkWorld (heap w ++ map (normalize_obj luminosity)
                        (fold_left (route_step this bins) df
                           (replicate (n_xb * (n_q2 * n_t)) new_hist)))
           (cerr w)).
Proof.
  pose proof (accumulate_run this df bins w) as Ha.
  unfold n_cells in *. unfold ComputeDVCS_CrossSection.
  rewrite run_bind, Ha. cbn [fst snd].
  rewrite run_bind.
  erewrite (normalize_run luminosity (heap w)
              (fold_left (route_step this bins) df (replicate _ new_hist)));
    [reflexivity | reflexivity |].
  rewrite route_fold_length, length_replicate. reflexivity.
Qed.

(** The histogram of one cell, after the event loop and after the whole
    function. *)
Lemma dvcs_cell this df bins luminosity w ix iq it :
  let '(n_xb, n_q2, n_t) := n_cells bins in
  ix < n_xb -> iq < n_q2 -> it < n_t ->
  let k := ix * (n_q2 * n_t) + iq * n_t + it in
  let p := length (heap w) + k in
  let acc := accumulate this df bins w in
  let out := ComputeDVCS_CrossSection this df bins luminosity w in
  cell acc.1 ix iq it = Some p /\ obj acc.2 p = acc_obj this df bins k /\
  cell out.1 ix iq it = Some p /\ obj out.2 p = dvcs_obj this df bins luminosity k.
Proof.
  pose proof (accumulate_run this df bins w) as Ha.
  pose proof (ComputeDVCS_CrossSection_run this df bins luminosity w) as Hr.
  unfold n_cells in *. intros Hx Hq Ht. cbv zeta.
  rewrite Ha, Hr. cbn [fst snd].
  rewrite !cell_grid_of by assumption.
  pose proof (flat_index_lt _ _ _ _ _ _ Hx Hq Ht) as Hk.
  set (k := ix * _ + iq * _ + it) in *.
  assert (Hacc : nth k (fold_left (route_step this bins) df
                    (replicate ((length (GetXBBins bins) - 1) *
                                ((length (GetQ2Bins bins) - 1) * (length (GetTBins bins) - 1)))
                               new_hist)) TH1D_null = acc_obj this df bins k).
  { rewrite route_fold_nth by (rewrite length_replicate; exact Hk).
    unfold acc_obj. f_equal.
    apply nth_lookup_Some. apply lookup_replicate_2. exact Hk. }
  repeat split.
  - unfold obj. cbn [heap]. rewrite app_nth2_plus. exact Hacc.
  - unfold obj. cbn [heap]. rewrite app_nth2_plus.
    unfold dvcs_obj. rewrite <- Hacc.
    rewrite !nth_lookup, list_lookup_fmap.
    destruct (lookup_lt_is_Some_2
                (fold_left (route_step this bins) df
                   (replicate ((length (GetXBBins bins) - 1) *
                               ((length (GetQ2Bins bins) - 1) * (length (GetTBins bins) - 1)))
                              new_hist)) k) as [x Hx'].
    { rewrite route_fold_length, length_replicate. exact Hk. }
    rewrite Hx'. reflexivity.
Qed.

End DvcsRun.
(** ** Filling and normalising one histogram *)

Section FillFacts.
Import Hist Bins BSA DVCS.
Local Open Scope R_scope.

Lemma at_insert (l : list R) (i b : nat) (v : R) :
  (b < length l)%nat ->
  at_ (<[i := v]> l) b = if Nat.eqb i b then v else at_ l b.
Proof.
  intros Hb. unfold at_. rewrite !nth_lookup.
  destruct (Nat.eqb_spec i b) as [->|Hne].
  - rewrite list_lookup_insert_eq by exact Hb. reflexivity.
  - rewrite list_lookup_insert_ne by exact Hne. reflexivity.
Qed.

Lemma at_map_Rabs (l : list R) (b : nat) : at_ (map Rabs l) b = Rabs (at_ l b).
Proof.
  unfold at_. rewrite <- Rabs_R0 at 1. apply map_nth.
Qed.

(** One [Fill]: the weight goes to the content of the bin of [x] and its
    square to the variance of that bin. *)
Lemma Fill_facts N h x w :
  (0 < N)%nat -> filled_only N h ->
  let h' := Fill h x w in
  let bin := Axis.FindBin (fXaxis h) x in
  filled_only N h' /\ fXaxis h' = fXaxis h /\
  forall b, (b < N)%nat ->
    RetrieveBinContent h' b = RetrieveBinContent h b + (if Nat.eqb bin b then w else 0) /\
    GetBinErrorSqUnchecked h' b =
      GetBinErrorSqUnchecked h b + (if Nat.eqb bin b then w * w else 0).
Proof.
  intros HN ([Hlen Hs] & Hent & Hpos). cbv zeta.
  unfold Fill. cbn [fXaxis setEntries].
  set (bin := Axis.FindBin (fXaxis h) x).
  unfold GetSumw2N; cbn [fSumw2 setEntries].
  destruct (fSumw2 h) as [|s0 s] eqn:Es.
  - (* sums off so far *)
    specialize (Hpos eq_refl). cbn [length Nat.eqb andb].
    destruct (Reqb_spec w 1) as [->|Hw]; cbn [negb].
    + (* weight 1: they stay off *)
      cbn [fSumw2 setEntries]. rewrite Es.
      unfold UpdateBinContent, RetrieveBinContent, GetBinErrorSqUnchecked, filled_only, cells;
        cbn [fArray fSumw2 fXaxis fEntries setEntries]. rewrite Es, length_insert.
      split; [|split; [reflexivity|]].
      * split; [split; [exact Hlen | left; reflexivity]|]. split; [lra|].
        intros _ b. destruct (Nat.lt_ge_cases b (length (fArray h))) as [Hb|Hb].
        -- rewrite at_insert by exact Hb. specialize (Hpos b) as Hb0.
           specialize (Hpos bin). destruct (Nat.eqb bin b); lra.
        -- unfold at_. rewrite nth_overflow; [lra | rewrite length_insert; exact Hb].
      * intros b Hb. rewrite at_insert by lia.
        unfold RetrieveBinContent; cbn [fArray]. rewrite at_insert by lia.
        unfold RetrieveBinContent; destruct (Nat.eqb_spec bin b) as [->|_]; split; lra.
    + (* another weight: they start from the contents *)
      unfold Sumw2; cbn [fSumw2 fArray fEntries setEntries setSumw2]. rewrite Es.
      rewrite (Rltb_true 0 (fEntries h + 1)) by lra.
      cbn [fSumw2 setSumw2].
      destruct (map Rabs (fArray h)) as [|m0 m] eqn:Em.
      { apply (f_equal (@length R)) in Em. rewrite length_map in Em. cbn in Em. lia. }
      rewrite <- Em.
      unfold UpdateBinContent, RetrieveBinContent, GetBinErrorSqUnchecked, filled_only, cells;
        cbn [fArray fSumw2 fXaxis fEntries setEntries setSumw2]. rewrite Es.
      rewrite !length_insert, length_map.
      assert (Hne : forall l : list R, length l = N -> l <> []).
      { intros l Hl ->. cbn in Hl. lia. }
      split; [|split; [reflexivity|]].
      * split; [split; [exact Hlen | right; exact Hlen]|]. split; [lra|].
        intros E. exfalso. apply (Hne (<[bin := at_ (map Rabs (fArray h)) bin + w * w]>
                                         (map Rabs (fArray h)))); [|exact E].
        rewrite length_insert, length_map. exact Hlen.
      * intros b Hb. rewrite at_insert by lia.
        destruct (<[bin := at_ (map Rabs (fArray h)) bin + w * w]> (map Rabs (fArray h)))
          as [|i0 i] eqn:Ei.
        { exfalso. apply (Hne (<[bin := at_ (map Rabs (fArray h)) bin + w * w]>
                                 (map Rabs (fArray h)))); [|exact Ei].
          rewrite length_insert, length_map. exact Hlen. }
        rewrite <- Ei. rewrite at_insert by (rewrite length_map; lia).
        rewrite !at_map_Rabs.
        rewrite !Rabs_pos_eq by apply Hpos.
        unfold RetrieveBinContent; destruct (Nat.eqb_spec bin b) as [->|_]; split; lra.
  - (* sums already on *)
    destruct Hs as [Hs|Hs]; [discriminate|].
    cbn [length Nat.eqb andb]. cbn [fSumw2 setEntries]. rewrite Es.
    unfold UpdateBinContent, RetrieveBinContent, GetBinErrorSqUnchecked, filled_only, cells;
      cbn [fArray fSumw2 fXaxis fEntries setEntries setSumw2].
    rewrite !length_insert.
    assert (Hne : <[bin := at_ (s0 :: s) bin + w * w]> (s0 :: s) <> []).
    { intros E. apply (f_equal (@length R)) in E. rewrite length_insert in E. discriminate. }
    split; [|split; [reflexivity|]].
    * split; [split; [exact Hlen | right; exact Hs]|]. split; [lra|].
      intros E. contradiction.
    * intros b Hb. rewrite at_insert by lia.
      destruct (<[bin := at_ (s0 :: s) bin + w * w]> (s0 :: s)) as [|i0 i] eqn:Ei;
        [contradiction|].
      rewrite <- Ei. rewrite at_insert by lia. rewrite Es.
      unfold RetrieveBinContent; destruct (Nat.eqb_spec bin b) as [->|_]; split; lra.
Qed.

End FillFacts.

Section AccFacts.
Import Hist Bins BSA DVCS.
Local Open Scope R_scope.

Lemma new_hist_filled_only : filled_only 20 new_hist.
Proof.
  unfold filled_only, cells, new_hist, TH1D_new, n_phi_bins; cbn.
  split; [split; [reflexivity | left; reflexivity]|]. split; [lra|].
  intros _ b. unfold at_.
  do 20 (destruct b as [|b]; [cbn; lra|]). cbn. destruct b; lra.
Qed.

Lemma row_cell_range bins r ix iq it :
  row_cell bins r = Some (ix, iq, it) ->
  let '(n_xb, n_q2, n_t) := n_cells bins in
  (ix < n_xb)%nat /\ (iq < n_q2)%nat /\ (it < n_t)%nat.
Proof.
  unfold row_cell, n_cells.
  destruct (findBin_range (row_Q2 r) (GetQ2Bins bins)) as [Eq|Rq];
  destruct (findBin_range (row_t r) (GetTBins bins)) as [Et|Rt];
  destruct (findBin_range (row_xB r) (GetXBBins bins)) as [Ex|Rx];
  try (rewrite ?Eq, ?Et, ?Ex; cbn [Z.leb Z.compare andb];
       rewrite ?andb_false_r; discriminate).
  destruct (_ && _ && _)%bool; [|discriminate].
  intros H. injection H as <- <- <-. lia.
Qed.

(** A row goes to the object of a cell exactly when it falls into the
    cell. *)
Lemma route_row_cell bins r ix iq it :
  let '(n_xb, n_q2, n_t) := n_cells bins in
  (ix < n_xb)%nat -> (iq < n_q2)%nat -> (it < n_t)%nat ->
  bool_decide (route bins r = Some (ix * (n_q2 * n_t) + iq * n_t + it)%nat) =
  bool_decide (row_cell bins r = Some (ix, iq, it)).
Proof.
  pose proof (row_cell_range bins r) as Hr.
  unfold route. destruct (n_cells bins) as [[n_xb n_q2] n_t].
  intros Hx Hq Ht.
  destruct (row_cell bins r) as [[[ix' iq'] it']|].
  - destruct (Hr ix' iq' it' eq_refl) as (Hx' & Hq' & Ht').
    apply bool_decide_ext. split.
    + intros H. injection H as H.
      destruct (flat_index_inj n_q2 n_t ix' iq' it' ix iq it) as (-> & -> & ->);
        try assumption. reflexivity.
    + intros H. injection H as -> -> ->. reflexivity.
  - apply bool_decide_ext. split; discriminate.
Qed.

(** The event loop on the histogram of a cell: contents are the sums of
    the weights, variances the sums of their squares. *)
Lemma acc_fold_facts this bins ix iq it k :
  (forall r, bool_decide (route bins r = Some k) =
             bool_decide (row_cell bins r = Some (ix, iq, it))) ->
  forall df h,
    filled_only 20 h -> fXaxis h = fXaxis new_hist ->
    let h' := fold_left (fill_step this bins k) df h in
    filled_only 20 h' /\ fXaxis h' = fXaxis new_hist /\
    forall b, (b < 20)%nat ->
      RetrieveBinContent h' b = RetrieveBinContent h b + sum_w this bins ix iq it b df /\
      GetBinErrorSqUnchecked h' b =
        GetBinErrorSqUnchecked h b + sum_w2 this bins ix iq it b df.
Proof.
  intros Hroute. induction df as [|r df IH]; intros h Hf Hax; cbv zeta.
  - cbn. split; [exact Hf|]. split; [exact Hax|]. intros b _. split; lra.
  - cbn [fold_left sum_w sum_w2].
    assert (Hstep : let h1 := fill_step this bins k h r in
              filled_only 20 h1 /\ fXaxis h1 = fXaxis new_hist /\
              forall b, (b < 20)%nat ->
                RetrieveBinContent h1 b = RetrieveBinContent h b +
                  (if lands bins ix iq it b r then fill_weight this r else 0) /\
                GetBinErrorSqUnchecked h1 b = GetBinErrorSqUnchecked h b +
                  (if lands bins ix iq it b r
                   then fill_weight this r * fill_weight this r else 0)).
    { cbv zeta. unfold fill_step, lands. rewrite Hroute.
      destruct (bool_decide (row_cell bins r = Some (ix, iq, it))); cbn [andb].
      - destruct (Fill_facts 20 h (row_phi r) (fill_weight this r) ltac:(lia) Hf)
          as (Hf' & Hax' & Hb).
        split; [exact Hf'|]. split; [congruence|].
        intros b Hlt. rewrite <- Hax. apply Hb. exact Hlt.
      - split; [exact Hf|]. split; [exact Hax|]. intros b _. split; lra. }
    destruct Hstep as (Hf1 & Hax1 & Hb1).
    destruct (IH _ Hf1 Hax1) as (Hf2 & Hax2 & Hb2).
    split; [exact Hf2|]. split; [exact Hax2|].
    intros b Hlt. destruct (Hb1 b Hlt) as [E1 E2]. destruct (Hb2 b Hlt) as [E3 E4].
    rewrite E3, E4, E1, E2. split; lra.
Qed.

Lemma filled_only_error N h b :
  filled_only N h -> (b < N)%nat ->
  GetBinContent h b = RetrieveBinContent h b /\
  GetBinError h b = sqrt (GetBinErrorSqUnchecked h b).
Proof.
  intros ([Hlen Hs] & _ & Hpos) Hb.
  unfold GetBinContent, GetBinError, GetBinErrorSqUnchecked, clamp, fNcells.
  rewrite Hlen. replace (Nat.min b (N - 1)) with b by lia.
  split; [reflexivity|].
  destruct (fSumw2 h); [|reflexivity].
  unfold RetrieveBinContent. rewrite Rabs_pos_eq by (apply Hpos; reflexivity).
  reflexivity.
Qed.

(** The histogram of a cell after the event loop. *)
Lemma acc_obj_bin this df bins ix iq it b :
  let '(n_xb, n_q2, n_t) := n_cells bins in
  (ix < n_xb)%nat -> (iq < n_q2)%nat -> (it < n_t)%nat -> (b < 20)%nat ->
  let h := acc_obj this df bins (ix * (n_q2 * n_t) + iq * n_t + it) in
  filled_only 20 h /\ GetNbinsX h = 18%nat /\
  GetBinContent h b = sum_w this bins ix iq it b df /\
  GetBinError h b = sqrt (sum_w2 this bins ix iq it b df).
Proof.
  pose proof (route_row_cell bins) as Hroute.
  destruct (n_cells bins) as [[n_xb n_q2] n_t]. intros Hx Hq Ht Hb. cbv zeta.
  destruct (acc_fold_facts this bins ix iq it _
              (fun r => Hroute r ix iq it Hx Hq Ht) df new_hist
              new_hist_filled_only eq_refl) as (Hf & Hax & Hbins).
  fold (acc_obj this df bins (ix * (n_q2 * n_t) + iq * n_t + it)) in *.
  destruct (Hbins b Hb) as [E1 E2].
  destruct (filled_only_error 20 _ b Hf Hb) as [E3 E4].
  split; [exact Hf|]. split; [unfold GetNbinsX; rewrite Hax; reflexivity|].
  rewrite E3, E4, E1, E2.
  assert (Z0 : RetrieveBinContent new_hist b = 0).
  { unfold RetrieveBinContent, new_hist, TH1D_new, n_phi_bins, at_; cbn.
    do 20 (destruct b as [|b]; [reflexivity|]). lia. }
  assert (Z1 : GetBinErrorSqUnchecked new_hist b = 0) by exact Z0.
  rewrite Z0, Z1, !Rplus_0_l. split; reflexivity.
Qed.

End AccFacts.

Section NormFacts.
Import Hist Bins BSA DVCS.
Local Open Scope R_scope.

Lemma sumw2_on_cells N h : sumw2_on N h -> cells N h.
Proof. intros [H1 H2]. split; [exact H1 | right; exact H2]. Qed.

Lemma norm_fold_other_content L N b l : forall h,
  cells N h -> Forall (fun b' => (b' < N)%nat) l -> b ∉ l ->
  let h' := fold_left (norm_step L) l h in
  cells N h' /\ fXaxis h' = fXaxis h /\ fArray h' !! b = fArray h !! b.
Proof.
  induction l as [|b' l IH]; intros h Hc Hl Hnin; cbn.
  - split; [exact Hc|]. split; reflexivity.
  - apply Forall_cons in Hl as [Hb' Hl].
    apply not_elem_of_cons in Hnin as [Hne Hnin].
    change (norm_step L h b') with
      (set_bin h b' (GetBinContent h b' / (L * bin_width))
                    (sqrt (GetBinContent h b') / (L * bin_width))).
    destruct (set_bin_at N h b' (GetBinContent h b' / (L * bin_width))
                (sqrt (GetBinContent h b') / (L * bin_width)) Hc Hb') as (Hon & Hax & _ & _).
    pose proof (set_bin_other_content N h b b' (GetBinContent h b' / (L * bin_width))
                  (sqrt (GetBinContent h b') / (L * bin_width)) Hc Hb' ltac:(congruence)) as Ea.
    destruct (IH _ (sumw2_on_cells _ _ Hon) Hl Hnin) as (Hc' & Hax' & Ea').
    split; [exact Hc'|]. split; congruence.
Qed.

Lemma norm_fold_other_on L N b l : forall h,
  sumw2_on N h -> Forall (fun b' => (b' < N)%nat) l -> b ∉ l ->
  let h' := fold_left (norm_step L) l h in
  sumw2_on N h' /\ fArray h' !! b = fArray h !! b /\ fSumw2 h' !! b = fSumw2 h !! b.
Proof.
  induction l as [|b' l IH]; intros h Hon Hl Hnin; cbn.
  - split; [exact Hon|]. split; reflexivity.
  - apply Forall_cons in Hl as [Hb' Hl].
    apply not_elem_of_cons in Hnin as [Hne Hnin].
    change (norm_step L h b') with
      (set_bin h b' (GetBinContent h b' / (L * bin_width))
                    (sqrt (GetBinContent h b') / (L * bin_width))).
    destruct (set_bin_other N h b b' (GetBinContent h b' / (L * bin_width))
                (sqrt (GetBinContent h b') / (L * bin_width)) Hon Hb' ltac:(congruence))
      as (Hon' & Ea & Es).
    destruct (IH _ Hon' Hl Hnin) as (Hon'' & Ea' & Es').
    split; [exact Hon''|]. split; congruence.
Qed.

Lemma norm_fold_at L N b l : forall h,
  cells N h -> Forall (fun b' => (b' < N)%nat) l -> NoDup l -> b ∈ l ->
  let h' := fold_left (norm_step L) l h in
  let raw := at_ (fArray h) b in
  sumw2_on N h' /\
  fArray h' !! b = Some (raw / (L * bin_width)) /\
  fSumw2 h' !! b = Some (sqrt raw / (L * bin_width) * (sqrt raw / (L * bin_width))).
Proof.
  induction l as [|b' l IH]; intros h Hc Hl Hnd Hin; cbv zeta.
  - apply elem_of_nil in Hin; contradiction.
  - apply Forall_cons in Hl as [Hb' Hl].
    apply NoDup_cons in Hnd as [Hnin Hnd].
    cbn [fold_left]. change (norm_step L h b') with
      (set_bin h b' (GetBinContent h b' / (L * bin_width))
                    (sqrt (GetBinContent h b') / (L * bin_width))).
    destruct (set_bin_at N h b' (GetBinContent h b' / (L * bin_width))
                (sqrt (GetBinContent h b') / (L * bin_width)) Hc Hb') as (Hon & _ & Ea & Es).
    apply elem_of_cons in Hin as [->|Hin].
    + destruct (norm_fold_other_on L N b' l _ Hon Hl Hnin) as (Hon' & Ea' & Es').
      assert (Eg : GetBinContent h b' = at_ (fArray h) b').
      { unfold GetBinContent, RetrieveBinContent, clamp, fNcells.
        destruct Hc as [-> _]. replace (Nat.min b' (N - 1)) with b' by lia. reflexivity. }
      rewrite Eg in *. split; [exact Hon'|]. split; congruence.
    + assert (Hne : b' <> b) by (intros ->; contradiction).
      pose proof (set_bin_other_content N h b b' (GetBinContent h b' / (L * bin_width))
                    (sqrt (GetBinContent h b') / (L * bin_width)) Hc Hb' Hne) as Eo.
      destruct (IH _ (sumw2_on_cells _ _ Hon) Hl Hnd Hin) as (Hon' & Ea' & Es').
      unfold at_ in *. rewrite !nth_lookup in *. rewrite Eo in Ea', Es'.
      split; [exact Hon'|]. split; assumption.
Qed.

(** Reading a histogram back after [normalize]. *)
Lemma normalize_obj_bin L h b :
  cells (GetNbinsX h + 2) h -> (1 <= b <= GetNbinsX h)%nat ->
  GetBinContent (normalize_obj L h) b = GetBinContent h b / (L * bin_width) /\
  GetBinError (normalize_obj L h) b = Rabs (sqrt (GetBinContent h b) / (L * bin_width)).
Proof.
  intros Hc Hb. set (N := (GetNbinsX h + 2)%nat) in *.
  assert (Hl : Forall (fun b' => (b' < N)%nat) (seq 1 (GetNbinsX h))).
  { apply Forall_forall. intros x Hx. apply elem_of_seq in Hx. unfold N; lia. }
  assert (Hin : b ∈ seq 1 (GetNbinsX h)) by (apply elem_of_seq; lia).
  destruct (norm_fold_at L N b _ h Hc Hl (NoDup_seq _ _) Hin) as ([Ha Hs] & Ea & Es).
  fold (normalize_obj L h) in *.
  assert (Eg : GetBinContent h b = at_ (fArray h) b).
  { unfold GetBinContent, RetrieveBinContent, clamp, fNcells.
    destruct Hc as [-> _]. replace (Nat.min b (N - 1)) with b by (unfold N; lia).
    reflexivity. }
  rewrite Eg.
  unfold GetBinContent, GetBinError, RetrieveBinContent, clamp, fNcells.
  rewrite Ha. replace (Nat.min b (N - 1)) with b by (unfold N; lia).
  split.
  - unfold at_ at 1. apply nth_lookup_Some. exact Ea.
  - destruct (fSumw2 (normalize_obj L h)) as [|s0 s] eqn:E; [cbn in Hs; unfold N in Hs; lia|].
    unfold at_ at 1. rewrite (nth_lookup_Some _ _ _ _ Es).
    rewrite <- sqrt_Rsqr_abs. reflexivity.
Qed.

Lemma bin_width_20 : bin_width = 20.
Proof.
  unfold bin_width, phi_max, phi_min, n_phi_bins.
  replace (INR 18) with 18 by (cbn; lra). lra.
Qed.

End NormFacts.
(** ** [ComputeDVCS_CrossSection]: the claims *)

Section DvcsTheorems.
Import Hist Bins BSA DVCS.
Local Open Scope R_scope.

(** Everything that is known of one angular bin of one cell. *)
Lemma dvcs_bin_facts this df bins L w ix iq it b :
  (ix < length (GetXBBins bins) - 1)%nat ->
  (iq < length (GetQ2Bins bins) - 1)%nat ->
  (it < length (GetTBins bins) - 1)%nat ->
  (1 <= b <= 18)%nat ->
  let acc := accumulate this df bins w in
  let out := ComputeDVCS_CrossSection this df bins L w in
  let S1 := sum_w this bins ix iq it b df in
  let S2 := sum_w2 this bins ix iq it b df in
  let p := (length (heap w) +
            (ix * ((length (GetQ2Bins bins) - 1) * (length (GetTBins bins) - 1)) +
             iq * (length (GetTBins bins) - 1) + it))%nat in
  cell acc.1 ix iq it = Some p /\ cell out.1 ix iq it = Some p /\
  GetBinContent (obj acc.2 p) b = S1 /\
  GetBinError (obj acc.2 p) b = sqrt S2 /\
  GetBinContent (obj out.2 p) b = S1 / (L * 20) /\
  GetBinError (obj out.2 p) b = Rabs (sqrt S1 / (L * 20)).
Proof.
  intros Hx Hq Ht Hb. cbv zeta.
  pose proof (dvcs_cell this df bins L w ix iq it) as Hc.
  pose proof (acc_obj_bin this df bins ix iq it b) as Ha.
  unfold n_cells in Hc, Ha.
  destruct (Hc Hx Hq Ht) as (C1 & O1 & C2 & O2).
  destruct (Ha Hx Hq Ht ltac:(lia)) as (Hf & Hn & A1 & A2).
  rewrite C1, C2, O1, O2, A1, A2. unfold dvcs_obj.
  destruct (normalize_obj_bin L _ b ltac:(rewrite Hn; apply Hf) ltac:(rewrite Hn; lia))
    as [N1 N2].
  rewrite N1, N2, A1, bin_width_20. repeat split; reflexivity.
Qed.

(** C2, as the code has it.  For an angular bin of a cell of the grid:
    after the event loop its content is the sum of the weights of the rows
    that fell into it and its error the square root of the sum of their
    squares; after normalisation with exposure [L] its content is that sum
    of weights over [L * 20], and its error is the square root of the sum
    of the weights (not of their squares) over [L * 20]. *)
Theorem DVCS_bin_values this df bins L w ix iq it b :
  (ix < length (GetXBBins bins) - 1)%nat ->
  (iq < length (GetQ2Bins bins) - 1)%nat ->
  (it < length (GetTBins bins) - 1)%nat ->
  (1 <= b <= 18)%nat ->
  0 < L ->
  0 <= sum_w this bins ix iq it b df ->
  let acc := accumulate this df bins w in
  let out := ComputeDVCS_CrossSection this df bins L w in
  let S1 := sum_w this bins ix iq it b df in
  let S2 := sum_w2 this bins ix iq it b df in
  exists p,
    cell acc.1 ix iq it = Some p /\ cell out.1 ix iq it = Some p /\
    GetBinContent (obj acc.2 p) b = S1 /\
    GetBinError (obj acc.2 p) b = sqrt S2 /\
    GetBinContent (obj out.2 p) b = S1 / (L * 20) /\
    GetBinError (obj out.2 p) b = sqrt S1 / (L * 20).
Proof.
  intros Hx Hq Ht Hb HL HS. cbv zeta.
  destruct (dvcs_bin_facts this df bins L w ix iq it b Hx Hq Ht Hb)
    as (C1 & C2 & A1 & A2 & N1 & N2).
  eexists. split; [exact C1|]. split; [exact C2|].
  split; [exact A1|]. split; [exact A2|]. split; [exact N1|].
  rewrite N2. apply Rabs_pos_eq.
  apply Rmult_le_pos; [apply sqrt_pos|].
  left. apply Rinv_0_lt_compat. lra.
Qed.

(** *** The scenario of one event *)

Lemma trunc_eval (x : R) (n : nat) : INR n <= x < INR n + 1 -> Axis.trunc x = n.
Proof.
  intros H. unfold Axis.trunc.
  rewrite <- (Int_part_spec x (Z.of_nat n)); [apply Nat2Z.id|].
  rewrite <- INR_IZR_INZ. lra.
Qed.

Lemma FindBin_190 : Axis.FindBin (fXaxis new_hist) 190 = 10%nat.
Proof.
  unfold Axis.FindBin, new_hist, TH1D_new, n_phi_bins, phi_min, phi_max; cbn.
  Rdecide. cbn.
  rewrite (trunc_eval _ 9); [reflexivity|]. cbn. lra.
Qed.

Lemma row_cell_one_event : row_cell BinManager_default one_event = Some (0, 0, 0)%nat.
Proof.
  unfold row_cell, BinManager_default, one_event, GetQ2Bins, GetTBins, GetXBBins; cbn.
  unfold findBin, upper_bound; cbn. unfold at_; cbn. Rdecide. reflexivity.
Qed.

Lemma flat_table_factor v :
  GetCorrectionFactor (mkDISANAMath true (Some (flat_table v))) 1.5 0.2 0.15 190 = v.
Proof.
  unfold GetCorrectionFactor, flat_table, Sparse.GetBinContent, Axis.FindBin; cbn.
  Rdecide. cbn.
  rewrite !(trunc_eval _ 0) by (cbn; lra). cbn.
  rewrite lookup_singleton_eq. reflexivity.
Qed.

(** The sums of the scenario, with weight [v] for the event. *)
Lemma sum_w_one_event this ix iq it b :
  sum_w this BinManager_default ix iq it b [one_event] =
  if (bool_decide ((ix, iq, it) = (0, 0, 0)%nat) && Nat.eqb b 10)%bool
  then fill_weight this one_event else 0.
Proof.
  cbn [sum_w]. unfold lands. rewrite row_cell_one_event.
  change (row_phi one_event) with 190. rewrite FindBin_190.
  rewrite (Nat.eqb_sym 10 b).
  assert (E : bool_decide (Some (0, 0, 0)%nat = Some (ix, iq, it)) =
              bool_decide ((ix, iq, it) = (0, 0, 0)%nat)).
  { apply bool_decide_ext. split; [intros H; injection H as <- <- <-; reflexivity|].
    intros H. injection H as -> -> ->. reflexivity. }
  rewrite E. destruct (_ && _)%bool; lra.
Qed.

Lemma sum_w2_one_event this ix iq it b :
  sum_w2 this BinManager_default ix iq it b [one_event] =
  if (bool_decide ((ix, iq, it) = (0, 0, 0)%nat) && Nat.eqb b 10)%bool
  then fill_weight this one_event * fill_weight this one_event else 0.
Proof.
  cbn [sum_w2]. unfold lands. rewrite row_cell_one_event.
  change (row_phi one_event) with 190. rewrite FindBin_190.
  rewrite (Nat.eqb_sym 10 b).
  assert (E : bool_decide (Some (0, 0, 0)%nat = Some (ix, iq, it)) =
              bool_decide ((ix, iq, it) = (0, 0, 0)%nat)).
  { apply bool_decide_ext. split; [intros H; injection H as <- <- <-; reflexivity|].
    intros H. injection H as -> -> ->. reflexivity. }
  rewrite E. destruct (_ && _)%bool; lra.
Qed.

(** C2 at the scenario of one unweighted event. *)
Lemma DVCS_bin_values_witness :
  exists p,
    cell (ComputeDVCS_CrossSection DISANAMath_default [one_event] BinManager_default 1
            (mkWorld [] [])).1 0 0 0 = Some p.
Proof.
  destruct (DVCS_bin_values DISANAMath_default [one_event] BinManager_default 1
              (mkWorld [] []) 0 0 0 10) as (p & _ & H & _).
  - cbn; lia.
  - cbn; lia.
  - cbn; lia.
  - lia.
  - lra.
  - rewrite sum_w_one_event, bool_decide_eq_true_2 by reflexivity.
    cbn [Nat.eqb andb]. unfold fill_weight; cbn. lra.
  - exists p. exact H.
Defined.

(** C2, as stated, fails: one event with correction factor [4] leaves
    content [4] and variance [16] in its bin, and the error after
    normalisation with exposure [1] is [sqrt 4 / 20 = 0.1], not
    [sqrt 16 / 20 = 0.2]. *)
Lemma DVCS_error_counterexample :
  let this := mkDISANAMath true (Some (flat_table 4)) in
  let w := mkWorld [] [] in
  let acc := accumulate this [one_event] BinManager_default w in
  let out := ComputeDVCS_CrossSection this [one_event] BinManager_default 1 w in
  cell out.1 0 0 0 = Some 0%nat /\
  GetBinContent (obj acc.2 0) 10 = 4 /\
  GetBinError (obj acc.2 0) 10 = sqrt 16 /\
  GetBinError (obj out.2 0) 10 = 0.1 /\
  GetBinError (obj out.2 0) 10 <> sqrt 16 / (1 * 20).
Proof.
  cbv zeta.
  destruct (dvcs_bin_facts (mkDISANAMath true (Some (flat_table 4))) [one_event]
              BinManager_default 1 (mkWorld [] []) 0 0 0 10)
    as (_ & C2 & A1 & A2 & _ & N2); try (cbn; lia).
  cbn [heap length GetQ2Bins GetTBins q2_bins_ t_bins_ BinManager_default Nat.sub
       Nat.mul Nat.add] in *.
  rewrite sum_w_one_event in A1, N2. rewrite sum_w2_one_event in A2.
  assert (Ew : fill_weight (mkDISANAMath true (Some (flat_table 4))) one_event = 4).
  { unfold fill_weight; cbn [applyCorrection correctionHist].
    change (row_Q2 one_event) with 1.5. change (row_t one_event) with 0.2.
    change (row_xB one_event) with 0.15. change (row_phi one_event) with 190.
    rewrite flat_table_factor. lra. }
  rewrite Ew in *. cbn [bool_decide Nat.eqb andb] in *.
  rewrite bool_decide_eq_true_2 in A1, A2, N2 by reflexivity. cbn [andb] in *.
  replace (4 * 4) with 16 in A2 by lra.
  assert (E16 : sqrt 16 = 4).
  { replace 16 with (4 * 4) by lra. apply sqrt_square. lra. }
  assert (E01 : GetBinError (obj (ComputeDVCS_CrossSection
                   (mkDISANAMath true (Some (flat_table 4))) [one_event]
                   BinManager_default 1 (mkWorld [] [])).2 0) 10 = 0.1).
  { rewrite N2, sqrt_4. rewrite Rabs_pos_eq; lra. }
  split; [exact C2|]. split; [exact A1|]. split; [exact A2|].
  split; [exact E01|]. rewrite E01, E16. lra.
Qed.

(** C5.  With the default edges and 18 angular bins of 20 degrees, one
    event [(1.5, 0.2, 0.15)] at 190 degrees with weight 1, normalised with
    exposure 1, gives a 3 x 3 x 3 grid with content [1 / (1 * 20) = 0.05]
    in the angular bin of index 9 of cell [(0, 0, 0)] and [0] in every other
    angular bin of every cell. *)
Theorem DVCS_one_event (w : World) :
  let out := ComputeDVCS_CrossSection DISANAMath_default [one_event]
               BinManager_default 1 w in
  shape out.1 = [[3; 3; 3]; [3; 3; 3]; [3; 3; 3]]%nat /\
  1 / (1 * 20) = 0.05 /\
  (exists p, cell out.1 0 0 0 = Some p /\ angular_bin (obj out.2 p) 9 = 0.05) /\
  (forall ix iq it i,
     (ix < 3)%nat -> (iq < 3)%nat -> (it < 3)%nat -> (i < 18)%nat ->
     (ix, iq, it, i) <> (0, 0, 0, 9)%nat ->
     exists p, cell out.1 ix iq it = Some p /\ angular_bin (obj out.2 p) i = 0).
Proof.
  cbv zeta.
  assert (Hw : fill_weight DISANAMath_default one_event = 1).
  { unfold fill_weight; cbn. lra. }
  split; [|split; [lra|split]].
  - pose proof (ComputeDVCS_CrossSection_run DISANAMath_default [one_event]
                  BinManager_default 1 w) as Hr.
    unfold n_cells in Hr. rewrite Hr. cbn [fst]. rewrite shape_grid_of. reflexivity.
  - destruct (dvcs_bin_facts DISANAMath_default [one_event] BinManager_default 1 w
                0 0 0 10) as (_ & C2 & _ & _ & N1 & _); try (cbn; lia).
    eexists. split; [exact C2|]. unfold angular_bin. rewrite N1.
    rewrite sum_w_one_event, bool_decide_eq_true_2 by reflexivity.
    cbn [Nat.eqb andb]. rewrite Hw. lra.
  - intros ix iq it i Hx Hq Ht Hi Hne.
    destruct (dvcs_bin_facts DISANAMath_default [one_event] BinManager_default 1 w
                ix iq it (S i)) as (_ & C2 & _ & _ & N1 & _); try (cbn; lia).
    eexists. split; [exact C2|]. unfold angular_bin. rewrite N1.
    rewrite sum_w_one_event.
    destruct (bool_decide_reflect ((ix, iq, it) = (0, 0, 0)%nat)) as [E|N]; cbn [andb].
    + destruct (Nat.eqb_spec (S i) 10) as [E'|N'].
      * exfalso. apply Hne. injection E as -> -> ->. f_equal. lia.
      * lra.
    + lra.
Qed.

Lemma DVCS_one_event_witness :
  exists p,
    cell (ComputeDVCS_CrossSection DISANAMath_default [one_event]
            BinManager_default 1 (mkWorld [] [])).1 1 2 0 = Some p /\
    angular_bin (obj (ComputeDVCS_CrossSection DISANAMath_default [one_event]
                        BinManager_default 1 (mkWorld [] [])).2 p) 9 = 0.
Proof.
  apply (DVCS_one_event (mkWorld [] [])); try lia. discriminate.
Defined.

End DvcsTheorems.
(** ** [Divide] and [Multiply] on the heap *)

Section HistPtrFacts.
Import Hist HistPtr.
Local Open Scope R_scope.

Lemma obj_alter_same F this w c :
  (this < length (heap w))%nat ->
  obj (mkWorld (alter F this (heap w)) c) this = F (obj w this).
Proof. intros H. unfold obj; cbn [heap]. apply nth_alter_eq. exact H. Qed.

Lemma obj_alter_other F this p w c :
  p <> this -> obj (mkWorld (alter F this (heap w)) c) p = obj w p.
Proof. intros H. unfold obj; cbn [heap]. apply nth_alter_ne. congruence. Qed.

Lemma at_insert_other (l : list R) (i j : nat) (v : R) :
  i <> j -> at_ (<[i := v]> l) j = at_ l j.
Proof.
  intros H. unfold at_. rewrite !nth_lookup, list_lookup_insert_ne by exact H.
  reflexivity.
Qed.

Lemma divide_cell_effect this h1 h2 c1 c2 i w :
  (i < length (fArray (obj w this)))%nat ->
  writes_cells this [i]
    (fun _ => div_value c1 c2 (RetrieveBinContent (obj w h1) i)
                              (RetrieveBinContent (obj w h2) i))
    (divide_cell this h1 h2 c1 c2 i) w.
Proof.
  intros Hi. unfold writes_cells, divide_cell.
  set (v := div_value _ _ _ _).
  assert (Hfacts : forall G : TH1D -> TH1D,
            (forall x, fXaxis (G x) = fXaxis x /\ fArray (G x) = <[i := v]> (fArray x)) ->
            fXaxis (G (obj w this)) = fXaxis (obj w this) /\
            length (fArray (G (obj w this))) = length (fArray (obj w this)) /\
            forall j, at_ (fArray (G (obj w this))) j =
                      if bool_decide (j ∈ [i]) then v else at_ (fArray (obj w this)) j).
  { intros G HG. destruct (HG (obj w this)) as [E1 E2].
    split; [exact E1|]. split; [rewrite E2; apply length_insert|].
    intros j. rewrite E2.
    destruct (bool_decide_reflect (j ∈ [i])) as [Hj|Hj].
    - apply list_elem_of_singleton in Hj as ->. rewrite at_insert by exact Hi.
      rewrite Nat.eqb_refl. reflexivity.
    - apply at_insert_other. intros ->. apply Hj. apply list_elem_of_singleton.
      reflexivity. }
  unfold mbind, M_bind, bind, query, call, mret, M_ret, ret; cbn [fst snd heap cerr].
  fold (obj w h1) (obj w h2).
  fold (div_value c1 c2 (RetrieveBinContent (obj w h1) i) (RetrieveBinContent (obj w h2) i)).
  fold v.
  destruct (Nat.eqb _ 0); cbn [fst snd heap cerr].
  - eexists. split; [reflexivity|]. apply Hfacts. intros x; split; reflexivity.
  - destruct (Reqb (RetrieveBinContent (obj w h2) i) 0); cbn [fst snd heap cerr];
      rewrite list_alter_alter_eq;
      (eexists; split; [reflexivity|]; apply Hfacts; intros x; split; reflexivity).
Qed.

Lemma multiply_cell_effect this h1 h2 c1 c2 i w :
  (i < length (fArray (obj w this)))%nat ->
  writes_cells this [i]
    (fun _ => c1 * RetrieveBinContent (obj w h1) i * c2 * RetrieveBinContent (obj w h2) i)
    (multiply_cell this h1 h2 c1 c2 i) w.
Proof.
  intros Hi. unfold writes_cells, multiply_cell. cbv zeta.
  set (v := c1 * _ * c2 * _).
  assert (Hfacts : forall G : TH1D -> TH1D,
            (forall x, fXaxis (G x) = fXaxis x /\ fArray (G x) = <[i := v]> (fArray x)) ->
            fXaxis (G (obj w this)) = fXaxis (obj w this) /\
            length (fArray (G (obj w this))) = length (fArray (obj w this)) /\
            forall j, at_ (fArray (G (obj w this))) j =
                      if bool_decide (j ∈ [i]) then v else at_ (fArray (obj w this)) j).
  { intros G HG. destruct (HG (obj w this)) as [E1 E2].
    split; [exact E1|]. split; [rewrite E2; apply length_insert|].
    intros j. rewrite E2.
    destruct (bool_decide_reflect (j ∈ [i])) as [Hj|Hj].
    - apply list_elem_of_singleton in Hj as ->. rewrite at_insert by exact Hi.
      rewrite Nat.eqb_refl. reflexivity.
    - apply at_insert_other. intros ->. apply Hj. apply list_elem_of_singleton.
      reflexivity. }
  unfold mbind, M_bind, bind, query, call, mret, M_ret, ret; cbn [fst snd heap cerr].
  fold (obj w h1) (obj w h2). fold v.
  destruct (Nat.eqb _ 0); cbn [fst snd heap cerr].
  - eexists. split; [reflexivity|]. apply Hfacts. intros x; split; reflexivity.
  - rewrite list_alter_alter_eq.
    eexists. split; [reflexivity|]. apply Hfacts. intros x; split; reflexivity.
Qed.

(** A loop over distinct cells, each turn writing its own cell with a value
    computed from what that cell held. *)
Lemma for_writes_cells this (g : nat -> R -> R) (body : nat -> M unit) w0 :
  (this < length (heap w0))%nat ->
  (forall F i,
     let w' := mkWorld (alter F this (heap w0)) (cerr w0) in
     (i < length (fArray (obj w' this)))%nat ->
     writes_cells this [i] (fun _ => g i (at_ (fArray (obj w' this)) i)) (body i) w') ->
  forall l, NoDup l -> forall F0,
    let w := mkWorld (alter F0 this (heap w0)) (cerr w0) in
    Forall (fun i => (i < length (fArray (obj w this)))%nat) l ->
    writes_cells this l (fun i => g i (at_ (fArray (obj w this)) i)) (for_ l body) w.
Proof.
  intros Hlive Hbody l. induction l as [|i l IH]; intros Hnd F0 w Hl.
  - exists (fun x => x). cbn [for_]. rewrite run_ret. cbn [snd].
    rewrite list_alter_id by reflexivity.
    split; [destruct w; reflexivity|]. split; [reflexivity|]. split; [reflexivity|].
    intros j. rewrite bool_decide_eq_false_2; [reflexivity | apply not_elem_of_nil].
  - apply NoDup_cons in Hnd as [Hnin Hnd]. apply Forall_cons in Hl as [Hi Hl].
    assert (Hlive' : (this < length (heap w))%nat).
    { unfold w; cbn [heap]. rewrite length_alter. exact Hlive. }
    destruct (Hbody F0 i Hi) as (Fi & Ei & Hax & Hlen & Hc). fold w in Ei, Hax, Hlen, Hc.
    unfold writes_cells. cbn [for_]. rewrite run_bind.
    assert (Ew1 : (body i w).2 = mkWorld (alter (Fi ∘ F0) this (heap w0)) (cerr w0)).
    { rewrite Ei. unfold w; cbn [heap cerr]. rewrite list_alter_alter_eq. reflexivity. }
    assert (Eo : obj (body i w).2 this = Fi (obj w this)).
    { rewrite Ei. apply obj_alter_same. exact Hlive'. }
    specialize (IH Hnd (Fi ∘ F0)). cbv zeta in IH. unfold writes_cells in IH.
    rewrite <- Ew1 in IH.
    destruct IH as (F' & E' & Hax' & Hlen' & Hc').
    { rewrite Eo, Hlen. exact Hl. }
    exists (F' ∘ Fi). rewrite E', Ei. cbn [heap cerr].
    rewrite list_alter_alter_eq. split; [reflexivity|].
    rewrite Eo in Hax', Hlen', Hc'. unfold compose.
    split; [congruence|]. split; [congruence|].
    intros j. rewrite Hc'.
    destruct (bool_decide_reflect (j ∈ l)) as [Hj|Hj].
    + rewrite bool_decide_eq_true_2 by (right; exact Hj).
      rewrite Hc. rewrite bool_decide_eq_false_2; [reflexivity|].
      intros Hji. apply list_elem_of_singleton in Hji as ->. contradiction.
    + rewrite Hc.
      destruct (bool_decide_reflect (j ∈ [i])) as [Hji|Hji].
      * apply list_elem_of_singleton in Hji as ->.
        rewrite bool_decide_eq_true_2 by left. reflexivity.
      * rewrite bool_decide_eq_false_2; [reflexivity|].
        intros Hin. apply elem_of_cons in Hin as [->|Hin]; [|contradiction].
        apply Hji. apply list_elem_of_singleton. reflexivity.
Qed.

Lemma inherit_sumw2_run this h1 h2 w :
  exists Fa,
    inherit_sumw2 this h1 h2 w = (tt, mkWorld (alter Fa this (heap w)) (cerr w)) /\
    forall x, fArray (Fa x) = fArray x /\ fXaxis (Fa x) = fXaxis x.
Proof.
  unfold inherit_sumw2, mbind, M_bind, bind, query, call, mret, M_ret, ret;
    cbn [fst snd heap cerr].
  destruct (_ && _)%bool.
  - exists Sumw2. split; [reflexivity|].
    intros x. unfold Sumw2. destruct (fSumw2 x); split; reflexivity.
  - exists (fun x => x). rewrite list_alter_id by reflexivity.
    split; [destruct w; reflexivity|]. intros x; split; reflexivity.
Qed.

(** What [Divide] and [Multiply] have in common after their checks. *)
Lemma binop_effect this h1 h2 (cellop : nat -> M unit) (value : R -> R -> R) w :
  (this < length (heap w))%nat -> h2 <> this ->
  (forall w' i,
     (i < length (fArray (obj w' this)))%nat ->
     writes_cells this [i]
       (fun _ => value (RetrieveBinContent (obj w' h1) i) (RetrieveBinContent (obj w' h2) i))
       (cellop i) w') ->
  let c : M bool :=
    inherit_sumw2 this h1 h2;;
    ncells ← query this fNcells;
    for_ (seq 0 ncells) cellop;;
    call this ResetStats;;
    mret true in
  (c w).1 = true /\
  writes_cells this (seq 0 (length (fArray (obj w this))))
    (fun i => value (RetrieveBinContent (obj w h1) i) (RetrieveBinContent (obj w h2) i))
    c w.
Proof.
  intros Hlive Hh2 Hcell c. subst c.
  destruct (inherit_sumw2_run this h1 h2 w) as (Fa & Ea & Hfa).
  set (g := fun (i : nat) (x : R) =>
              value (if bool_decide (h1 = this) then x else RetrieveBinContent (obj w h1) i)
                    (RetrieveBinContent (obj w h2) i)).
  assert (Hbody : forall F i,
            let w' := mkWorld (alter F this (heap w)) (cerr w) in
            (i < length (fArray (obj w' this)))%nat ->
            writes_cells this [i] (fun _ => g i (at_ (fArray (obj w' this)) i)) (cellop i) w').
  { intros F i w' Hi. pose proof (Hcell w' i Hi) as H.
    assert (E : value (RetrieveBinContent (obj w' h1) i) (RetrieveBinContent (obj w' h2) i) =
                g i (at_ (fArray (obj w' this)) i)).
    { unfold g. unfold w' at 2. rewrite (obj_alter_other F this h2 w) by exact Hh2.
      destruct (bool_decide_reflect (h1 = this)) as [->|Hne]; [reflexivity|].
      unfold w'. rewrite (obj_alter_other F this h1 w) by exact Hne. reflexivity. }
    rewrite E in H. exact H. }
  set (wa := mkWorld (alter Fa this (heap w)) (cerr w)).
  assert (Eoa : obj wa this = Fa (obj w this)) by (apply obj_alter_same; exact Hlive).
  assert (Hla : length (fArray (obj wa this)) = length (fArray (obj w this))).
  { rewrite Eoa. f_equal. apply Hfa. }
  pose proof (for_writes_cells this g cellop w Hlive Hbody
                (seq 0 (length (fArray (obj w this)))) (NoDup_seq _ _) Fa) as Hloop.
  cbv zeta in Hloop. fold wa in Hloop.
  destruct Hloop as (Fl & El & Hax & Hlen & Hc).
  { apply Forall_forall. intros i Hi. apply elem_of_seq in Hi. rewrite Hla. lia. }
  assert (Erun : (inherit_sumw2 this h1 h2;;
                  ncells ← query this fNcells;
                  for_ (seq 0 ncells) cellop;;
                  call this ResetStats;;
                  mret true) w =
                 (true, mkWorld (alter (ResetStats ∘ Fl ∘ Fa) this (heap w)) (cerr w))).
  { rewrite run_bind, Ea. cbn [fst snd]. fold wa.
    rewrite run_bind. unfold query at 1 2. cbn [fst snd]. fold (obj wa this).
    unfold fNcells. rewrite Hla.
    rewrite run_bind, El. rewrite run_bind. unfold call; cbn [fst snd heap cerr].
    rewrite run_ret. unfold wa; cbn [heap cerr].
    rewrite !list_alter_alter_eq. reflexivity. }
  unfold writes_cells. rewrite Erun. cbn [fst snd].
  split; [reflexivity|].
  exists (ResetStats ∘ Fl ∘ Fa). split; [reflexivity|].
  rewrite Eoa in Hax, Hlen, Hc. unfold compose.
  assert (HR : forall x, fArray (ResetStats x) = fArray x /\ fXaxis (ResetStats x) = fXaxis x).
  { intros x. unfold ResetStats. destruct (_ && _ && _)%bool; split; reflexivity. }
  destruct (HR (Fl (Fa (obj w this)))) as [R1 R2]. destruct (Hfa (obj w this)) as [A1 A2].
  rewrite R1, R2. split; [congruence|]. split; [congruence|].
  intros i. rewrite Hc, A1. unfold g.
  destruct (bool_decide (i ∈ seq 0 (length (fArray (obj w this))))); [|reflexivity].
  destruct (bool_decide_reflect (h1 = this)) as [->|Hne]; reflexivity.
Qed.

Lemma consistent_run this h1 h2 w :
  consistent this h1 h2 w =
  ((Nat.eqb (GetNbinsX (obj w h1)) (GetNbinsX (obj w h2)) &&
    Nat.eqb (GetNbinsX (obj w this)) (GetNbinsX (obj w h1)))%bool, w).
Proof. reflexivity. Qed.

Lemma Divide_effect this h1 h2 c1 c2 w :
  (this < length (heap w))%nat -> h2 <> this ->
  GetNbinsX (obj w h1) = GetNbinsX (obj w h2) ->
  GetNbinsX (obj w this) = GetNbinsX (obj w h1) ->
  c2 <> 0 ->
  (Divide this h1 h2 c1 c2 w).1 = true /\
  writes_cells this (seq 0 (length (fArray (obj w this))))
    (fun i => div_value c1 c2 (RetrieveBinContent (obj w h1) i)
                              (RetrieveBinContent (obj w h2) i))
    (Divide this h1 h2 c1 c2) w.
Proof.
  intros Hlive Hh2 H12 Ht1 Hc2.
  pose proof (binop_effect this h1 h2 (divide_cell this h1 h2 c1 c2) (div_value c1 c2) w
                Hlive Hh2 (fun w' i Hi => divide_cell_effect this h1 h2 c1 c2 i w' Hi)) as H.
  cbv zeta in H. unfold writes_cells in *.
  assert (E : Divide this h1 h2 c1 c2 w =
              (inherit_sumw2 this h1 h2;;
               ncells ← query this fNcells;
               for_ (seq 0 ncells) (divide_cell this h1 h2 c1 c2);;
               call this ResetStats;;
               mret true) w).
  { unfold Divide. rewrite run_bind, consistent_run. cbn [fst snd].
    rewrite Ht1, H12, !Nat.eqb_refl. cbn [andb negb].
    rewrite (Reqb_false _ _ Hc2). reflexivity. }
  rewrite E. exact H.
Qed.

Lemma Multiply_effect this h1 h2 c1 c2 w :
  (this < length (heap w))%nat -> h2 <> this ->
  GetNbinsX (obj w h1) = GetNbinsX (obj w h2) ->
  GetNbinsX (obj w this) = GetNbinsX (obj w h1) ->
  (Multiply this h1 h2 c1 c2 w).1 = true /\
  writes_cells this (seq 0 (length (fArray (obj w this))))
    (fun i => c1 * RetrieveBinContent (obj w h1) i * c2 * RetrieveBinContent (obj w h2) i)
    (Multiply this h1 h2 c1 c2) w.
Proof.
  intros Hlive Hh2 H12 Ht1.
  pose proof (binop_effect this h1 h2 (multiply_cell this h1 h2 c1 c2)
                (fun b1 b2 => c1 * b1 * c2 * b2) w
                Hlive Hh2 (fun w' i Hi => multiply_cell_effect this h1 h2 c1 c2 i w' Hi)) as H.
  cbv zeta in H. unfold writes_cells in *.
  assert (E : Multiply this h1 h2 c1 c2 w =
              (inherit_sumw2 this h1 h2;;
               ncells ← query this fNcells;
               for_ (seq 0 ncells) (multiply_cell this h1 h2 c1 c2);;
               call this ResetStats;;
               mret true) w).
  { unfold Multiply. rewrite run_bind, consistent_run. cbn [fst snd].
    rewrite Ht1, H12, !Nat.eqb_refl. cbn [andb negb]. reflexivity. }
  rewrite E. exact H.
Qed.

End HistPtrFacts.
(** ** [CalcPi0Corr]: one cell *)

Section Pi0Cell.
Import Hist Bins BSA DVCS HistPtr Pi0.
Local Open Scope R_scope.

Lemma obj_snoc_old H x c p :
  (p < length H)%nat -> obj (mkWorld (H ++ [x]) c) p = nth p H TH1D_null.
Proof. intros Hp. unfold obj; cbn [heap]. apply app_nth1. exact Hp. Qed.

Lemma obj_snoc_new H x c : obj (mkWorld (H ++ [x]) c) (length H) = x.
Proof. unfold obj; cbn [heap]. apply nth_middle. Qed.

(** A binary operation on the newest object of the heap. *)
Lemma writes_cells_newest H x c l val (op : M bool) :
  writes_cells (length H) l val op (mkWorld (H ++ [x]) c) ->
  exists x',
    (op (mkWorld (H ++ [x]) c)).2 = mkWorld (H ++ [x']) c /\
    fXaxis x' = fXaxis x /\ length (fArray x') = length (fArray x) /\
    forall i, at_ (fArray x') i = if bool_decide (i ∈ l) then val i else at_ (fArray x) i.
Proof.
  intros (F & E & Hax & Hlen & Hc). rewrite obj_snoc_new in Hax, Hlen, Hc.
  exists (F x). cbn [heap cerr] in E. rewrite alter_snoc in E. auto.
Qed.

Lemma pi0_cell_run mc_dvcs mc_pi0 data_dvcs data_pi0 t_bin q2_bin xb_bin hCorr w
    p1 p2 p3 p4 :
  cell mc_dvcs xb_bin q2_bin t_bin = Some p1 ->
  cell mc_pi0 xb_bin q2_bin t_bin = Some p2 ->
  cell data_dvcs xb_bin q2_bin t_bin = Some p3 ->
  cell data_pi0 xb_bin q2_bin t_bin = Some p4 ->
  (p1 < length (heap w))%nat -> (p2 < length (heap w))%nat ->
  (p3 < length (heap w))%nat -> (p4 < length (heap w))%nat ->
  GetNbinsX (obj w p2) = GetNbinsX (obj w p1) ->
  GetNbinsX (obj w p3) = GetNbinsX (obj w p1) ->
  GetNbinsX (obj w p4) = GetNbinsX (obj w p1) ->
  exists o,
    pi0_cell mc_dvcs mc_pi0 data_dvcs data_pi0 t_bin q2_bin xb_bin hCorr w =
      (cell_set hCorr xb_bin q2_bin t_bin (Some (length (heap w))),
       mkWorld (heap w ++ [o]) (cerr w)) /\
    length (fArray o) = length (fArray (obj w p1)) /\
    forall i, (i < length (fArray (obj w p1)))%nat ->
      RetrieveBinContent o i =
      pi0_value (RetrieveBinContent (obj w p1) i) (RetrieveBinContent (obj w p2) i)
                (RetrieveBinContent (obj w p3) i) (RetrieveBinContent (obj w p4) i).
Proof.
  intros C1 C2 C3 C4 L1 L2 L3 L4 N2 N3 N4.
  unfold pi0_cell. rewrite C1, C2, C3, C4.
  rewrite run_bind. unfold query at 1 2; cbn [fst snd]. fold (obj w p1).
  rewrite run_bind.
  change (alloc (obj w p1) w)
    with (length (heap w), mkWorld (heap w ++ [obj w p1]) (cerr w)).
  cbn [fst snd].
  rewrite run_bind. unfold call at 1; cbn [snd heap cerr]. rewrite alter_snoc.
  set (hr := length (heap w)). set (O1 := obj w p1) in *.
  set (w2 := mkWorld (heap w ++ [Reset O1]) (cerr w)).
  assert (Hold : forall x c p, (p < length (heap w))%nat ->
            obj (mkWorld (heap w ++ [x]) c) p = obj w p).
  { intros x c p Hp. apply obj_snoc_old. exact Hp. }
  (* first Divide *)
  destruct (Divide_effect hr p1 p2 1 1 w2) as [_ Hd1].
  { unfold w2, hr; cbn [heap]. rewrite length_app; cbn; lia. }
  { unfold hr; lia. }
  { unfold w2. rewrite !Hold by assumption. fold O1. congruence. }
  { unfold w2, hr. rewrite obj_snoc_new, Hold by assumption. reflexivity. }
  { lra. }
  apply writes_cells_newest in Hd1 as (x1 & E1 & Ax1 & Len1 & Ct1).
  unfold w2, hr in Ct1.
  rewrite obj_snoc_new, !Hold in Ct1 by assumption. fold O1 in Ct1.
  fold w2 in E1. rewrite run_bind, E1.
  set (w3 := mkWorld (heap w ++ [x1]) (cerr w)).
  (* Multiply *)
  destruct (Multiply_effect hr hr p4 1 1 w3) as [_ Hm].
  { unfold w3, hr; cbn [heap]. rewrite length_app; cbn; lia. }
  { unfold hr; lia. }
  { unfold w3, hr. rewrite obj_snoc_new, Hold by assumption.
    unfold GetNbinsX. rewrite Ax1. symmetry. exact N4. }
  { reflexivity. }
  apply writes_cells_newest in Hm as (x2 & E2 & Ax2 & Len2 & Ct2).
  unfold w3, hr in Ct2.
  rewrite obj_snoc_new, !Hold in Ct2 by assumption.
  fold w3 in E2. rewrite run_bind, E2.
  set (w4 := mkWorld (heap w ++ [x2]) (cerr w)).
  (* second Divide *)
  destruct (Divide_effect hr hr p3 1 1 w4) as [_ Hd2].
  { unfold w4, hr; cbn [heap]. rewrite length_app; cbn; lia. }
  { unfold hr; lia. }
  { unfold w4, hr. rewrite obj_snoc_new, Hold by assumption.
    unfold GetNbinsX. rewrite Ax2, Ax1. symmetry. exact N3. }
  { reflexivity. }
  { lra. }
  apply writes_cells_newest in Hd2 as (x3 & E3 & Ax3 & Len3 & Ct3).
  unfold w4, hr in Ct3.
  rewrite obj_snoc_new, !Hold in Ct3 by assumption.
  fold w4 in E3. rewrite run_bind, E3. rewrite run_ret.
  assert (Hr : length (fArray (Reset O1)) = length (fArray O1)).
  { unfold Reset; cbn. apply length_replicate. }
  exists x3. split; [reflexivity|]. split; [congruence|].
  intros i Hi.
  unfold RetrieveBinContent in *. unfold pi0_value.
  rewrite Ct3, Ct2, Ct1.
  rewrite !bool_decide_eq_true_2; [reflexivity| | |];
    apply elem_of_seq; lia.
Qed.

End Pi0Cell.
(** ** [CalcPi0Corr]: the loops *)

Section CellSet.
Import BSA.

Lemma nth_insert_eq {A} (l : list A) (i : nat) (v d : A) :
  i < length l -> nth i (<[i := v]> l) d = v.
Proof. intros H. apply nth_lookup_Some. apply list_lookup_insert_eq. exact H. Qed.

Lemma nth_insert_ne {A} (l : list A) (i j : nat) (v d : A) :
  i <> j -> nth j (<[i := v]> l) d = nth j l d.
Proof. intros H. rewrite !nth_lookup, list_lookup_insert_ne by exact H. reflexivity. Qed.

Lemma cell_cell_set_same (g : Grid) ix iq it v :
  ix < length g -> iq < length (nth ix g []) -> it < length (nth iq (nth ix g []) []) ->
  cell (cell_set g ix iq it v) ix iq it = v.
Proof.
  intros Hx Hq Ht. unfold cell, cell_set.
  rewrite nth_alter_eq by exact Hx. rewrite nth_alter_eq by exact Hq.
  apply nth_insert_eq. exact Ht.
Qed.

Lemma cell_cell_set_other (g : Grid) ix iq it v ix' iq' it' :
  ix < length g -> iq < length (nth ix g []) ->
  (ix, iq, it) <> (ix', iq', it') ->
  cell (cell_set g ix iq it v) ix' iq' it' = cell g ix' iq' it'.
Proof.
  intros Hx Hq Hne. unfold cell, cell_set.
  destruct (Nat.eq_dec ix ix') as [<-|Nx]; [|rewrite nth_alter_ne by exact Nx; reflexivity].
  rewrite nth_alter_eq by exact Hx.
  destruct (Nat.eq_dec iq iq') as [<-|Nq]; [|rewrite nth_alter_ne by exact Nq; reflexivity].
  rewrite nth_alter_eq by exact Hq.
  apply nth_insert_ne. intros ->. apply Hne. reflexivity.
Qed.

Lemma shape_cell_set (g : Grid) ix iq it v : shape (cell_set g ix iq it v) = shape g.
Proof.
  unfold shape, cell_set.
  apply list_eq. intros k. rewrite !list_lookup_fmap.
  destruct (Nat.eq_dec ix k) as [<-|Nx]; [|rewrite list_lookup_alter_ne by exact Nx; reflexivity].
  rewrite list_lookup_alter_eq. destruct (g !! ix) as [plane|]; [|reflexivity].
  cbn. f_equal.
  apply list_eq. intros j. change (map ?f ?l) with (f <$> l). rewrite !list_lookup_fmap.
  destruct (Nat.eq_dec iq j) as [<-|Nq]; [|rewrite list_lookup_alter_ne by exact Nq; reflexivity].
  rewrite list_lookup_alter_eq. destruct (plane !! iq) as [row|]; [|reflexivity].
  cbn. f_equal. apply length_insert.
Qed.

Lemma shape_replicate_range (g : Grid) n_xb n_q2 n_t ix iq :
  shape g = replicate n_xb (replicate n_q2 n_t) ->
  ix < n_xb -> iq < n_q2 ->
  length g = n_xb /\ length (nth ix g []) = n_q2 /\
  length (nth iq (nth ix g []) []) = n_t.
Proof.
  intros Hs Hx Hq.
  split; [rewrite <- shape_length, Hs, length_replicate; reflexivity|].
  split.
  - rewrite <- shape_plane_length, Hs.
    rewrite (nth_lookup_Some _ _ _ _ (lookup_replicate_2 _ _ _ Hx)).
    apply length_replicate.
  - rewrite <- shape_row_length, Hs.
    rewrite (nth_lookup_Some _ _ _ _ (lookup_replicate_2 _ _ _ Hx)).
    apply nth_lookup_Some. apply lookup_replicate_2. exact Hq.
Qed.

Lemma map_replicate {A B} (f : A -> B) (n : nat) (x : A) :
  map f (replicate n x) = replicate n (f x).
Proof. induction n as [|n IH]; [reflexivity|]. cbn. rewrite IH. reflexivity. Qed.

Lemma for_fold_inv {A S} (I : list A -> S -> World -> Prop) (body : A -> S -> M S)
    (l : list A) :
  (forall done a s w, I done s w -> a ∈ l ->
     I (done ++ [a]) (body a s w).1 (body a s w).2) ->
  forall s w, I [] s w -> I l (for_fold l s body w).1 (for_fold l s body w).2.
Proof.
  intros Hstep.
  assert (G : forall l' done s w,
            (forall a, a ∈ l' -> a ∈ l) -> I done s w ->
            I (done ++ l') (for_fold l' s body w).1 (for_fold l' s body w).2).
  { induction l' as [|a l' IH]; intros done s w Hsub HI.
    - cbn. rewrite app_nil_r. exact HI.
    - cbn [for_fold]. rewrite run_bind.
      replace (done ++ a :: l') with ((done ++ [a]) ++ l') by (rewrite <- app_assoc; reflexivity).
      apply IH; [intros a' Ha'; apply Hsub; right; exact Ha'|].
      apply Hstep; [exact HI | apply Hsub; left]. }
  intros s w HI. apply (G l [] s w); [auto | exact HI].
Qed.

End CellSet.

Section Pi0Loop.
Import Hist Bins BSA DVCS HistPtr Pi0.
Local Open Scope R_scope.
Variables (g1 g2 g3 g4 : list (list (list (option nat)))) (n_t n_q2 n_xb : nat).
Variable w0 : World.
Hypothesis Hin : pi0_inputs_ok g1 g2 g3 g4 n_t n_q2 n_xb w0.

Abbreviation Inv := (pi0_inv g1 g2 g3 g4 n_t n_q2 n_xb w0).

Lemma pi0_inv_mono (D D' : nat -> nat -> nat -> Prop) hCorr w' :
  (forall t q2 xb, (t < n_t)%nat -> (q2 < n_q2)%nat -> (xb < n_xb)%nat ->
     D' t q2 xb -> D t q2 xb) ->
  Inv D hCorr w' -> Inv D' hCorr w'.
Proof.
  intros Hsub (Hp & Hs & Hc). split; [exact Hp|]. split; [exact Hs|].
  intros t q2 xb Ht Hq Hx HD. apply Hc; auto.
Qed.

Lemma pi0_cell_step D hCorr w' t q2 xb :
  (t < n_t)%nat -> (q2 < n_q2)%nat -> (xb < n_xb)%nat ->
  Inv D hCorr w' ->
  Inv (fun t' q2' xb' => D t' q2' xb' \/ (t', q2', xb') = (t, q2, xb))
      (pi0_cell g1 g2 g3 g4 t q2 xb hCorr w').1
      (pi0_cell g1 g2 g3 g4 t q2 xb hCorr w').2.
Proof.
  intros Ht Hq Hx (Hp & Hs & Hc).
  destruct (Hin t q2 xb Ht Hq Hx)
    as (p1 & p2 & p3 & p4 & C1 & C2 & C3 & C4 & L1 & L2 & L3 & L4 & N2 & N3 & N4).
  pose proof (prefix_length _ _ Hp) as Hlen.
  assert (Hobj : forall p, (p < length (heap w0))%nat -> obj w' p = obj w0 p).
  { intros p Hlt. destruct Hp as [ext Hext]. unfold obj. rewrite Hext.
    apply app_nth1. exact Hlt. }
  destruct (pi0_cell_run g1 g2 g3 g4 t q2 xb hCorr w' p1 p2 p3 p4 C1 C2 C3 C4)
    as (o & Erun & Hol & Ho); try lia.
  { rewrite !Hobj by assumption. exact N2. }
  { rewrite !Hobj by assumption. exact N3. }
  { rewrite !Hobj by assumption. exact N4. }
  rewrite !Hobj in Ho by assumption. rewrite Hobj in Hol by assumption.
  rewrite Erun. cbn [fst snd].
  destruct (shape_replicate_range hCorr n_xb n_q2 n_t xb q2 Hs Hx Hq) as (Sx & Sq & St).
  split; [cbn [heap]; etransitivity; [exact Hp | apply prefix_app_r; reflexivity]|].
  split; [rewrite shape_cell_set; exact Hs|].
  intros t' q2' xb' Ht' Hq' Hx' HD.
  destruct (decide ((xb, q2, t) = (xb', q2', t'))) as [E|N].
  - injection E as <- <- <-.
    exists (length (heap w')), o, p1, p2, p3, p4.
    repeat (split; [assumption|]).
    split; [apply cell_cell_set_same; lia|].
    split; [exact Hlen|].
    split; [cbn [heap]; rewrite lookup_app_r, Nat.sub_diag by lia; reflexivity|].
    split; [exact Hol | exact Ho].
  - destruct HD as [HD|HD]; [|exfalso; apply N; injection HD as -> -> ->; reflexivity].
    destruct (Hc t' q2' xb' Ht' Hq' Hx' HD)
      as (hr & o' & q1 & q2p & q3 & q4 & D1 & D2 & D3 & D4 & Dc & Dh & Dl & Dn & Dv).
    exists hr, o', q1, q2p, q3, q4.
    repeat (split; [assumption|]).
    split; [rewrite cell_cell_set_other by (try lia; exact N); exact Dc|].
    split; [exact Dh|].
    split; [cbn [heap]; apply lookup_app_l_Some; exact Dl|].
    split; [exact Dn | exact Dv].
Qed.

Lemma pi0_xb_loop D t q2 hCorr w' :
  (t < n_t)%nat -> (q2 < n_q2)%nat ->
  Inv D hCorr w' ->
  let c := for_fold (seq 0 n_xb) hCorr
             (fun xb_bin hCorr => pi0_cell g1 g2 g3 g4 t q2 xb_bin hCorr) in
  Inv (fun t' q2' xb' => D t' q2' xb' \/ (t' = t /\ q2' = q2)) (c w').1 (c w').2.
Proof.
  intros Ht Hq HI c. subst c.
  pose proof (for_fold_inv
    (fun done s w => Inv (fun t' q2' xb' => D t' q2' xb' \/
                            (t' = t /\ q2' = q2 /\ xb' ∈ done)) s w)
    (fun xb_bin hCorr => pi0_cell g1 g2 g3 g4 t q2 xb_bin hCorr)
    (seq 0 n_xb)) as H.
  cbv beta in H.
  eapply pi0_inv_mono; [|apply H].
  - intros t' q2' xb' _ _ Hx' [HD|[-> ->]]; [left; exact HD|].
    right. split; [reflexivity|]. split; [reflexivity|]. apply elem_of_seq. lia.
  - intros done a s w HI' Ha. apply elem_of_seq in Ha.
    eapply pi0_inv_mono; [|apply (pi0_cell_step _ s w t q2 a Ht Hq ltac:(lia) HI')].
    intros t' q2' xb' _ _ _ [HD|(-> & -> & Hd)].
    + left; left; exact HD.
    + apply elem_of_app in Hd as [Hd|Hd].
      * left; right; auto.
      * apply list_elem_of_singleton in Hd as ->. right; reflexivity.
  - eapply pi0_inv_mono; [|exact HI].
    intros t' q2' xb' _ _ _ [HD|(_ & _ & Hd)]; [exact HD|].
    apply elem_of_nil in Hd. contradiction.
Qed.

Lemma pi0_q2_loop D t hCorr w' :
  (t < n_t)%nat ->
  Inv D hCorr w' ->
  let c := for_fold (seq 0 n_q2) hCorr (fun q2_bin hCorr =>
             for_fold (seq 0 n_xb) hCorr
               (fun xb_bin hCorr => pi0_cell g1 g2 g3 g4 t q2_bin xb_bin hCorr)) in
  Inv (fun t' q2' xb' => D t' q2' xb' \/ t' = t) (c w').1 (c w').2.
Proof.
  intros Ht HI c. subst c.
  pose proof (for_fold_inv
    (fun done s w => Inv (fun t' q2' xb' => D t' q2' xb' \/ (t' = t /\ q2' ∈ done)) s w)
    (fun q2_bin hCorr =>
       for_fold (seq 0 n_xb) hCorr
         (fun xb_bin hCorr => pi0_cell g1 g2 g3 g4 t q2_bin xb_bin hCorr))
    (seq 0 n_q2)) as H.
  cbv beta in H.
  eapply pi0_inv_mono; [|apply H].
  - intros t' q2' xb' _ Hq' _ [HD| ->]; [left; exact HD|].
    right. split; [reflexivity|]. apply elem_of_seq. lia.
  - intros done a s w HI' Ha. apply elem_of_seq in Ha.
    eapply pi0_inv_mono; [|apply (pi0_xb_loop _ t a s w Ht ltac:(lia) HI')].
    intros t' q2' xb' _ _ _ [HD|(-> & Hd)].
    + left; left; exact HD.
    + apply elem_of_app in Hd as [Hd|Hd].
      * left; right; auto.
      * apply list_elem_of_singleton in Hd as ->. right; auto.
  - eapply pi0_inv_mono; [|exact HI].
    intros t' q2' xb' _ _ _ [HD|(_ & Hd)]; [exact HD|].
    apply elem_of_nil in Hd. contradiction.
Qed.

(** After the loops every cell in range is computed. *)
Lemma pi0_combine_spec :
  let out := pi0_combine n_t n_q2 n_xb g1 g2 g3 g4 w0 in
  Inv (fun _ _ _ => True) out.1 out.2.
Proof.
  cbv zeta. unfold pi0_combine.
  pose proof (for_fold_inv
    (fun done s w => Inv (fun t' q2' xb' => t' ∈ done) s w)
    (fun t_bin hCorr =>
       for_fold (seq 0 n_q2) hCorr (fun q2_bin hCorr =>
         for_fold (seq 0 n_xb) hCorr
           (fun xb_bin hCorr => pi0_cell g1 g2 g3 g4 t_bin q2_bin xb_bin hCorr)))
    (seq 0 n_t)) as H.
  cbv beta in H.
  eapply pi0_inv_mono; [|apply H].
  - intros t' q2' xb' Ht' _ _ _. apply elem_of_seq. lia.
  - intros done a s w HI' Ha. apply elem_of_seq in Ha.
    eapply pi0_inv_mono; [|apply (pi0_q2_loop _ a s w ltac:(lia) HI')].
    intros t' q2' xb' _ _ _ Hd.
    apply elem_of_app in Hd as [Hd|Hd]; [left; exact Hd|].
    apply list_elem_of_singleton in Hd as ->. right; reflexivity.
  - split; [reflexivity|]. split.
    + unfold shape. rewrite !map_replicate. cbn. rewrite length_replicate. reflexivity.
    + intros t q2 xb _ _ _ Hd. apply elem_of_nil in Hd. contradiction.
Qed.

End Pi0Loop.
(** ** [CalcPi0Corr]: the claims *)

Section Pi0Theorems.
Import Hist Bins BSA DVCS HistPtr Pi0.
Local Open Scope R_scope.

Lemma dvcs_obj_shape this df bins L ix iq it :
  (ix < length (GetXBBins bins) - 1)%nat ->
  (iq < length (GetQ2Bins bins) - 1)%nat ->
  (it < length (GetTBins bins) - 1)%nat ->
  let k := (ix * ((length (GetQ2Bins bins) - 1) * (length (GetTBins bins) - 1)) +
            iq * (length (GetTBins bins) - 1) + it)%nat in
  length (fArray (dvcs_obj this df bins L k)) = 20%nat /\
  GetNbinsX (dvcs_obj this df bins L k) = 18%nat.
Proof.
  intros Hx Hq Ht k.
  pose proof (acc_obj_bin this df bins ix iq it 0) as Ha. unfold n_cells in Ha.
  destruct (Ha Hx Hq Ht ltac:(lia)) as ((Hc & _) & Hn & _). fold k in Hc, Hn.
  unfold dvcs_obj, normalize_obj. rewrite Hn.
  destruct (norm_fold_other_content L 20 0 (seq 1 18) _ Hc) as ((Hl & _) & Hax & _).
  - apply Forall_forall. intros x Hx'. apply elem_of_seq in Hx'. lia.
  - intros H0. apply elem_of_seq in H0. lia.
  - split; [exact Hl|]. unfold GetNbinsX in *. rewrite Hax. exact Hn.
Qed.

(** One run of [ComputeDVCS_CrossSection] seen from a cell. *)
Lemma dvcs_run_facts this df bins L w ix iq it :
  (ix < length (GetXBBins bins) - 1)%nat ->
  (iq < length (GetQ2Bins bins) - 1)%nat ->
  (it < length (GetTBins bins) - 1)%nat ->
  let k := (ix * ((length (GetQ2Bins bins) - 1) * (length (GetTBins bins) - 1)) +
            iq * (length (GetTBins bins) - 1) + it)%nat in
  let X := ComputeDVCS_CrossSection this df bins L w in
  heap w `prefix_of` heap X.2 /\
  exists p, cell X.1 ix iq it = Some p /\ (p < length (heap X.2))%nat /\
            obj X.2 p = dvcs_obj this df bins L k.
Proof.
  intros Hx Hq Ht k X.
  pose proof (dvcs_cell this df bins L w ix iq it) as Hc.
  pose proof (ComputeDVCS_CrossSection_run this df bins L w) as Hr.
  unfold n_cells in Hc, Hr.
  destruct (Hc Hx Hq Ht) as (_ & _ & C & O). fold k X in C, O.
  pose proof (flat_index_lt _ _ _ _ _ _ Hx Hq Ht) as Hk. fold k in Hk.
  fold X in Hr.
  split; [rewrite Hr; cbn [snd heap]; apply prefix_app_r; reflexivity|].
  eexists. split; [exact C|]. split; [|exact O].
  rewrite Hr. cbn [snd heap].
  rewrite length_app, length_map, route_fold_length, length_replicate. lia.
Qed.

Lemma xsec_content_eq df bins w ix iq it b :
  (ix < length (GetXBBins bins) - 1)%nat ->
  (iq < length (GetQ2Bins bins) - 1)%nat ->
  (it < length (GetTBins bins) - 1)%nat ->
  (b < 20)%nat ->
  let k := (ix * ((length (GetQ2Bins bins) - 1) * (length (GetTBins bins) - 1)) +
            iq * (length (GetTBins bins) - 1) + it)%nat in
  xsec_content df bins w ix iq it b =
  RetrieveBinContent (dvcs_obj DISANAMath_default df bins 1 k) b.
Proof.
  intros Hx Hq Ht Hb k. unfold xsec_content.
  destruct (dvcs_run_facts DISANAMath_default df bins 1 w ix iq it Hx Hq Ht)
    as (_ & p & C & _ & O).
  rewrite C, O. fold k.
  destruct (dvcs_obj_shape DISANAMath_default df bins 1 ix iq it Hx Hq Ht) as [Hl _].
  fold k in Hl.
  unfold GetBinContent, clamp, fNcells. rewrite Hl.
  replace (Nat.min b (20 - 1)) with b by lia. reflexivity.
Qed.

Lemma prefix_obj (w w' : World) p :
  heap w `prefix_of` heap w' -> (p < length (heap w))%nat -> obj w' p = obj w p.
Proof.
  intros [ext Hext] Hp. unfold obj. rewrite Hext. apply app_nth1. exact Hp.
Qed.

(** Everything that is known of one cell of one histogram of the result. *)
Lemma pi0_bin_facts df_dvcs_mc df_pi0_mc df_dvcs_data df_pi0_data xBins w xb q2 t b :
  (xb < length (GetXBBins xBins) - 1)%nat ->
  (q2 < length (GetQ2Bins xBins) - 1)%nat ->
  (t < length (GetTBins xBins) - 1)%nat ->
  (b < 20)%nat ->
  let out := CalcPi0Corr df_dvcs_mc df_pi0_mc df_dvcs_data df_pi0_data xBins w in
  exists hr,
    cell out.1 xb q2 t = Some hr /\
    GetBinContent (obj out.2 hr) b =
    pi0_value (xsec_content df_dvcs_mc xBins w xb q2 t b)
              (xsec_content df_pi0_mc xBins w xb q2 t b)
              (xsec_content df_dvcs_data xBins w xb q2 t b)
              (xsec_content df_pi0_data xBins w xb q2 t b).
Proof.
  intros Hx Hq Ht Hb. cbv zeta.
  rewrite !xsec_content_eq by assumption.
  unfold CalcPi0Corr. cbv zeta.
  rewrite run_bind. set (X1 := ComputeDVCS_CrossSection _ df_dvcs_mc xBins 1 w).
  rewrite run_bind. set (X2 := ComputeDVCS_CrossSection _ df_pi0_mc xBins 1 X1.2).
  rewrite run_bind. set (X3 := ComputeDVCS_CrossSection _ df_dvcs_data xBins 1 X2.2).
  rewrite run_bind. set (X4 := ComputeDVCS_CrossSection _ df_pi0_data xBins 1 X3.2).
  set (n_xb := (length (GetXBBins xBins) - 1)%nat) in *.
  set (n_q2 := (length (GetQ2Bins xBins) - 1)%nat) in *.
  set (n_t := (length (GetTBins xBins) - 1)%nat) in *.
  assert (Hcellfacts : forall t' q2' xb', (t' < n_t)%nat -> (q2' < n_q2)%nat -> (xb' < n_xb)%nat ->
    let k := (xb' * (n_q2 * n_t) + q2' * n_t + t')%nat in
    exists p1 p2 p3 p4,
      cell X1.1 xb' q2' t' = Some p1 /\ cell X2.1 xb' q2' t' = Some p2 /\
      cell X3.1 xb' q2' t' = Some p3 /\ cell X4.1 xb' q2' t' = Some p4 /\
      (p1 < length (heap X4.2))%nat /\ (p2 < length (heap X4.2))%nat /\
      (p3 < length (heap X4.2))%nat /\ (p4 < length (heap X4.2))%nat /\
      obj X4.2 p1 = dvcs_obj DISANAMath_default df_dvcs_mc xBins 1 k /\
      obj X4.2 p2 = dvcs_obj DISANAMath_default df_pi0_mc xBins 1 k /\
      obj X4.2 p3 = dvcs_obj DISANAMath_default df_dvcs_data xBins 1 k /\
      obj X4.2 p4 = dvcs_obj DISANAMath_default df_pi0_data xBins 1 k).
  { intros t' q2' xb' Ht' Hq' Hx' k.
    destruct (dvcs_run_facts DISANAMath_default df_dvcs_mc xBins 1 w xb' q2' t' Hx' Hq' Ht')
      as (P1 & p1 & C1 & L1 & O1).
    destruct (dvcs_run_facts DISANAMath_default df_pi0_mc xBins 1 X1.2 xb' q2' t' Hx' Hq' Ht')
      as (P2 & p2 & C2 & L2 & O2).
    destruct (dvcs_run_facts DISANAMath_default df_dvcs_data xBins 1 X2.2 xb' q2' t' Hx' Hq' Ht')
      as (P3 & p3 & C3 & L3 & O3).
    destruct (dvcs_run_facts DISANAMath_default df_pi0_data xBins 1 X3.2 xb' q2' t' Hx' Hq' Ht')
      as (P4 & p4 & C4 & L4 & O4).
    fold X1 in P1, C1, L1, O1. fold X2 in P2, C2, L2, O2.
    fold X3 in P3, C3, L3, O3. fold X4 in P4, C4, L4, O4.
    fold n_q2 n_t k in O1, O2, O3, O4.
    pose proof (prefix_length _ _ P2). pose proof (prefix_length _ _ P3).
    pose proof (prefix_length _ _ P4).
    exists p1, p2, p3, p4. repeat (split; [first [assumption | lia]|]).
    assert (P34 : heap X3.2 `prefix_of` heap X4.2) by exact P4.
    assert (P24 : heap X2.2 `prefix_of` heap X4.2) by (etransitivity; [exact P3|exact P4]).
    assert (P14 : heap X1.2 `prefix_of` heap X4.2) by (etransitivity; [exact P2|exact P24]).
    split; [|split; [|split]].
    - rewrite (prefix_obj X1.2 X4.2 p1 P14 L1). exact O1.
    - rewrite (prefix_obj X2.2 X4.2 p2 P24 L2). exact O2.
    - rewrite (prefix_obj X3.2 X4.2 p3 P34 L3). exact O3.
    - exact O4. }
  assert (Hin : pi0_inputs_ok X1.1 X2.1 X3.1 X4.1 n_t n_q2 n_xb X4.2).
  { intros t' q2' xb' Ht' Hq' Hx'.
    destruct (Hcellfacts t' q2' xb' Ht' Hq' Hx')
      as (p1 & p2 & p3 & p4 & C1 & C2 & C3 & C4 & L1 & L2 & L3 & L4 & O1 & O2 & O3 & O4).
    exists p1, p2, p3, p4. repeat (split; [assumption|]).
    rewrite O1, O2, O3, O4.
    destruct (dvcs_obj_shape DISANAMath_default df_dvcs_mc xBins 1 xb' q2' t' Hx' Hq' Ht') as [_ N1].
    destruct (dvcs_obj_shape DISANAMath_default df_pi0_mc xBins 1 xb' q2' t' Hx' Hq' Ht') as [_ N2].
    destruct (dvcs_obj_shape DISANAMath_default df_dvcs_data xBins 1 xb' q2' t' Hx' Hq' Ht') as [_ N3].
    destruct (dvcs_obj_shape DISANAMath_default df_pi0_data xBins 1 xb' q2' t' Hx' Hq' Ht') as [_ N4].
    fold n_q2 n_t in N1, N2, N3, N4. rewrite N1, N2, N3, N4.
    repeat split. }
  destruct (pi0_combine_spec X1.1 X2.1 X3.1 X4.1 n_t n_q2 n_xb X4.2 Hin) as (_ & _ & Hdone).
  destruct (Hdone t q2 xb Ht Hq Hx I)
    as (hr & o & q1 & q2p & q3 & q4 & D1 & D2 & D3 & D4 & Dc & _ & Dl & Dn & Dv).
  destruct (Hcellfacts t q2 xb Ht Hq Hx)
    as (p1 & p2 & p3 & p4 & C1 & C2 & C3 & C4 & _ & _ & _ & _ & O1 & O2 & O3 & O4).
  rewrite C1 in D1. rewrite C2 in D2. rewrite C3 in D3. rewrite C4 in D4.
  injection D1 as <-. injection D2 as <-. injection D3 as <-. injection D4 as <-.
  rewrite O1, O2, O3, O4 in Dv. rewrite O1 in Dn.
  destruct (dvcs_obj_shape DISANAMath_default df_dvcs_mc xBins 1 xb q2 t Hx Hq Ht) as [Hl _].
  fold n_q2 n_t in Hl. rewrite Hl in Dv, Dn.
  exists hr. split; [exact Dc|].
  assert (Eo : obj (pi0_combine n_t n_q2 n_xb X1.1 X2.1 X3.1 X4.1 X4.2).2 hr = o).
  { unfold obj. apply nth_lookup_Some. exact Dl. }
  rewrite Eo. unfold GetBinContent, clamp, fNcells. rewrite Dn.
  replace (Nat.min b (20 - 1)) with b by lia.
  apply Dv. exact Hb.
Qed.

Lemma pi0_value_nonzero s_mc b_mc s_data b_data :
  b_mc <> 0 -> s_data <> 0 ->
  pi0_value s_mc b_mc s_data b_data = (s_mc / b_mc) * (b_data / s_data).
Proof.
  intros Hb Hs. unfold pi0_value, div_value.
  rewrite (Reqb_false b_mc 0), (Reqb_false s_data 0) by assumption.
  cbn [negb]. field. split; assumption.
Qed.

Lemma pi0_value_zero s_mc b_mc s_data b_data :
  b_mc = 0 \/ s_data = 0 -> pi0_value s_mc b_mc s_data b_data = 0.
Proof.
  intros H. unfold pi0_value, div_value.
  destruct (Reqb_spec s_data 0) as [Es|Ns]; cbn [negb]; [reflexivity|].
  destruct H as [Eb|Es]; [|contradiction].
  rewrite (Reqb_true b_mc 0) by assumption. cbn [negb]. field. exact Ns.
Qed.

(** The inputs of [CalcPi0Corr], read from the data frames. *)
Lemma xsec_content_sum df bins w ix iq it b :
  (ix < length (GetXBBins bins) - 1)%nat ->
  (iq < length (GetQ2Bins bins) - 1)%nat ->
  (it < length (GetTBins bins) - 1)%nat ->
  (1 <= b <= 18)%nat ->
  xsec_content df bins w ix iq it b =
  sum_w DISANAMath_default bins ix iq it b df / (1 * 20).
Proof.
  intros Hx Hq Ht Hb. unfold xsec_content.
  destruct (dvcs_bin_facts DISANAMath_default df bins 1 w ix iq it b Hx Hq Ht Hb)
    as (_ & C & _ & _ & N & _).
  rewrite C. exact N.
Qed.

Lemma xsec_content_one_event w b :
  (1 <= b <= 18)%nat ->
  xsec_content [one_event] BinManager_default w 0 0 0 b =
  if Nat.eqb b 10 then 0.05 else 0.
Proof.
  intros Hb. rewrite xsec_content_sum by (cbn; lia).
  rewrite sum_w_one_event, bool_decide_eq_true_2 by reflexivity. cbn [andb].
  assert (Hw : fill_weight DISANAMath_default one_event = 1).
  { unfold fill_weight; cbn. lra. }
  rewrite Hw. destruct (Nat.eqb b 10); lra.
Qed.

(** C4, as the code has it.  [CalcPi0Corr] builds the four grids of
    histograms itself, from four data frames and one set of bin edges, so
    they have the same shape.  For a cell of the grid and any of the 20
    cells [b] of its histogram (18 angular bins, underflow and overflow),
    write [S_mc], [B_mc], [S_data], [B_data] for the contents of bin [b]
    in the signal simulation, background simulation, signal data and
    background data histograms.  The histogram of the result holds
    [(S_mc / B_mc) * (B_data / S_data)] where [B_mc] and [S_data] are not
    zero, and [0] where one of them is zero.  When the signal contents
    agree and the background contents agree, the result is [1] in the bins
    where both are not zero. *)
Theorem CalcPi0Corr_bin_values
    df_dvcs_mc df_pi0_mc df_dvcs_data df_pi0_data xBins w xb q2 t b :
  (xb < length (GetXBBins xBins) - 1)%nat ->
  (q2 < length (GetQ2Bins xBins) - 1)%nat ->
  (t < length (GetTBins xBins) - 1)%nat ->
  (b < 20)%nat ->
  let out := CalcPi0Corr df_dvcs_mc df_pi0_mc df_dvcs_data df_pi0_data xBins w in
  let S_mc := xsec_content df_dvcs_mc xBins w xb q2 t b in
  let B_mc := xsec_content df_pi0_mc xBins w xb q2 t b in
  let S_data := xsec_content df_dvcs_data xBins w xb q2 t b in
  let B_data := xsec_content df_pi0_data xBins w xb q2 t b in
  exists hr,
    cell out.1 xb q2 t = Some hr /\
    (B_mc <> 0 -> S_data <> 0 ->
     GetBinContent (obj out.2 hr) b = (S_mc / B_mc) * (B_data / S_data)) /\
    (B_mc = 0 \/ S_data = 0 -> GetBinContent (obj out.2 hr) b = 0) /\
    (S_mc = S_data -> B_mc = B_data -> S_mc <> 0 -> B_mc <> 0 ->
     GetBinContent (obj out.2 hr) b = 1).
Proof.
  intros Hx Hq Ht Hb out S_mc B_mc S_data B_data.
  destruct (pi0_bin_facts df_dvcs_mc df_pi0_mc df_dvcs_data df_pi0_data xBins w
              xb q2 t b Hx Hq Ht Hb) as (hr & C & V).
  fold out S_mc B_mc S_data B_data in C, V.
  exists hr. split; [exact C|]. rewrite V. split; [|split].
  - apply pi0_value_nonzero.
  - apply pi0_value_zero.
  - intros ES EB NS NB. rewrite pi0_value_nonzero by (rewrite <- ?ES; assumption).
    rewrite <- ES, <- EB. field. split; assumption.
Qed.

(** C4 at four copies of the frame of one event: the bin of the event
    holds [0.05] in the four histograms, and [1] in the result. *)
Lemma CalcPi0Corr_bin_values_witness :
  exists hr,
    cell (CalcPi0Corr [one_event] [one_event] [one_event] [one_event]
            BinManager_default (mkWorld [] [])).1 0 0 0 = Some hr /\
    GetBinContent (obj (CalcPi0Corr [one_event] [one_event] [one_event] [one_event]
                          BinManager_default (mkWorld [] [])).2 hr) 10 = 1.
Proof.
  destruct (CalcPi0Corr_bin_values [one_event] [one_event] [one_event] [one_event]
              BinManager_default (mkWorld [] []) 0 0 0 10)
    as (hr & C & _ & _ & H1); try (cbn; lia).
  exists hr. split; [exact C|].
  apply H1; try reflexivity;
    rewrite xsec_content_one_event by lia; cbn [Nat.eqb]; lra.
Defined.

(** C4, as stated, fails in its second half: with the same frame of one
    event for the four inputs the histograms are identical, and the first
    angular bin of the cell of the event, empty in all of them, holds [0]
    in the result, not [1]. *)
Lemma CalcPi0Corr_identical_counterexample :
  let w := mkWorld [] [] in
  let out := CalcPi0Corr [one_event] [one_event] [one_event] [one_event]
               BinManager_default w in
  xsec_content [one_event] BinManager_default w 0 0 0 1 = 0 /\
  exists hr,
    cell out.1 0 0 0 = Some hr /\
    GetBinContent (obj out.2 hr) 1 = 0 /\
    GetBinContent (obj out.2 hr) 1 <> 1.
Proof.
  cbv zeta.
  assert (E0 : xsec_content [one_event] BinManager_default (mkWorld [] []) 0 0 0 1 = 0).
  { rewrite xsec_content_one_event by lia. reflexivity. }
  split; [exact E0|].
  destruct (pi0_bin_facts [one_event] [one_event] [one_event] [one_event]
              BinManager_default (mkWorld [] []) 0 0 0 1) as (hr & C & V);
    try (cbn; lia).
  exists hr. split; [exact C|].
  rewrite V, E0, pi0_value_zero by (left; reflexivity).
  split; [reflexivity|lra].
Qed.

End Pi0Theorems.

(** ** Four-vectors, the constructor and the exclusivity members *)

Section KinMore.
Import Kin Excl.
Local Open Scope R_scope.

Lemma sin2_cos2_mul x : sin x * sin x + cos x * cos x = 1.
Proof. pose proof (sin2_cos2 x) as H. unfold Rsqr in H. exact H. Qed.

Lemma spherical_Mag2 p theta phi :
  v3_Mag2 (SphericalToCartesian p theta phi) = p * p.
Proof.
  unfold SphericalToCartesian, v3_Mag2; cbn.
  pose proof (sin2_cos2_mul theta) as Ht. pose proof (sin2_cos2_mul phi) as Hp.
  replace (p * sin theta * cos phi * (p * sin theta * cos phi) +
           p * sin theta * sin phi * (p * sin theta * sin phi) +
           p * cos theta * (p * cos theta))
    with (p * p * (sin theta * sin theta * (sin phi * sin phi + cos phi * cos phi)
                   + cos theta * cos theta)) by ring.
  rewrite Hp, Rmult_1_r, Ht. ring.
Qed.

Lemma Build4Vector_E p theta phi m :
  E (Build4Vector p theta phi m) = sqrt (p * p + m * m).
Proof. unfold Build4Vector, E; cbn [fE]. rewrite spherical_Mag2. reflexivity. Qed.

Lemma Build4Vector_E_sqr p theta phi m :
  E (Build4Vector p theta phi m) * E (Build4Vector p theta phi m) = p * p + m * m.
Proof. rewrite Build4Vector_E. apply sqrt_sqrt. nra. Qed.

Lemma Build4Vector_Mag2 p theta phi m : Mag2 (Build4Vector p theta phi m) = m * m.
Proof.
  pose proof (Build4Vector_E_sqr p theta phi m) as HE.
  unfold Mag2. change (fE (Build4Vector p theta phi m)) with (E (Build4Vector p theta phi m)).
  rewrite HE. change (fP (Build4Vector p theta phi m)) with (SphericalToCartesian p theta phi).
  rewrite spherical_Mag2. ring.
Qed.

(** X1.  A four-vector built from a momentum, two angles and a mass is on
    its mass shell: its three-momentum has length [|p|], its energy is
    [sqrt (p^2 + m^2)], not below [|m|] nor below [|p|], its invariant mass
    squared is [m^2] and its invariant mass [|m|]. *)
Theorem Build4Vector_on_shell (p theta phi m : R) :
  let v := Build4Vector p theta phi m in
  v3_Mag (Vect v) = Rabs p /\
  E v = sqrt (p * p + m * m) /\
  Rabs m <= E v /\ Rabs p <= E v /\
  Mag2 v = m * m /\
  Mag v = Rabs m.
Proof.
  cbv zeta. split; [|split; [|split; [|split; [|split]]]].
  - unfold v3_Mag, Vect. change (fP (Build4Vector p theta phi m))
      with (SphericalToCartesian p theta phi).
    rewrite spherical_Mag2. fold (Rsqr p). apply sqrt_Rsqr_abs.
  - apply Build4Vector_E.
  - rewrite Build4Vector_E. rewrite <- (sqrt_Rsqr_abs m). unfold Rsqr.
    apply sqrt_le_1_alt. nra.
  - rewrite Build4Vector_E. rewrite <- (sqrt_Rsqr_abs p). unfold Rsqr.
    apply sqrt_le_1_alt. nra.
  - apply Build4Vector_Mag2.
  - unfold Mag. rewrite Build4Vector_Mag2.
    rewrite Rltb_false by nra. fold (Rsqr m). apply sqrt_Rsqr_abs.
Qed.

(** X2.  The invariants the constructor computes from the beam energy
    [E0] and the scattered electron [(p, theta, phi)], with
    [E1 = sqrt (p^2 + m_e^2)]: [nu = E0 - E1], [y = nu / E0],
    [Q2 = 2 E0 (E1 - p cos theta) - m_e^2], [xB = Q2 / (2 m_p nu)], and [W]
    is the signed square root of [m_p^2 + 2 m_p nu - Q2].  None of them
    depends on the proton or the photon. *)
Theorem DISANAMath_new_invariants
    (E0 p theta phi p_out_p p_out_theta p_out_phi g_p g_theta g_phi : R) :
  let k := DISANAMath_new E0 p theta phi p_out_p p_out_theta p_out_phi
                          g_p g_theta g_phi in
  let E1 := sqrt (p * p + m_e * m_e) in
  let W2 := m_p * m_p + 2 * m_p * nu_ k - Q2_ k in
  nu_ k = E0 - E1 /\
  y_ k = (E0 - E1) / E0 /\
  Q2_ k = 2 * E0 * (E1 - p * cos theta) - m_e * m_e /\
  xB_ k = Q2_ k / (2 * m_p * nu_ k) /\
  (0 <= W2 -> W_ k = sqrt W2) /\
  (W2 < 0 -> W_ k = - sqrt (- W2)).
Proof.
  cbv zeta.
  pose proof (Build4Vector_E p theta phi m_e) as HE.
  pose proof (Build4Vector_E_sqr p theta phi m_e) as HE2.
  pose proof (sin2_cos2_mul theta) as Ht. pose proof (sin2_cos2_mul phi) as Hp.
  set (E1 := sqrt (p * p + m_e * m_e)) in *.
  unfold E in HE, HE2.
  assert (Hnu : nu_ (DISANAMath_new E0 p theta phi p_out_p p_out_theta p_out_phi
                       g_p g_theta g_phi) = E0 - E1).
  { unfold DISANAMath_new, ComputeKinematics; cbn [nu_ E lv_minus fE]. rewrite HE.
    reflexivity. }
  assert (HQ : Q2_ (DISANAMath_new E0 p theta phi p_out_p p_out_theta p_out_phi
                      g_p g_theta g_phi) = 2 * E0 * (E1 - p * cos theta) - m_e * m_e).
  { unfold DISANAMath_new, ComputeKinematics; cbn [Q2_].
    unfold Mag2, lv_minus, v3_minus, v3_Mag2; cbn [fE fP vX vY vZ].
    rewrite HE.
    unfold Build4Vector, SphericalToCartesian; cbn [fP vX vY vZ].
    assert (HE1 : E1 * E1 = p * p + m_e * m_e) by (rewrite <- HE; exact HE2).
    replace (- ((E0 - E1) * (E0 - E1) -
             ((0 - p * sin theta * cos phi) * (0 - p * sin theta * cos phi) +
              (0 - p * sin theta * sin phi) * (0 - p * sin theta * sin phi) +
              (E0 - p * cos theta) * (E0 - p * cos theta))))
      with (2 * E0 * E1 - E1 * E1 - 2 * E0 * p * cos theta +
            p * p * (sin theta * sin theta * (sin phi * sin phi + cos phi * cos phi)
                     + cos theta * cos theta)) by ring.
    rewrite Hp, Rmult_1_r, Ht, HE1. ring. }
  assert (HW2 : Mag2 (lv_plus (mkTLorentzVector (mkTVector3 0 0 0) m_p)
                        (lv_minus (mkTLorentzVector (mkTVector3 0 0 E0) E0)
                                  (Build4Vector p theta phi m_e))) =
                m_p * m_p + 2 * m_p * (E0 - E1) -
                (2 * E0 * (E1 - p * cos theta) - m_e * m_e)).
  { rewrite <- HQ. unfold DISANAMath_new, ComputeKinematics; cbn [Q2_].
    unfold Mag2, lv_plus, lv_minus, v3_minus, v3_Mag2; cbn [fE fP vX vY vZ].
    rewrite HE. ring. }
  rewrite Hnu, HQ.
  split; [reflexivity|]. split.
  { unfold DISANAMath_new, ComputeKinematics; cbn [y_ E lv_minus fE]. rewrite HE.
    reflexivity. }
  split; [reflexivity|]. split.
  { unfold DISANAMath_new, ComputeKinematics; cbn [xB_].
    change (- Mag2 (lv_minus (mkTLorentzVector (mkTVector3 0 0 E0) E0)
                             (Build4Vector p theta phi m_e)))
      with (Q2_ (DISANAMath_new E0 p theta phi p_out_p p_out_theta p_out_phi
                   g_p g_theta g_phi)).
    rewrite HQ. f_equal.
    unfold Dot, lv_minus, v3_minus; cbn [fE fP vX vY vZ]. rewrite HE. ring. }
  unfold DISANAMath_new, ComputeKinematics; cbn [W_]. unfold Mag. rewrite HW2.
  split; intros H.
  - rewrite Rltb_false by lra. reflexivity.
  - rewrite Rltb_true by lra. reflexivity.
Qed.

(** X3.  The momentum transfer the constructor computes from the recoil
    proton [(p, theta, phi)] is [t = 2 m_p (E_p - m_p)] with
    [E_p = sqrt (p^2 + m_p^2)]: twice the proton mass times the kinetic
    energy of the recoil proton, never negative, and independent of the
    other two particles. *)
Theorem DISANAMath_new_t
    (E0 e_out_p e_out_theta e_out_phi p theta phi g_p g_theta g_phi : R) :
  let k := DISANAMath_new E0 e_out_p e_out_theta e_out_phi p theta phi
                          g_p g_theta g_phi in
  let Ep := sqrt (p * p + m_p * m_p) in
  t_ k = 2 * m_p * (Ep - m_p) /\ 0 <= t_ k.
Proof.
  cbv zeta.
  pose proof (Build4Vector_E p theta phi m_p) as HE.
  pose proof (Build4Vector_E_sqr p theta phi m_p) as HE2.
  pose proof (spherical_Mag2 p theta phi) as HM.
  set (Ep := sqrt (p * p + m_p * m_p)) in *. unfold E in HE, HE2.
  assert (Hm : 0 < m_p) by (unfold m_p; lra).
  assert (Hle : m_p <= Ep).
  { unfold Ep. rewrite <- (sqrt_square m_p) at 1 by lra. apply sqrt_le_1_alt. nra. }
  assert (Ht : Mag2 (lv_minus (mkTLorentzVector (mkTVector3 0 0 0) m_p)
                              (Build4Vector p theta phi m_p)) =
               - (2 * m_p * (Ep - m_p))).
  { unfold Mag2, lv_minus; cbn [fE fP]. rewrite HE.
    assert (HV : v3_Mag2 (v3_minus (mkTVector3 0 0 0) (fP (Build4Vector p theta phi m_p)))
                 = p * p).
    { rewrite <- HM. unfold v3_Mag2, v3_minus, Build4Vector; cbn [fP vX vY vZ]. ring. }
    rewrite HV. rewrite HE in HE2. nra. }
  unfold DISANAMath_new, ComputeKinematics; cbn [t_]. rewrite Ht.
  rewrite Rabs_Ropp, Rabs_pos_eq by nra. split; [reflexivity|nra].
Qed.

End KinMore.

(** ** [ComputePhiH] *)

Section PhiH.
Import Kin Excl.
Local Open Scope R_scope.


Lemma v3_Mag2_nonneg a : 0 <= v3_Mag2 a.
Proof. unfold v3_Mag2. nra. Qed.












End PhiH.

(** ** The exclusivity members *)

Section ExclFacts.
Import Kin Excl.
Local Open Scope R_scope.

Lemma v3_Angle_range a q : 0 <= v3_Angle a q <= PI.
Proof.
  unfold v3_Angle. cbv zeta. pose proof PI_RGT_0.
  destruct (Rltb 0 (v3_Mag2 a * v3_Mag2 q)); cbn [negb]; [apply acos_bound|lra].
Qed.

Lemma degrees_range x : 0 <= x <= PI -> 0 <= x * 180 / pi <= 180.
Proof.
  intros [H0 H1]. unfold pi. pose proof PI_RGT_0 as HP. split.
  - apply Rmult_le_reg_r with PI; [exact HP|].
    unfold Rdiv. rewrite Rmult_assoc, Rinv_l, Rmult_1_r by lra. nra.
  - apply Rmult_le_reg_r with PI; [exact HP|].
    unfold Rdiv. rewrite Rmult_assoc, Rinv_l, Rmult_1_r by lra. nra.
Qed.

(** The angle of a vector with itself. *)
Lemma v3_Angle_self a : v3_Angle a a = 0.
Proof.
  unfold v3_Angle. cbv zeta.
  destruct (Rltb_spec 0 (v3_Mag2 a * v3_Mag2 a)) as [H|H]; cbn [negb]; [|reflexivity].
  assert (Hm : 0 < v3_Mag2 a) by (pose proof (v3_Mag2_nonneg a); nra).
  rewrite sqrt_square by lra.
  replace (v3_Dot a a) with (v3_Mag2 a) by reflexivity.
  replace (v3_Mag2 a / v3_Mag2 a) with 1 by (field; lra).
  rewrite (Rltb_false 1 1) by lra. rewrite (Rltb_false 1 (-1)) by lra. apply acos_1.
Qed.

(** X6.  Whatever the five vectors are, the missing energy and the energy
    balance are the same number, the transverse missing momentum is not
    negative, and the two opening angles lie between 0 and 180 degrees. *)
Theorem ComputeExclusivity_ranges
    (electron_in electron_out proton_in proton_out photon : TLorentzVector) :
  let x := ComputeExclusivity electron_in electron_out proton_in proton_out photon in
  emiss_ x = DeltaE_ x /\
  0 <= ptmiss_ x /\
  0 <= theta_gg_ x <= 180 /\
  0 <= Theta_e_gamma_ x <= 180.
Proof.
  cbv zeta. unfold ComputeExclusivity.
  cbn [emiss_ DeltaE_ ptmiss_ theta_gg_ Theta_e_gamma_].
  split; [unfold E, lv_minus, lv_plus; cbn [fE]; ring|].
  split; [unfold v3_Perp; apply sqrt_pos|].
  split; apply degrees_range; apply v3_Angle_range.
Qed.

(** X7.  For an event that conserves four-momentum (the two incoming
    vectors add up to the three outgoing ones), the missing energy, the
    transverse missing momentum, the missing mass squared of the whole
    final state, the energy balance and the angle between the photon and
    the missing momentum of the electron-proton system are all [0]; the
    missing mass squared of the electron-proton system is the invariant
    mass squared of the photon, and that of the electron-photon system is
    the invariant mass squared of the recoil proton. *)
Theorem ComputeExclusivity_conserved
    (electron_in electron_out proton_in proton_out photon : TLorentzVector) :
  lv_plus electron_in proton_in = lv_plus (lv_plus electron_out proton_out) photon ->
  let x := ComputeExclusivity electron_in electron_out proton_in proton_out photon in
  emiss_ x = 0 /\ ptmiss_ x = 0 /\ mx2_epg_ x = 0 /\ DeltaE_ x = 0 /\
  theta_gg_ x = 0 /\
  mx2_ep_ x = Mag2 photon /\
  mx2_egamma_ x = Mag2 proton_out.
Proof.
  intros Hc. cbv zeta.
  destruct electron_in as [[x0 y0 z0] e0], electron_out as [[x1 y1 z1] e1],
           proton_in as [[x2 y2 z2] e2], proton_out as [[x3 y3 z3] e3],
           photon as [[x4 y4 z4] e4].
  unfold lv_plus in Hc; cbn [fP fE vX vY vZ] in Hc.
  injection Hc as Hx Hy Hz He.
  unfold ComputeExclusivity.
  cbn [emiss_ DeltaE_ ptmiss_ mx2_epg_ theta_gg_ mx2_ep_ mx2_egamma_].
  assert (Hmiss : lv_minus (lv_plus (mkTLorentzVector (mkTVector3 x0 y0 z0) e0)
                                    (mkTLorentzVector (mkTVector3 x2 y2 z2) e2))
                    (lv_plus (lv_plus (mkTLorentzVector (mkTVector3 x1 y1 z1) e1)
                                      (mkTLorentzVector (mkTVector3 x3 y3 z3) e3))
                             (mkTLorentzVector (mkTVector3 x4 y4 z4) e4))
                  = mkTLorentzVector (mkTVector3 0 0 0) 0).
  { unfold lv_minus, lv_plus, v3_minus; cbn [fP fE vX vY vZ].
    rewrite Hx, Hy, Hz, He. f_equal; [f_equal|]; ring. }
  rewrite Hmiss.
  assert (Hep : lv_minus (lv_plus (mkTLorentzVector (mkTVector3 x0 y0 z0) e0)
                                  (mkTLorentzVector (mkTVector3 x2 y2 z2) e2))
                  (lv_plus (mkTLorentzVector (mkTVector3 x1 y1 z1) e1)
                           (mkTLorentzVector (mkTVector3 x3 y3 z3) e3))
                = mkTLorentzVector (mkTVector3 x4 y4 z4) e4).
  { unfold lv_minus, lv_plus, v3_minus; cbn [fP fE vX vY vZ].
    rewrite Hx, Hy, Hz, He. f_equal; [f_equal|]; ring. }
  rewrite Hep.
  split; [reflexivity|].
  split; [unfold v3_Perp, Vect; cbn [fP vX vY];
          replace (0 * 0 + 0 * 0) with 0 by ring; apply sqrt_0|].
  split; [unfold Mag2, v3_Mag2; cbn [fP fE vX vY vZ]; ring|].
  split; [unfold E; cbn [fE]; lra|].
  split.
  { unfold Angle, Vect; cbn [fP]. rewrite v3_Angle_self. unfold Rdiv. ring. }
  split.
  - unfold Mag2, v3_Mag2, lv_minus, lv_plus, v3_minus; cbn [fP fE vX vY vZ].
    rewrite Hx, Hy, Hz, He. ring.
  - unfold Mag2, v3_Mag2, lv_minus, lv_plus, v3_minus; cbn [fP fE vX vY vZ].
    rewrite Hx, Hy, Hz, He. ring.
Qed.

Lemma ComputeExclusivity_conserved_witness :
  mx2_epg_ (ComputeExclusivity
              (mkTLorentzVector (mkTVector3 0 0 3) 3)
              (mkTLorentzVector (mkTVector3 0 1 1) 2)
              (mkTLorentzVector (mkTVector3 0 0 0) 1)
              (mkTLorentzVector (mkTVector3 1 0 1) 1)
              (mkTLorentzVector (mkTVector3 (-1) (-1) 1) 1)) = 0.
Proof.
  apply (ComputeExclusivity_conserved
           (mkTLorentzVector (mkTVector3 0 0 3) 3)
           (mkTLorentzVector (mkTVector3 0 1 1) 2)
           (mkTLorentzVector (mkTVector3 0 0 0) 1)
           (mkTLorentzVector (mkTVector3 1 0 1) 1)
           (mkTLorentzVector (mkTVector3 (-1) (-1) 1) 1)).
  unfold lv_plus; cbn [fP fE vX vY vZ]. f_equal; [f_equal|]; lra.
Defined.

End ExclFacts.

(** ** [ComputeDVCS_CrossSection]: the grid and the event stream *)

Section DvcsMore.
Import Hist Bins BSA DVCS.
Local Open Scope R_scope.

Lemma sum_w_app this bins ix iq it b df1 df2 :
  sum_w this bins ix iq it b (df1 ++ df2) =
  sum_w this bins ix iq it b df1 + sum_w this bins ix iq it b df2.
Proof. induction df1 as [|r df1 IH]; cbn [app sum_w]; [lra|rewrite IH; lra]. Qed.

Lemma sum_w_perm this bins ix iq it b df df' :
  df ≡ₚ df' -> sum_w this bins ix iq it b df = sum_w this bins ix iq it b df'.
Proof.
  induction 1 as [|r l l' _ IH|r r' l|l l' l'' _ IH1 _ IH2]; cbn [sum_w].
  - reflexivity.
  - rewrite IH. reflexivity.
  - lra.
  - rewrite IH1. exact IH2.
Qed.

(** The readers, on a cell of the grid and an angular bin. *)
Lemma dvcs_content_error this df bins L w ix iq it b :
  (ix < length (GetXBBins bins) - 1)%nat ->
  (iq < length (GetQ2Bins bins) - 1)%nat ->
  (it < length (GetTBins bins) - 1)%nat ->
  (1 <= b <= 18)%nat ->
  dvcs_content this df bins L w ix iq it b = sum_w this bins ix iq it b df / (L * 20) /\
  dvcs_error this df bins L w ix iq it b =
  Rabs (sqrt (sum_w this bins ix iq it b df) / (L * 20)).
Proof.
  intros Hx Hq Ht Hb. unfold dvcs_content, dvcs_error.
  destruct (dvcs_bin_facts this df bins L w ix iq it b Hx Hq Ht Hb)
    as (_ & C & _ & _ & N1 & N2).
  rewrite C. split; [exact N1|exact N2].
Qed.

(** X8.  Whatever the events are, with edge lists that are not empty
    [ComputeDVCS_CrossSection] returns a full grid of [(|xB edges| - 1) x (|Q2 edges| - 1) x (|t edges| - 1)]
    cells.  Every cell holds a histogram allocated by the call, no two
    cells share one, the histograms that were there before are unchanged,
    and nothing is written to [std::cerr]. *)
Theorem DVCS_grid_layout this df bins L w :
  edges_present bins ->
  let out := ComputeDVCS_CrossSection this df bins L w in
  let n_xb := (length (GetXBBins bins) - 1)%nat in
  let n_q2 := (length (GetQ2Bins bins) - 1)%nat in
  let n_t := (length (GetTBins bins) - 1)%nat in
  shape out.1 = replicate n_xb (replicate n_q2 n_t) /\
  heap w `prefix_of` heap out.2 /\
  length (heap out.2) = (length (heap w) + n_xb * (n_q2 * n_t))%nat /\
  cerr out.2 = cerr w /\
  (forall ix iq it, (ix < n_xb)%nat -> (iq < n_q2)%nat -> (it < n_t)%nat ->
     exists p, cell out.1 ix iq it = Some p /\
               (length (heap w) <= p < length (heap out.2))%nat) /\
  (forall ix iq it ix' iq' it' p,
     (ix < n_xb)%nat -> (iq < n_q2)%nat -> (it < n_t)%nat ->
     (ix' < n_xb)%nat -> (iq' < n_q2)%nat -> (it' < n_t)%nat ->
     cell out.1 ix iq it = Some p -> cell out.1 ix' iq' it' = Some p ->
     (ix, iq, it) = (ix', iq', it')).
Proof.
  intros _ out n_xb n_q2 n_t.
  pose proof (ComputeDVCS_CrossSection_run this df bins L w) as Hr.
  unfold n_cells in Hr. fold n_xb n_q2 n_t out in Hr.
  assert (Hlen : length (heap out.2) = (length (heap w) + n_xb * (n_q2 * n_t))%nat).
  { rewrite Hr. cbn [snd heap].
    rewrite length_app, length_map, route_fold_length, length_replicate. reflexivity. }
  split; [rewrite Hr; cbn [fst]; apply shape_grid_of|].
  split; [rewrite Hr; cbn [snd heap]; apply prefix_app_r; reflexivity|].
  split; [exact Hlen|].
  split; [rewrite Hr; reflexivity|].
  split.
  - intros ix iq it Hx Hq Ht. eexists. split.
    + rewrite Hr. cbn [fst]. apply cell_grid_of; assumption.
    + pose proof (flat_index_lt _ _ _ _ _ _ Hx Hq Ht). lia.
  - intros ix iq it ix' iq' it' p Hx Hq Ht Hx' Hq' Ht'.
    rewrite Hr. cbn [fst]. rewrite !cell_grid_of by assumption.
    intros E1 E2. rewrite <- E2 in E1. injection E1 as E1.
    destruct (flat_index_inj n_q2 n_t ix iq it ix' iq' it' Hq Ht Hq' Ht' ltac:(lia))
      as (-> & -> & ->).
    reflexivity.
Qed.

Lemma DVCS_grid_layout_witness :
  exists p,
    cell (ComputeDVCS_CrossSection DISANAMath_default [one_event] BinManager_default 1
            (mkWorld [] [])).1 2 1 0 = Some p /\
    (length (heap (mkWorld [] [])) <= p <
     length (heap (ComputeDVCS_CrossSection DISANAMath_default [one_event]
                     BinManager_default 1 (mkWorld [] [])).2))%nat.
Proof.
  apply (DVCS_grid_layout DISANAMath_default [one_event] BinManager_default 1
           (mkWorld [] [])); try (cbn; lia).
  repeat split; cbn; lia.
Defined.

Lemma off_grid_route bins r : off_grid bins r -> route bins r = None.
Proof.
  unfold off_grid, route, row_cell. intros [H|[H|H]]; rewrite H; cbn [Z.leb Z.compare andb];
    rewrite ?andb_false_r; reflexivity.
Qed.

(** X9.  With edge lists that are not empty, an event for which one of
    the three look-ups fails leaves no trace: the call returns the same grid and the same heap, object for
    object, as on the stream without the event. *)
Theorem DVCS_off_grid_dropped this df1 r df2 bins L w :
  edges_present bins ->
  off_grid bins r ->
  ComputeDVCS_CrossSection this (df1 ++ r :: df2) bins L w =
  ComputeDVCS_CrossSection this (df1 ++ df2) bins L w.
Proof.
  intros _ Hoff.
  pose proof (ComputeDVCS_CrossSection_run this (df1 ++ r :: df2) bins L w) as H1.
  pose proof (ComputeDVCS_CrossSection_run this (df1 ++ df2) bins L w) as H2.
  unfold n_cells in H1, H2. rewrite H1, H2.
  rewrite !fold_left_app. cbn [fold_left].
  unfold route_step at 2. rewrite (off_grid_route _ _ Hoff). reflexivity.
Qed.

(** X9 at an event whose [Q2] lies below the first edge. *)
Lemma DVCS_off_grid_dropped_witness :
  ComputeDVCS_CrossSection DISANAMath_default ([one_event] ++ mkRow 0.5 0.2 0.15 190 :: [])
    BinManager_default 1 (mkWorld [] []) =
  ComputeDVCS_CrossSection DISANAMath_default ([one_event] ++ [])
    BinManager_default 1 (mkWorld [] []).
Proof.
  apply (DVCS_off_grid_dropped DISANAMath_default [one_event] (mkRow 0.5 0.2 0.15 190) []
           BinManager_default 1 (mkWorld [] [])).
  - repeat split; cbn; lia.
  - left. unfold findBin, upper_bound. cbn. unfold at_. cbn. Rdecide. reflexivity.
Defined.

(** X10.  Merging two event streams: for an exposure other than [0], in
    every angular bin the content of the concatenated stream is the sum of
    the contents of the two streams, and, when the exposure is positive
    and neither content is negative, the errors add in quadrature. *)
Theorem DVCS_additive this df1 df2 bins L w ix iq it b :
  (ix < length (GetXBBins bins) - 1)%nat ->
  (iq < length (GetQ2Bins bins) - 1)%nat ->
  (it < length (GetTBins bins) - 1)%nat ->
  (1 <= b <= 18)%nat ->
  L <> 0 ->
  let c12 := dvcs_content this (df1 ++ df2) bins L w ix iq it b in
  let c1 := dvcs_content this df1 bins L w ix iq it b in
  let c2 := dvcs_content this df2 bins L w ix iq it b in
  let e12 := dvcs_error this (df1 ++ df2) bins L w ix iq it b in
  let e1 := dvcs_error this df1 bins L w ix iq it b in
  let e2 := dvcs_error this df2 bins L w ix iq it b in
  c12 = c1 + c2 /\
  (0 < L -> 0 <= c1 -> 0 <= c2 -> e12 * e12 = e1 * e1 + e2 * e2).
Proof.
  intros Hx Hq Ht Hb _. cbv zeta.
  destruct (dvcs_content_error this (df1 ++ df2) bins L w ix iq it b Hx Hq Ht Hb) as [C12 E12].
  destruct (dvcs_content_error this df1 bins L w ix iq it b Hx Hq Ht Hb) as [C1 E1].
  destruct (dvcs_content_error this df2 bins L w ix iq it b Hx Hq Ht Hb) as [C2 E2].
  rewrite C12, C1, C2, E12, E1, E2, sum_w_app.
  set (S1 := sum_w this bins ix iq it b df1). set (S2 := sum_w this bins ix iq it b df2).
  split; [unfold Rdiv; ring|].
  intros HL H1 H2.
  assert (HL20 : 0 < L * 20) by lra.
  assert (P1 : 0 <= S1).
  { apply Rmult_le_reg_r with (/ (L * 20)); [apply Rinv_0_lt_compat; exact HL20|].
    unfold Rdiv in H1. lra. }
  assert (P2 : 0 <= S2).
  { apply Rmult_le_reg_r with (/ (L * 20)); [apply Rinv_0_lt_compat; exact HL20|].
    unfold Rdiv in H2. lra. }
  assert (Hsq : forall x, 0 <= x ->
            Rabs (sqrt x / (L * 20)) * Rabs (sqrt x / (L * 20)) = x / ((L * 20) * (L * 20))).
  { intros x Hx0. rewrite <- Rabs_mult, Rabs_pos_eq by nra.
    replace (sqrt x / (L * 20) * (sqrt x / (L * 20)))
      with (sqrt x * sqrt x / ((L * 20) * (L * 20))) by (field; lra).
    rewrite sqrt_sqrt by exact Hx0. reflexivity. }
  rewrite !Hsq by lra. field. lra.
Qed.

Lemma DVCS_additive_witness :
  dvcs_content DISANAMath_default ([one_event] ++ [one_event]) BinManager_default 1
    (mkWorld [] []) 0 0 0 10 =
  dvcs_content DISANAMath_default [one_event] BinManager_default 1 (mkWorld [] []) 0 0 0 10 +
  dvcs_content DISANAMath_default [one_event] BinManager_default 1 (mkWorld [] []) 0 0 0 10.
Proof.
  apply (DVCS_additive DISANAMath_default [one_event] [one_event] BinManager_default 1
           (mkWorld [] []) 0 0 0 10); try (cbn; lia). lra.
Defined.

(** X11.  The order of the events does not matter: two streams that are
    permutations of each other give the same content and the same error in
    every angular bin. *)
Theorem DVCS_order_irrelevant this df df' bins L w ix iq it b :
  df ≡ₚ df' ->
  (ix < length (GetXBBins bins) - 1)%nat ->
  (iq < length (GetQ2Bins bins) - 1)%nat ->
  (it < length (GetTBins bins) - 1)%nat ->
  (1 <= b <= 18)%nat ->
  dvcs_content this df bins L w ix iq it b = dvcs_content this df' bins L w ix iq it b /\
  dvcs_error this df bins L w ix iq it b = dvcs_error this df' bins L w ix iq it b.
Proof.
  intros Hp Hx Hq Ht Hb.
  destruct (dvcs_content_error this df bins L w ix iq it b Hx Hq Ht Hb) as [C1 E1].
  destruct (dvcs_content_error this df' bins L w ix iq it b Hx Hq Ht Hb) as [C2 E2].
  rewrite C1, C2, E1, E2, (sum_w_perm _ _ _ _ _ _ _ _ Hp). split; reflexivity.
Qed.

Lemma DVCS_order_irrelevant_witness :
  dvcs_content DISANAMath_default [one_event; mkRow 3 0.4 0.3 10] BinManager_default 1
    (mkWorld [] []) 0 0 0 10 =
  dvcs_content DISANAMath_default [mkRow 3 0.4 0.3 10; one_event] BinManager_default 1
    (mkWorld [] []) 0 0 0 10.
Proof.
  apply (DVCS_order_irrelevant DISANAMath_default [one_event; mkRow 3 0.4 0.3 10]
           [mkRow 3 0.4 0.3 10; one_event] BinManager_default 1 (mkWorld [] []) 0 0 0 10);
    [apply Permutation_swap | cbn; lia ..].
Defined.

Lemma fill_weight_off this r :
  applyCorrection this = false \/ correctionHist this = None -> fill_weight this r = 1.
Proof.
  unfold fill_weight. intros [-> | ->]; [|destruct (applyCorrection this)];
    cbv zeta; unfold Rdiv; rewrite Rinv_1; ring.
Qed.

Lemma sum_w_count this bins ix iq it b df :
  applyCorrection this = false \/ correctionHist this = None ->
  sum_w this bins ix iq it b df = INR (count bins ix iq it b df).
Proof.
  intros Hoff. unfold count. induction df as [|r df IH]; cbn [sum_w]; [reflexivity|].
  rewrite IH, (fill_weight_off _ _ Hoff).
  destruct (lands bins ix iq it b r) eqn:El.
  - rewrite filter_cons_True by exact El. cbn [length]. rewrite S_INR. lra.
  - rewrite filter_cons_False by (rewrite El; discriminate). lra.
Qed.

(** X12.  Without a correction (the switch off, or no table set), every
    event weighs [1]: with [n] events in an angular bin and a positive
    exposure [L], the content is [n / (L * 20)] and the error
    [sqrt n / (L * 20)]. *)
Theorem DVCS_unweighted_counts this df bins L w ix iq it b :
  applyCorrection this = false \/ correctionHist this = None ->
  0 < L ->
  (ix < length (GetXBBins bins) - 1)%nat ->
  (iq < length (GetQ2Bins bins) - 1)%nat ->
  (it < length (GetTBins bins) - 1)%nat ->
  (1 <= b <= 18)%nat ->
  let n := INR (count bins ix iq it b df) in
  dvcs_content this df bins L w ix iq it b = n / (L * 20) /\
  dvcs_error this df bins L w ix iq it b = sqrt n / (L * 20).
Proof.
  intros Hoff HL Hx Hq Ht Hb. cbv zeta.
  destruct (dvcs_content_error this df bins L w ix iq it b Hx Hq Ht Hb) as [C1 E1].
  rewrite C1, E1, (sum_w_count _ _ _ _ _ _ _ Hoff). split; [reflexivity|].
  apply Rabs_pos_eq. unfold Rdiv. apply Rmult_le_pos; [apply sqrt_pos|].
  left. apply Rinv_0_lt_compat. lra.
Qed.

Lemma DVCS_unweighted_counts_witness :
  dvcs_content DISANAMath_default [one_event; one_event] BinManager_default 2
    (mkWorld [] []) 0 0 0 10 =
  INR (count BinManager_default 0 0 0 10 [one_event; one_event]) / (2 * 20).
Proof.
  apply (DVCS_unweighted_counts DISANAMath_default [one_event; one_event]
           BinManager_default 2 (mkWorld [] []) 0 0 0 10);
    [left; reflexivity | lra | cbn; lia ..].
Defined.

Lemma FindBin_outside x :
  x < 0 \/ 360 <= x ->
  Axis.FindBin (fXaxis new_hist) x = 0%nat \/ Axis.FindBin (fXaxis new_hist) x = 19%nat.
Proof.
  unfold Axis.FindBin, new_hist, TH1D_new, phi_min, phi_max, n_phi_bins.
  cbn [fXaxis Axis.fXmin Axis.fXmax Axis.fNbins Axis.fXbins].
  intros [H|H].
  - left. rewrite Rltb_true by lra. reflexivity.
  - right. rewrite Rltb_false by lra. rewrite Rltb_false by lra. reflexivity.
Qed.

Lemma lands_outside bins ix iq it b r :
  row_phi r < 0 \/ 360 <= row_phi r -> (1 <= b <= 18)%nat ->
  lands bins ix iq it b r = false.
Proof.
  intros Hphi Hb. unfold lands.
  destruct (FindBin_outside _ Hphi) as [-> | ->];
    (replace (Nat.eqb _ b) with false by (symmetry; apply Nat.eqb_neq; lia));
    apply andb_false_r.
Qed.

(** X13.  The angular bins cover [[0, 360)]: an event whose angle is
    negative, or 360 degrees or more, changes neither the content nor the
    error of any angular bin. *)
Theorem DVCS_phi_outside this df1 r df2 bins L w ix iq it b :
  row_phi r < 0 \/ 360 <= row_phi r ->
  (ix < length (GetXBBins bins) - 1)%nat ->
  (iq < length (GetQ2Bins bins) - 1)%nat ->
  (it < length (GetTBins bins) - 1)%nat ->
  (1 <= b <= 18)%nat ->
  dvcs_content this (df1 ++ r :: df2) bins L w ix iq it b =
  dvcs_content this (df1 ++ df2) bins L w ix iq it b /\
  dvcs_error this (df1 ++ r :: df2) bins L w ix iq it b =
  dvcs_error this (df1 ++ df2) bins L w ix iq it b.
Proof.
  intros Hphi Hx Hq Ht Hb.
  destruct (dvcs_content_error this (df1 ++ r :: df2) bins L w ix iq it b Hx Hq Ht Hb)
    as [C1 E1].
  destruct (dvcs_content_error this (df1 ++ df2) bins L w ix iq it b Hx Hq Ht Hb)
    as [C2 E2].
  assert (Es : sum_w this bins ix iq it b (df1 ++ r :: df2) =
               sum_w this bins ix iq it b (df1 ++ df2)).
  { rewrite !sum_w_app. cbn [sum_w]. rewrite (lands_outside _ _ _ _ _ _ Hphi Hb). lra. }
  rewrite C1, C2, E1, E2, Es. split; reflexivity.
Qed.

(** X13 at an event with an angle of exactly 360 degrees. *)
Lemma DVCS_phi_outside_witness :
  dvcs_content DISANAMath_default ([one_event] ++ mkRow 1.5 0.2 0.15 360 :: [])
    BinManager_default 1 (mkWorld [] []) 0 0 0 18 =
  dvcs_content DISANAMath_default ([one_event] ++ [])
    BinManager_default 1 (mkWorld [] []) 0 0 0 18.
Proof.
  apply (DVCS_phi_outside DISANAMath_default [one_event] (mkRow 1.5 0.2 0.15 360) []
           BinManager_default 1 (mkWorld [] []) 0 0 0 18);
    [right; cbn; lra | cbn; lia ..].
Defined.

Lemma at_lookup (l : list R) i : at_ l i = default 0 (l !! i).
Proof. unfold at_. apply nth_lookup. Qed.

(** X14.  The normalisation runs over the angular bins only: the
    underflow cell [0] and the overflow cell [19] of every histogram hold
    the plain sum of the weights of the events that fell there, whatever
    the exposure is. *)
Theorem DVCS_overflow_raw this df bins L w ix iq it b :
  (ix < length (GetXBBins bins) - 1)%nat ->
  (iq < length (GetQ2Bins bins) - 1)%nat ->
  (it < length (GetTBins bins) - 1)%nat ->
  b = 0%nat \/ b = 19%nat ->
  dvcs_content this df bins L w ix iq it b = sum_w this bins ix iq it b df.
Proof.
  intros Hx Hq Ht Hb. unfold dvcs_content.
  pose proof (dvcs_cell this df bins L w ix iq it) as Hc.
  pose proof (acc_obj_bin this df bins ix iq it b) as Ha.
  unfold n_cells in Hc, Ha.
  destruct (Hc Hx Hq Ht) as (_ & _ & C2 & O2).
  destruct (Ha Hx Hq Ht ltac:(lia)) as ((Hcells & _) & Hn & A1 & _).
  rewrite C2, O2. unfold dvcs_obj, normalize_obj. rewrite Hn.
  destruct (norm_fold_other_content L 20 b (seq 1 18) _ Hcells) as ((Hl & _) & _ & Hb').
  - apply Forall_forall. intros x Hx'. apply elem_of_seq in Hx'. lia.
  - intros H0. apply elem_of_seq in H0. lia.
  - rewrite <- A1. unfold GetBinContent, RetrieveBinContent, clamp, fNcells.
    rewrite Hl. destruct Hcells as [Hl0 _]. rewrite Hl0.
    replace (Nat.min b (20 - 1)) with b by lia.
    rewrite !at_lookup, Hb'. reflexivity.
Qed.

Lemma DVCS_overflow_raw_witness :
  dvcs_content DISANAMath_default [mkRow 1.5 0.2 0.15 360] BinManager_default 5
    (mkWorld [] []) 0 0 0 19 =
  sum_w DISANAMath_default BinManager_default 0 0 0 19 [mkRow 1.5 0.2 0.15 360].
Proof.
  apply (DVCS_overflow_raw DISANAMath_default [mkRow 1.5 0.2 0.15 360] BinManager_default 5
           (mkWorld [] []) 0 0 0 19); [cbn; lia .. | right; reflexivity].
Defined.

Lemma sum_w_no_event this bins ix iq it b df :
  count bins ix iq it b df = 0%nat -> sum_w this bins ix iq it b df = 0.
Proof.
  unfold count. induction df as [|r df IH]; cbn [sum_w]; [reflexivity|].
  destruct (lands bins ix iq it b r) eqn:El.
  - rewrite filter_cons_True by exact El. cbn [length]. discriminate.
  - rewrite filter_cons_False by (rewrite El; discriminate). intros H.
    rewrite (IH H). lra.
Qed.

(** X15.  An angular bin into which no event fell, in particular every
    bin of an empty stream, holds content [0] with error [0] after the
    normalisation, for any exposure other than [0]. *)
Theorem DVCS_empty_bin this df bins L w ix iq it b :
  count bins ix iq it b df = 0%nat ->
  L <> 0 ->
  (ix < length (GetXBBins bins) - 1)%nat ->
  (iq < length (GetQ2Bins bins) - 1)%nat ->
  (it < length (GetTBins bins) - 1)%nat ->
  (1 <= b <= 18)%nat ->
  dvcs_content this df bins L w ix iq it b = 0 /\
  dvcs_error this df bins L w ix iq it b = 0.
Proof.
  intros Hn HL Hx Hq Ht Hb.
  destruct (dvcs_content_error this df bins L w ix iq it b Hx Hq Ht Hb) as [C1 E1].
  rewrite C1, E1, (sum_w_no_event _ _ _ _ _ _ _ Hn), sqrt_0.
  unfold Rdiv. rewrite !Rmult_0_l, Rabs_R0. split; reflexivity.
Qed.

(** X15 at the empty stream. *)
Lemma DVCS_empty_bin_witness :
  dvcs_content DISANAMath_default [] BinManager_default 1 (mkWorld [] []) 1 2 0 7 = 0 /\
  dvcs_error DISANAMath_default [] BinManager_default 1 (mkWorld [] []) 1 2 0 7 = 0.
Proof.
  apply (DVCS_empty_bin DISANAMath_default [] BinManager_default 1 (mkWorld [] []) 1 2 0 7);
    [reflexivity | lra | cbn; lia ..].
Defined.

End DvcsMore.

(** ** [ComputeBeamSpinAsymmetry]: symmetry, bounds and null cells *)

Section BsaAny.
Import Hist BSA.
Local Open Scope nat_scope.

#[local] Existing Instance extends_quietly_preorder.

(** The loops over the grid, for any property [Qc] of a cell that a turn of
    the innermost loop establishes and that later turns keep. *)
Variables (w0 : World) (pol : R) (sp sm : Grid).
Variable Qc : nat -> nat -> nat -> option nat -> World -> Prop.
Hypothesis Qc_stable : forall ix iq it r w w',
  Qc ix iq it r w -> extends_quietly w w' -> Qc ix iq it r w'.
Hypothesis Qc_cell : forall ix iq it w,
  extends_quietly w0 w ->
  Qc ix iq it (bsa_cell ix iq it (cell sp ix iq it) (cell sm ix iq it) pol w).1
              (bsa_cell ix iq it (cell sp ix iq it) (cell sm ix iq it) pol w).2.

Lemma bsa_q2_any ix iq w :
  extends_quietly w0 w ->
  let pos := nth iq (nth ix sp []) [] in
  let neg := nth iq (nth ix sm []) [] in
  match (bsa_q2 ix iq pos neg pol w).1 with
  | Some row => extends_quietly w (bsa_q2 ix iq pos neg pol w).2 /\
                Forall2 (fun it r => Qc ix iq it r (bsa_q2 ix iq pos neg pol w).2)
                        (seq 0 (length pos)) row
  | None => fails_with (mismatch_at sp sm) w (bsa_q2 ix iq pos neg pol w).2
  end.
Proof.
  intros Hw pos neg. unfold bsa_q2.
  destruct (Nat.eqb_spec (length pos) (length neg)) as [E|N]; cbn [negb].
  - rewrite run_bind, run_ret. cbn [fst snd].
    exact (for_collect_spec extends_quietly
             (fun it r w' => Qc ix iq it r w')
             (fun a b w1 w2 H1 H2 => Qc_stable _ _ _ _ _ _ H1 H2)
             w0 (seq 0 (length pos))
             (fun it => bsa_cell ix iq it (nth it pos None) (nth it neg None) pol)
             (fun it _ w1 Hw1 =>
                conj (proj1 (bsa_cell_spec w0 pol ix iq it _ _ w1 Hw1))
                     (Qc_cell ix iq it w1 Hw1))
             w Hw).
  - apply (report_fails (mismatch_at sp sm)). exact N.
Qed.

Lemma bsa_xb_any ix w :
  extends_quietly w0 w ->
  let pos := nth ix sp [] in
  let neg := nth ix sm [] in
  match (bsa_xb ix pos neg pol w).1 with
  | Some plane =>
      extends_quietly w (bsa_xb ix pos neg pol w).2 /\
      Forall2 (fun iq row =>
                 Forall2 (fun it r => Qc ix iq it r (bsa_xb ix pos neg pol w).2)
                         (seq 0 (length (nth iq pos []))) row)
              (seq 0 (length pos)) plane
  | None => fails_with (mismatch_at sp sm) w (bsa_xb ix pos neg pol w).2
  end.
Proof.
  intros Hw pos neg. unfold bsa_xb.
  destruct (Nat.eqb_spec (length pos) (length neg)) as [E|N]; cbn [negb].
  - exact (for_collect_or_return_spec extends_quietly
             (fun iq row w' =>
                Forall2 (fun it r => Qc ix iq it r w') (seq 0 (length (nth iq pos []))) row)
             (fun a b w1 w2 H1 H2 =>
                Forall2_impl _ _ _ _ H1 (fun it r H => Qc_stable _ _ _ _ _ _ H H2))
             (fails_with (mismatch_at sp sm))
             (fails_after (mismatch_at sp sm))
             w0 (seq 0 (length pos))
             (fun iq => bsa_q2 ix iq (nth iq pos []) (nth iq neg []) pol)
             (fun iq _ w1 Hw1 => bsa_q2_any ix iq w1 Hw1)
             w Hw).
  - apply (report_fails (mismatch_at sp sm)). exact N.
Qed.

Lemma ComputeBeamSpinAsymmetry_any :
  shape sp = shape sm ->
  let out := ComputeBeamSpinAsymmetry sp sm pol w0 in
  extends_quietly w0 out.2 /\
  forall ix iq it,
    ix < length sp -> iq < length (nth ix sp []) ->
    it < length (nth iq (nth ix sp []) []) ->
    Qc ix iq it (cell out.1 ix iq it) out.2.
Proof.
  intros Hshape. cbv zeta. unfold ComputeBeamSpinAsymmetry.
  destruct (Nat.eqb_spec (length sp) (length sm)) as [E|N]; cbn [negb].
  2:{ exfalso. apply N. rewrite <- (shape_length sp), Hshape. apply shape_length. }
  rewrite run_bind.
  pose proof (for_collect_or_return_spec extends_quietly
                (fun ix plane w' =>
                   Forall2 (fun iq row =>
                      Forall2 (fun it r => Qc ix iq it r w')
                              (seq 0 (length (nth iq (nth ix sp []) []))) row)
                   (seq 0 (length (nth ix sp []))) plane)
                (fun a b w1 w2 H1 H2 =>
                   Forall2_impl _ _ _ _ H1 (fun iq row Hr =>
                     Forall2_impl _ _ _ _ Hr (fun it r H => Qc_stable _ _ _ _ _ _ H H2)))
                (fails_with (mismatch_at sp sm))
                (fails_after (mismatch_at sp sm))
                w0 (seq 0 (length sp))
                (fun ix => bsa_xb ix (nth ix sp []) (nth ix sm []) pol)
                (fun ix _ w1 Hw1 => bsa_xb_any ix w1 Hw1)
                w0 ltac:(reflexivity)) as H.
  destruct (for_collect_or_return _ _ w0) as [[g|] w']; cbn [fst snd] in *.
  - destruct H as [HR HQ]. split; [exact HR|].
    intros ix iq it Hix Hiq Hit.
    destruct (Forall2_seq_nth _ _ _ [] HQ) as [_ Hplane].
    destruct (Forall2_seq_nth _ _ _ [] (Hplane ix Hix)) as [_ Hrow].
    destruct (Forall2_seq_nth _ _ _ None (Hrow iq Hiq)) as [_ Hc].
    exact (Hc it Hit).
  - exfalso. destruct H as (_ & mid & d & _ & _ & Hd).
    exact (mismatch_shape _ _ _ Hd Hshape).
Qed.

End BsaAny.

Section BsaMore.
Import Hist Bins BSA DVCS.
Local Open Scope R_scope.

(** The readers, on a cell whose two input histograms are there. *)
Lemma bsa_read (sp sm : Grid) pol w ix iq it hp hm b :
  shape sp = shape sm ->
  cell sp ix iq it = Some hp -> cell sm ix iq it = Some hm ->
  (hp < length (heap w))%nat -> (hm < length (heap w))%nat ->
  wf_hist (obj w hp) -> (1 <= b <= GetNbinsX (obj w hp))%nat ->
  let Np := GetBinContent (obj w hp) b in
  let Nm := GetBinContent (obj w hm) b in
  let Ep := GetBinError (obj w hp) b in
  let Em := GetBinError (obj w hm) b in
  bsa_content sp sm pol w ix iq it b = asym_A Np Nm / pol /\
  bsa_error sp sm pol w ix iq it b = Rabs (asym_E Np Nm Ep Em / pol).
Proof.
  intros Hshape Hcp Hcm Hhp Hhm Hwf Hb. cbv zeta. unfold bsa_content, bsa_error.
  destruct (ComputeBeamSpinAsymmetry_outcome sp sm pol w) as [[_ Hg]|[_ Hf]].
  2:{ destruct Hf as (_ & mid & d & _ & _ & Hd).
      exfalso. exact (mismatch_shape _ _ _ Hd Hshape). }
  destruct (grid_post_cells _ _ _ _ _ _ Hg) as (_ & _ & Hcells).
  destruct (cell_in_range _ _ _ _ _ Hcp) as (Hix & Hiq & Hit).
  specialize (Hcells ix iq it Hix Hiq Hit).
  unfold cell_post in Hcells. rewrite Hcp, Hcm in Hcells.
  destruct Hcells as (ha & Hha & _ & Hobj).
  specialize (Hobj Hhp Hhm). rewrite Hha.
  assert (Eo : obj (ComputeBeamSpinAsymmetry sp sm pol w).2 ha =
               bsa_obj (obj w hp) (obj w hm) pol).
  { unfold obj at 1. apply nth_lookup_Some. exact Hobj. }
  rewrite Eo. exact (bsa_obj_bin (obj w hp) (obj w hm) pol b Hwf Hb).
Qed.

Lemma nth_of_nil {A} (i : nat) (d : A) : nth i [] d = d.
Proof. destruct i; reflexivity. Qed.

Lemma grid_valid_one_row (w : World) (row : list (option nat)) :
  Forall (fun c => forall p, c = Some p -> (p < length (heap w))%nat) row ->
  grid_valid w [[row]].
Proof.
  intros H ix iq it p Hc. unfold cell in Hc.
  destruct ix as [|ix].
  2:{ change (nth (S ix) [[row]] []) with (nth ix (@nil (list (list (option nat)))) [])
        in Hc.
      rewrite !nth_of_nil in Hc. discriminate. }
  change (nth 0 [[row]] []) with [row] in Hc.
  destruct iq as [|iq].
  2:{ change (nth (S iq) [row] []) with (nth iq (@nil (list (option nat))) []) in Hc.
      rewrite !nth_of_nil in Hc. discriminate. }
  change (nth 0 [row] []) with row in Hc.
  rewrite nth_lookup in Hc.
  destruct (row !! it) as [c|] eqn:E; [|discriminate]. cbn in Hc. subst c.
  rewrite Forall_lookup in H. exact (H it _ E p eq_refl).
Qed.

Lemma asym_A_swap Np Nm : asym_A Nm Np = - asym_A Np Nm.
Proof.
  unfold asym_A. cbv zeta. rewrite (Rplus_comm Nm Np).
  destruct (Reqb_spec (Np + Nm) 0) as [E|N]; cbn [negb]; [lra|]. field. exact N.
Qed.

Lemma asym_E_swap Np Nm Ep Em : asym_E Nm Np Em Ep = asym_E Np Nm Ep Em.
Proof.
  unfold asym_E. cbv zeta. rewrite (Rplus_comm Nm Np).
  rewrite (Rplus_comm ((Np * Em) ^ 2)). reflexivity.
Qed.

(** X16.  For grids of live pointers, exchanging the two helicity grids
    turns the sign of the asymmetry and keeps its error, in every bin of
    every cell where both histograms are there. *)
Theorem BSA_antisymmetric (sp sm : Grid) (pol : R) (w : World)
    (ix iq it hp hm b : nat) :
  grid_valid w sp -> grid_valid w sm ->
  shape sp = shape sm ->
  cell sp ix iq it = Some hp -> cell sm ix iq it = Some hm ->
  (hp < length (heap w))%nat -> (hm < length (heap w))%nat ->
  wf_hist (obj w hp) -> wf_hist (obj w hm) ->
  (1 <= b <= GetNbinsX (obj w hp))%nat -> (b <= GetNbinsX (obj w hm))%nat ->
  pol <> 0 ->
  bsa_content sm sp pol w ix iq it b = - bsa_content sp sm pol w ix iq it b /\
  bsa_error sm sp pol w ix iq it b = bsa_error sp sm pol w ix iq it b.
Proof.
  intros _ _ Hshape Hcp Hcm Hhp Hhm Hwp Hwm Hb Hb' Hpol.
  destruct (bsa_read sp sm pol w ix iq it hp hm b Hshape Hcp Hcm Hhp Hhm Hwp Hb)
    as [C1 E1].
  destruct (bsa_read sm sp pol w ix iq it hm hp b (eq_sym Hshape) Hcm Hcp Hhm Hhp Hwm
              ltac:(lia)) as [C2 E2].
  rewrite C1, C2, E1, E2, asym_A_swap, asym_E_swap. split; [field; exact Hpol|reflexivity].
Qed.

Lemma BSA_antisymmetric_witness :
  bsa_content [[[Some 1%nat]]] [[[Some 0%nat]]] 1 two_hists 0 0 0 1 =
  - bsa_content [[[Some 0%nat]]] [[[Some 1%nat]]] 1 two_hists 0 0 0 1.
Proof.
  apply (BSA_antisymmetric [[[Some 0%nat]]] [[[Some 1%nat]]] 1 two_hists 0 0 0 0 1 1).
  - apply grid_valid_one_row.
    constructor; [intros q E; injection E as <-; cbn; lia | constructor].
  - apply grid_valid_one_row.
    constructor; [intros q E; injection E as <-; cbn; lia | constructor].
  - reflexivity.
  - reflexivity.
  - reflexivity.
  - cbn; lia.
  - cbn; lia.
  - split; [reflexivity | left; reflexivity].
  - split; [reflexivity | left; reflexivity].
  - cbn; lia.
  - cbn; lia.
  - lra.
Defined.

Lemma asym_A_bound Np Nm : 0 <= Np -> 0 <= Nm -> Rabs (asym_A Np Nm) <= 1.
Proof.
  intros Hp Hm. unfold asym_A. cbv zeta.
  destruct (Reqb_spec (Np + Nm) 0) as [E|N]; cbn [negb].
  - rewrite Rabs_R0. lra.
  - assert (Hd : 0 < Np + Nm) by lra.
    unfold Rdiv. rewrite Rabs_mult, (Rabs_pos_eq (/ (Np + Nm)))
      by (left; apply Rinv_0_lt_compat; exact Hd).
    apply Rmult_le_reg_r with (Np + Nm); [exact Hd|].
    rewrite Rmult_assoc, Rinv_l, Rmult_1_r, Rmult_1_l by lra.
    unfold Rabs. destruct (Rcase_abs (Np - Nm)); lra.
Qed.

(** X17.  For grids of live pointers and contents that are not negative,
    the asymmetry of a bin lies between [-1 / |pol|] and [1 / |pol|]:
    between [-1] and [1] for full polarisation. *)
Theorem BSA_bounded (sp sm : Grid) (pol : R) (w : World) (ix iq it hp hm b : nat) :
  grid_valid w sp -> grid_valid w sm ->
  shape sp = shape sm ->
  cell sp ix iq it = Some hp -> cell sm ix iq it = Some hm ->
  (hp < length (heap w))%nat -> (hm < length (heap w))%nat ->
  wf_hist (obj w hp) -> (1 <= b <= GetNbinsX (obj w hp))%nat ->
  pol <> 0 ->
  0 <= GetBinContent (obj w hp) b -> 0 <= GetBinContent (obj w hm) b ->
  Rabs (bsa_content sp sm pol w ix iq it b) <= 1 / Rabs pol.
Proof.
  intros _ _ Hshape Hcp Hcm Hhp Hhm Hwp Hb Hpol Hp Hm.
  destruct (bsa_read sp sm pol w ix iq it hp hm b Hshape Hcp Hcm Hhp Hhm Hwp Hb)
    as [C1 _].
  rewrite C1. pose proof (asym_A_bound _ _ Hp Hm) as HA.
  pose proof (Rabs_pos_lt _ Hpol) as Hpos.
  unfold Rdiv. rewrite Rabs_mult, Rabs_inv.
  apply Rmult_le_compat_r; [left; apply Rinv_0_lt_compat; exact Hpos | exact HA].
Qed.

Lemma BSA_bounded_witness :
  Rabs (bsa_content [[[Some 0%nat]]] [[[Some 1%nat]]] 0.8 two_hists 0 0 0 1)
  <= 1 / Rabs 0.8.
Proof.
  apply (BSA_bounded [[[Some 0%nat]]] [[[Some 1%nat]]] 0.8 two_hists 0 0 0 0 1 1).
  - apply grid_valid_one_row.
    constructor; [intros q E; injection E as <-; cbn; lia | constructor].
  - apply grid_valid_one_row.
    constructor; [intros q E; injection E as <-; cbn; lia | constructor].
  - reflexivity.
  - reflexivity.
  - reflexivity.
  - cbn; lia.
  - cbn; lia.
  - split; [reflexivity | left; reflexivity].
  - cbn; lia.
  - lra.
  - cbn. unfold at_; cbn. lra.
  - cbn. unfold at_; cbn. lra.
Defined.

(** X18.  For same-shaped grids of live pointers, a cell in which one of
    the two input histograms is missing stays empty in the result and is reported with a
    warning that names it; the result has the shape of the inputs, and
    nothing but warnings is reported. *)
Theorem BSA_null_cell (sp sm : Grid) (pol : R) (w : World) (ix iq it : nat) :
  grid_valid w sp -> grid_valid w sm ->
  shape sp = shape sm ->
  (ix < length sp)%nat -> (iq < length (nth ix sp []))%nat ->
  (it < length (nth iq (nth ix sp []) []))%nat ->
  cell sp ix iq it = None \/ cell sm ix iq it = None ->
  let out := ComputeBeamSpinAsymmetry sp sm pol w in
  shape out.1 = shape sp /\
  cell out.1 ix iq it = None /\
  WarnNullHist ix iq it ∈ cerr out.2 /\
  exists warnings, cerr out.2 = cerr w ++ warnings /\ forallb is_warning warnings = true.
Proof.
  intros _ _ Hshape Hix Hiq Hit Hnull out.
  destruct (ComputeBeamSpinAsymmetry_any w pol sp sm
              (fun ix iq it r w' =>
                 cell sp ix iq it = None \/ cell sm ix iq it = None ->
                 r = None /\ WarnNullHist ix iq it ∈ cerr w')) as [Hq Hc].
  - intros ix' iq' it' r w1 w2 H1 [_ (mid & E & _)] Hn.
    destruct (H1 Hn) as [-> Hin]. split; [reflexivity|].
    rewrite E. apply elem_of_app. left. exact Hin.
  - intros ix' iq' it' w1 _ Hn. rewrite bsa_cell_null by exact Hn. cbn [fst snd cerr].
    split; [reflexivity|]. apply elem_of_app. right. left.
  - exact Hshape.
  - fold out in Hq, Hc. destruct (Hc ix iq it Hix Hiq Hit Hnull) as [Hnone Hin].
    split; [|split; [exact Hnone|split; [exact Hin|exact (proj2 Hq)]]].
    destruct (ComputeBeamSpinAsymmetry_outcome sp sm pol w) as [[_ Hg]|[_ Hf]].
    + destruct (grid_post_cells _ _ _ _ _ _ Hg) as (_ & Hs & _). exact Hs.
    + destruct Hf as (_ & mid & d & _ & _ & Hd).
      exfalso. exact (mismatch_shape _ _ _ Hd Hshape).
Qed.

Lemma BSA_null_cell_witness :
  cell (ComputeBeamSpinAsymmetry [[[None; Some 0%nat]]] [[[Some 1%nat; Some 1%nat]]] 1
          two_hists).1 0 0 0 = None /\
  WarnNullHist 0 0 0 ∈
    cerr (ComputeBeamSpinAsymmetry [[[None; Some 0%nat]]] [[[Some 1%nat; Some 1%nat]]] 1
            two_hists).2.
Proof.
  destruct (BSA_null_cell [[[None; Some 0%nat]]] [[[Some 1%nat; Some 1%nat]]] 1
              two_hists 0 0 0) as (_ & H1 & H2 & _).
  - apply grid_valid_one_row.
    constructor; [intros q E; discriminate|].
    constructor; [intros q E; injection E as <-; cbn; lia | constructor].
  - apply grid_valid_one_row.
    constructor; [intros q E; injection E as <-; cbn; lia|].
    constructor; [intros q E; injection E as <-; cbn; lia | constructor].
  - reflexivity.
  - cbn; lia.
  - cbn; lia.
  - cbn; lia.
  - left. reflexivity.
  - split; assumption.
Defined.

End BsaMore.

(** ** Cross-sections into asymmetries *)

Section Pipeline.
Import Hist Bins BSA DVCS.
Local Open Scope R_scope.

Lemma dvcs_obj_wf this df bins L ix iq it :
  (ix < length (GetXBBins bins) - 1)%nat ->
  (iq < length (GetQ2Bins bins) - 1)%nat ->
  (it < length (GetTBins bins) - 1)%nat ->
  let k := (ix * ((length (GetQ2Bins bins) - 1) * (length (GetTBins bins) - 1)) +
            iq * (length (GetTBins bins) - 1) + it)%nat in
  wf_hist (dvcs_obj this df bins L k) /\ GetNbinsX (dvcs_obj this df bins L k) = 18%nat.
Proof.
  intros Hx Hq Ht k.
  pose proof (acc_obj_bin this df bins ix iq it 0) as Ha. unfold n_cells in Ha.
  destruct (Ha Hx Hq Ht ltac:(lia)) as ((Hc & _) & Hn & _). fold k in Hc, Hn.
  unfold dvcs_obj, normalize_obj. rewrite Hn.
  destruct (norm_fold_other_content L 20 0 (seq 1 18) _ Hc) as ((Hl & Hs) & Hax & _).
  - apply Forall_forall. intros x Hx'. apply elem_of_seq in Hx'. lia.
  - intros H0. apply elem_of_seq in H0. lia.
  - assert (HN : GetNbinsX (fold_left (norm_step L) (seq 1 18) (acc_obj this df bins k))
                 = 18%nat).
    { unfold GetNbinsX in *. rewrite Hax. exact Hn. }
    split; [|exact HN]. unfold wf_hist. rewrite HN, Hl. split; [reflexivity|].
    destruct Hs as [Hs|Hs]; [left; exact Hs|right; exact Hs].
Qed.

Lemma sqrt_over_square x K :
  0 <= x -> 0 < K -> sqrt (x / (K * K * (K * K))) = sqrt x / (K * K).
Proof.
  intros Hx HK. unfold Rdiv.
  rewrite sqrt_mult_alt by exact Hx.
  f_equal.
  replace (/ (K * K * (K * K))) with (/ (K * K) * / (K * K)) by (field; lra).
  apply sqrt_square. left. apply Rinv_0_lt_compat. nra.
Qed.

(** X19.  The asymmetry of two cross-section grids made from two event
    streams with the same edges and the same exposure [L] does not depend
    on [L].  With [Sp] and [Sm] the sums of the weights of the two streams
    in an angular bin, [Sp + Sm] not zero, the bin of the asymmetry holds
    [(Sp - Sm) / (Sp + Sm) / pol]; when [L] and [pol] are positive and
    neither sum is negative, its error is
    [2 sqrt (Sp Sm (Sp + Sm)) / (Sp + Sm)^2 / pol]. *)
Theorem BSA_of_cross_sections this df_pos df_neg bins L pol w ix iq it b :
  (ix < length (GetXBBins bins) - 1)%nat ->
  (iq < length (GetQ2Bins bins) - 1)%nat ->
  (it < length (GetTBins bins) - 1)%nat ->
  (1 <= b <= 18)%nat ->
  L <> 0 -> pol <> 0 ->
  let Sp := sum_w this bins ix iq it b df_pos in
  let Sm := sum_w this bins ix iq it b df_neg in
  Sp + Sm <> 0 ->
  let Xp := ComputeDVCS_CrossSection this df_pos bins L w in
  let Xm := ComputeDVCS_CrossSection this df_neg bins L Xp.2 in
  bsa_content Xp.1 Xm.1 pol Xm.2 ix iq it b = (Sp - Sm) / (Sp + Sm) / pol /\
  (0 < L -> 0 < pol -> 0 <= Sp -> 0 <= Sm ->
   bsa_error Xp.1 Xm.1 pol Xm.2 ix iq it b =
   2 * sqrt (Sp * Sm * (Sp + Sm)) / ((Sp + Sm) * (Sp + Sm)) / pol).
Proof.
  intros Hx Hq Ht Hb HL Hpol Sp Sm Hden Xp Xm.
  destruct (dvcs_run_facts this df_pos bins L w ix iq it Hx Hq Ht) as (_ & pp & Cp & Lp & Op).
  destruct (dvcs_run_facts this df_neg bins L Xp.2 ix iq it Hx Hq Ht)
    as (Pm & pm & Cm & Lm & Om).
  fold Xp in Cp, Lp, Op. fold Xm in Pm, Cm, Lm, Om.
  destruct (dvcs_bin_facts this df_pos bins L w ix iq it b Hx Hq Ht Hb)
    as (_ & Cp' & _ & _ & Np & Ep).
  destruct (dvcs_bin_facts this df_neg bins L Xp.2 ix iq it b Hx Hq Ht Hb)
    as (_ & Cm' & _ & _ & Nm & Em).
  fold Xp in Cp', Np, Ep. fold Xm in Cm', Nm, Em. fold Sp in Np, Ep. fold Sm in Nm, Em.
  rewrite Cp in Cp'. injection Cp' as Epp. rewrite <- Epp in Np, Ep.
  rewrite Cm in Cm'. injection Cm' as Epm. rewrite <- Epm in Nm, Em.
  assert (Oobj : obj Xm.2 pp = obj Xp.2 pp) by (apply prefix_obj; assumption).
  assert (Lp' : (pp < length (heap Xm.2))%nat).
  { pose proof (prefix_length _ _ Pm). lia. }
  destruct (dvcs_obj_wf this df_pos bins L ix iq it Hx Hq Ht) as [Hwf Hn18].
  rewrite <- Op, <- Oobj in Hwf, Hn18.
  assert (Hshape : shape Xp.1 = shape Xm.1).
  { pose proof (ComputeDVCS_CrossSection_run this df_pos bins L w) as R1.
    pose proof (ComputeDVCS_CrossSection_run this df_neg bins L Xp.2) as R2.
    unfold n_cells in R1, R2. fold Xp in R1, R2. fold Xm in R2.
    rewrite R1 at 1. rewrite R2. cbn [fst]. rewrite !shape_grid_of. reflexivity. }
  destruct (bsa_read Xp.1 Xm.1 pol Xm.2 ix iq it pp pm b Hshape Cp Cm Lp' Lm Hwf
              ltac:(rewrite Hn18; exact Hb)) as [HC HE].
  rewrite Oobj, Np, Nm in HC. rewrite Oobj, Np, Ep, Nm, Em in HE.
  assert (HK : L * 20 <> 0) by lra.
  assert (Hd' : Sp / (L * 20) + Sm / (L * 20) <> 0).
  { replace (Sp / (L * 20) + Sm / (L * 20)) with ((Sp + Sm) / (L * 20)) by (field; assumption).
    unfold Rdiv. apply Rmult_integral_contrapositive. split; [exact Hden|].
    apply Rinv_neq_0_compat. exact HK. }
  split.
  - rewrite HC. unfold asym_A. cbv zeta. rewrite (Reqb_false _ _ Hd'). cbn [negb].
    field. repeat split; assumption.
  - intros HLpos Hppos HSp HSm. rewrite HE. unfold asym_E. cbv zeta.
    rewrite (Reqb_false _ _ Hd'). cbn [negb].
    set (K := L * 20) in *. assert (HKpos : 0 < K) by (unfold K; lra).
    rewrite !(Rabs_pos_eq (sqrt _ / K))
      by (unfold Rdiv; apply Rmult_le_pos; [apply sqrt_pos|left; apply Rinv_0_lt_compat; exact HKpos]).
    assert (Hin : (Sm / K * (sqrt Sp / K)) ^ 2 + (Sp / K * (sqrt Sm / K)) ^ 2 =
                  Sp * Sm * (Sp + Sm) / (K * K * (K * K))).
    { pose proof (sqrt_sqrt _ HSp) as Qp. pose proof (sqrt_sqrt _ HSm) as Qm.
      replace ((Sm / K * (sqrt Sp / K)) ^ 2 + (Sp / K * (sqrt Sm / K)) ^ 2)
        with ((Sm * Sm * (sqrt Sp * sqrt Sp) + Sp * Sp * (sqrt Sm * sqrt Sm))
              / (K * K * (K * K))) by (field; lra).
      rewrite Qp, Qm. field. lra. }
    rewrite Hin, sqrt_over_square by (try exact HKpos; nra).
    rewrite Rabs_pos_eq.
    + field. repeat split; lra.
    + pose proof (Rsqr_pos_lt _ Hd') as Hsq. unfold Rsqr in Hsq.
      unfold Rdiv. apply Rmult_le_pos; [|left; apply Rinv_0_lt_compat; exact Hppos].
      apply Rmult_le_pos.
      * apply Rmult_le_pos; [lra|]. left. apply Rinv_0_lt_compat. exact Hsq.
      * apply Rmult_le_pos; [apply sqrt_pos|]. left. apply Rinv_0_lt_compat. nra.
Qed.

(** X19 at one event in the first stream and none in the second: the
    asymmetry of the bin of the event is [1]. *)
Lemma BSA_of_cross_sections_witness :
  bsa_content
    (ComputeDVCS_CrossSection DISANAMath_default [one_event] BinManager_default 3
       (mkWorld [] [])).1
    (ComputeDVCS_CrossSection DISANAMath_default [] BinManager_default 3
       (ComputeDVCS_CrossSection DISANAMath_default [one_event] BinManager_default 3
          (mkWorld [] [])).2).1
    1
    (ComputeDVCS_CrossSection DISANAMath_default [] BinManager_default 3
       (ComputeDVCS_CrossSection DISANAMath_default [one_event] BinManager_default 3
          (mkWorld [] [])).2).2
    0 0 0 10
  = (sum_w DISANAMath_default BinManager_default 0 0 0 10 [one_event] -
     sum_w DISANAMath_default BinManager_default 0 0 0 10 []) /
    (sum_w DISANAMath_default BinManager_default 0 0 0 10 [one_event] +
     sum_w DISANAMath_default BinManager_default 0 0 0 10 []) / 1.
Proof.
  apply (BSA_of_cross_sections DISANAMath_default [one_event] [] BinManager_default 3 1
           (mkWorld [] []) 0 0 0 10); try (cbn; lia); try lra.
  rewrite sum_w_one_event, bool_decide_eq_true_2 by reflexivity.
  cbn [Nat.eqb andb sum_w]. unfold fill_weight; cbn. lra.
Defined.

End Pipeline.

(** ** [CalcPi0Corr]: what it allocates and what it reports *)

Section Pi0Frame.
Import Hist Bins BSA DVCS HistPtr Pi0.
Local Open Scope nat_scope.
Variables (g1 g2 g3 g4 : list (list (list (option nat)))) (n_t n_q2 n_xb : nat).
Variable w0 : World.
Hypothesis Hin : pi0_inputs_ok g1 g2 g3 g4 n_t n_q2 n_xb w0.

(** [n] objects were allocated since [w0], and nothing else happened. *)
Let J (n : nat) (w' : World) : Prop :=
  heap w0 `prefix_of` heap w' /\ cerr w' = cerr w0 /\
  length (heap w') = length (heap w0) + n.

Lemma pi0_cell_frame n hCorr w' t q2 xb :
  t < n_t -> q2 < n_q2 -> xb < n_xb ->
  J n w' -> J (S n) (pi0_cell g1 g2 g3 g4 t q2 xb hCorr w').2.
Proof.
  intros Ht Hq Hx (Hp & Hc & Hl).
  destruct (Hin t q2 xb Ht Hq Hx)
    as (p1 & p2 & p3 & p4 & C1 & C2 & C3 & C4 & L1 & L2 & L3 & L4 & N2 & N3 & N4).
  assert (Hobj : forall p, p < length (heap w0) -> obj w' p = obj w0 p).
  { intros p Hlt. destruct Hp as [ext Hext]. unfold obj. rewrite Hext.
    apply app_nth1. exact Hlt. }
  destruct (pi0_cell_run g1 g2 g3 g4 t q2 xb hCorr w' p1 p2 p3 p4 C1 C2 C3 C4)
    as (o & Erun & _); try lia.
  { rewrite !Hobj by assumption. exact N2. }
  { rewrite !Hobj by assumption. exact N3. }
  { rewrite !Hobj by assumption. exact N4. }
  rewrite Erun. cbn [snd]. split; [|split]; cbn [heap cerr].
  - etransitivity; [exact Hp | apply prefix_app_r; reflexivity].
  - exact Hc.
  - rewrite length_app. cbn [length]. lia.
Qed.

Lemma pi0_xb_frame n hCorr w' t q2 :
  t < n_t -> q2 < n_q2 -> J n w' ->
  J (n + n_xb)
    (for_fold (seq 0 n_xb) hCorr
       (fun xb_bin hCorr => pi0_cell g1 g2 g3 g4 t q2 xb_bin hCorr) w').2.
Proof.
  intros Ht Hq HJ.
  pose proof (for_fold_inv (fun done (s : list (list (list (option nat)))) w =>
                              J (n + length done) w)
                (fun xb_bin hCorr => pi0_cell g1 g2 g3 g4 t q2 xb_bin hCorr)
                (seq 0 n_xb)) as H.
  cbv beta in H. rewrite length_seq in H. apply H.
  - intros done a s w HI Ha. apply elem_of_seq in Ha.
    rewrite length_app. cbn [length]. replace (n + (length done + 1)) with (S (n + length done)) by lia.
    apply pi0_cell_frame; [exact Ht | exact Hq | lia | exact HI].
  - cbn [length]. rewrite Nat.add_0_r. exact HJ.
Qed.

Lemma pi0_q2_frame n hCorr w' t :
  t < n_t -> J n w' ->
  J (n + n_q2 * n_xb)
    (for_fold (seq 0 n_q2) hCorr (fun q2_bin hCorr =>
       for_fold (seq 0 n_xb) hCorr
         (fun xb_bin hCorr => pi0_cell g1 g2 g3 g4 t q2_bin xb_bin hCorr)) w').2.
Proof.
  intros Ht HJ.
  pose proof (for_fold_inv (fun done (s : list (list (list (option nat)))) w =>
                              J (n + length done * n_xb) w)
                (fun q2_bin hCorr =>
                   for_fold (seq 0 n_xb) hCorr
                     (fun xb_bin hCorr => pi0_cell g1 g2 g3 g4 t q2_bin xb_bin hCorr))
                (seq 0 n_q2)) as H.
  cbv beta in H. rewrite length_seq in H. apply H.
  - intros done a s w HI Ha. apply elem_of_seq in Ha.
    rewrite length_app. cbn [length].
    replace (n + (length done + 1) * n_xb) with (n + length done * n_xb + n_xb) by lia.
    apply pi0_xb_frame; [exact Ht | lia | exact HI].
  - cbn [length]. rewrite Nat.mul_0_l, Nat.add_0_r. exact HJ.
Qed.

Lemma pi0_combine_frame :
  let out := pi0_combine n_t n_q2 n_xb g1 g2 g3 g4 w0 in
  heap w0 `prefix_of` heap out.2 /\ cerr out.2 = cerr w0 /\
  length (heap out.2) = length (heap w0) + n_t * (n_q2 * n_xb).
Proof.
  cbv zeta. unfold pi0_combine.
  pose proof (for_fold_inv (fun done (s : list (list (list (option nat)))) w =>
                              J (length done * (n_q2 * n_xb)) w)
                (fun t_bin hCorr =>
                   for_fold (seq 0 n_q2) hCorr (fun q2_bin hCorr =>
                     for_fold (seq 0 n_xb) hCorr
                       (fun xb_bin hCorr =>
                          pi0_cell g1 g2 g3 g4 t_bin q2_bin xb_bin hCorr)))
                (seq 0 n_t)) as H.
  cbv beta in H. rewrite length_seq in H. apply H.
  - intros done a s w HI Ha. apply elem_of_seq in Ha.
    rewrite length_app. cbn [length].
    replace ((length done + 1) * (n_q2 * n_xb))
      with (length done * (n_q2 * n_xb) + n_q2 * n_xb) by lia.
    apply pi0_q2_frame; [lia | exact HI].
  - cbn [length]. split; [reflexivity|]. split; [reflexivity|]. lia.
Qed.

End Pi0Frame.

(** The three loops of [CalcPi0Corr], for any invariant [Kv D] that says
    something of the cells in [D], is kept by a turn of the innermost loop
    and can forget cells. *)
Section Pi0Rule.
Import Hist Bins BSA DVCS HistPtr Pi0.
Local Open Scope nat_scope.
Variables (g1 g2 g3 g4 : list (list (list (option nat)))) (n_t n_q2 n_xb : nat).
Variable Kv : (nat -> nat -> nat -> Prop) -> list (list (list (option nat))) -> World -> Prop.
Hypothesis Kv_mono : forall (D D' : nat -> nat -> nat -> Prop) hCorr w',
  (forall t q2 xb, t < n_t -> q2 < n_q2 -> xb < n_xb -> D' t q2 xb -> D t q2 xb) ->
  Kv D hCorr w' -> Kv D' hCorr w'.
Hypothesis Kv_step : forall (D : nat -> nat -> nat -> Prop) hCorr w' t q2 xb,
  t < n_t -> q2 < n_q2 -> xb < n_xb ->
  Kv D hCorr w' ->
  Kv (fun t' q2' xb' => D t' q2' xb' \/ (t', q2', xb') = (t, q2, xb))
     (pi0_cell g1 g2 g3 g4 t q2 xb hCorr w').1
     (pi0_cell g1 g2 g3 g4 t q2 xb hCorr w').2.

Lemma pi0_xb_rule (D : nat -> nat -> nat -> Prop) t q2 hCorr w' :
  t < n_t -> q2 < n_q2 ->
  Kv D hCorr w' ->
  let c := for_fold (seq 0 n_xb) hCorr
             (fun xb_bin hCorr => pi0_cell g1 g2 g3 g4 t q2 xb_bin hCorr) in
  Kv (fun t' q2' xb' => D t' q2' xb' \/ (t' = t /\ q2' = q2)) (c w').1 (c w').2.
Proof.
  intros Ht Hq HI c. subst c.
  pose proof (for_fold_inv
    (fun done s w => Kv (fun t' q2' xb' => D t' q2' xb' \/
                           (t' = t /\ q2' = q2 /\ xb' ∈ done)) s w)
    (fun xb_bin hCorr => pi0_cell g1 g2 g3 g4 t q2 xb_bin hCorr)
    (seq 0 n_xb)) as H.
  cbv beta in H.
  eapply Kv_mono; [|apply H].
  - intros t' q2' xb' _ _ Hx' [HD|[-> ->]]; [left; exact HD|].
    right. split; [reflexivity|]. split; [reflexivity|]. apply elem_of_seq. lia.
  - intros done a s w HI' Ha. apply elem_of_seq in Ha.
    eapply Kv_mono; [|apply (Kv_step _ s w t q2 a Ht Hq ltac:(lia) HI')].
    intros t' q2' xb' _ _ _ [HD|(-> & -> & Hd)].
    + left; left; exact HD.
    + apply elem_of_app in Hd as [Hd|Hd].
      * left; right; auto.
      * apply list_elem_of_singleton in Hd as ->. right; reflexivity.
  - eapply Kv_mono; [|exact HI].
    intros t' q2' xb' _ _ _ [HD|(_ & _ & Hd)]; [exact HD|].
    apply elem_of_nil in Hd. contradiction.
Qed.

Lemma pi0_q2_rule (D : nat -> nat -> nat -> Prop) t hCorr w' :
  t < n_t ->
  Kv D hCorr w' ->
  let c := for_fold (seq 0 n_q2) hCorr (fun q2_bin hCorr =>
             for_fold (seq 0 n_xb) hCorr
               (fun xb_bin hCorr => pi0_cell g1 g2 g3 g4 t q2_bin xb_bin hCorr)) in
  Kv (fun t' q2' xb' => D t' q2' xb' \/ t' = t) (c w').1 (c w').2.
Proof.
  intros Ht HI c. subst c.
  pose proof (for_fold_inv
    (fun done s w => Kv (fun t' q2' xb' => D t' q2' xb' \/ (t' = t /\ q2' ∈ done)) s w)
    (fun q2_bin hCorr =>
       for_fold (seq 0 n_xb) hCorr
         (fun xb_bin hCorr => pi0_cell g1 g2 g3 g4 t q2_bin xb_bin hCorr))
    (seq 0 n_q2)) as H.
  cbv beta in H.
  eapply Kv_mono; [|apply H].
  - intros t' q2' xb' _ Hq' _ [HD| ->]; [left; exact HD|].
    right. split; [reflexivity|]. apply elem_of_seq. lia.
  - intros done a s w HI' Ha. apply elem_of_seq in Ha.
    eapply Kv_mono; [|apply (pi0_xb_rule _ t a s w Ht ltac:(lia) HI')].
    intros t' q2' xb' _ _ _ [HD|(-> & Hd)].
    + left; left; exact HD.
    + apply elem_of_app in Hd as [Hd|Hd].
      * left; right; auto.
      * apply list_elem_of_singleton in Hd as ->. right; auto.
  - eapply Kv_mono; [|exact HI].
    intros t' q2' xb' _ _ _ [HD|(_ & Hd)]; [exact HD|].
    apply elem_of_nil in Hd. contradiction.
Qed.

Lemma pi0_combine_rule w0 :
  Kv (fun _ _ _ => False) (replicate n_xb (replicate n_q2 (replicate n_t None))) w0 ->
  Kv (fun _ _ _ => True)
     (pi0_combine n_t n_q2 n_xb g1 g2 g3 g4 w0).1
     (pi0_combine n_t n_q2 n_xb g1 g2 g3 g4 w0).2.
Proof.
  intros H0. unfold pi0_combine. cbv zeta.
  pose proof (for_fold_inv
    (fun done s w => Kv (fun t' q2' xb' => t' ∈ done) s w)
    (fun t_bin hCorr =>
       for_fold (seq 0 n_q2) hCorr (fun q2_bin hCorr =>
         for_fold (seq 0 n_xb) hCorr
           (fun xb_bin hCorr => pi0_cell g1 g2 g3 g4 t_bin q2_bin xb_bin hCorr)))
    (seq 0 n_t)) as H.
  cbv beta in H.
  eapply Kv_mono; [|apply H].
  - intros t' q2' xb' Ht' _ _ _. apply elem_of_seq. lia.
  - intros done a s w HI' Ha. apply elem_of_seq in Ha.
    eapply Kv_mono; [|apply (pi0_q2_rule _ a s w ltac:(lia) HI')].
    intros t' q2' xb' _ _ _ Hd.
    apply elem_of_app in Hd as [Hd|Hd]; [left; exact Hd|].
    apply list_elem_of_singleton in Hd as ->. right; reflexivity.
  - eapply Kv_mono; [|exact H0].
    intros t' q2' xb' _ _ _ Hd. apply elem_of_nil in Hd. contradiction.
Qed.

End Pi0Rule.

(** No two cells of the result share a histogram. *)
Section Pi0Distinct.
Import Hist Bins BSA DVCS HistPtr Pi0.
Local Open Scope nat_scope.
Variables (g1 g2 g3 g4 : list (list (list (option nat)))) (n_t n_q2 n_xb : nat).
Variable w0 : World.
Hypothesis Hin : pi0_inputs_ok g1 g2 g3 g4 n_t n_q2 n_xb w0.

(** The cells in [D] hold pointers into the heap, each its own. *)
Let K (D : nat -> nat -> nat -> Prop) (hCorr : list (list (list (option nat))))
    (w' : World) : Prop :=
  heap w0 `prefix_of` heap w' /\
  shape hCorr = replicate n_xb (replicate n_q2 n_t) /\
  forall t q2 xb, t < n_t -> q2 < n_q2 -> xb < n_xb -> D t q2 xb ->
    exists hr, cell hCorr xb q2 t = Some hr /\ hr < length (heap w') /\
      forall t' q2' xb', t' < n_t -> q2' < n_q2 -> xb' < n_xb -> D t' q2' xb' ->
        cell hCorr xb' q2' t' = Some hr -> (t', q2', xb') = (t, q2, xb).

Lemma pi0_distinct_mono (D D' : nat -> nat -> nat -> Prop) hCorr w' :
  (forall t q2 xb, t < n_t -> q2 < n_q2 -> xb < n_xb -> D' t q2 xb -> D t q2 xb) ->
  K D hCorr w' -> K D' hCorr w'.
Proof.
  intros Hsub (Hp & Hs & Hc). split; [exact Hp|]. split; [exact Hs|].
  intros t q2 xb Ht Hq Hx HD.
  destruct (Hc t q2 xb Ht Hq Hx (Hsub _ _ _ Ht Hq Hx HD)) as (hr & C & L & U).
  exists hr. split; [exact C|]. split; [exact L|].
  intros t' q2' xb' Ht' Hq' Hx' HD'. apply U; auto.
Qed.

Lemma pi0_distinct_step (D : nat -> nat -> nat -> Prop) hCorr w' t q2 xb :
  t < n_t -> q2 < n_q2 -> xb < n_xb ->
  K D hCorr w' ->
  K (fun t' q2' xb' => D t' q2' xb' \/ (t', q2', xb') = (t, q2, xb))
    (pi0_cell g1 g2 g3 g4 t q2 xb hCorr w').1
    (pi0_cell g1 g2 g3 g4 t q2 xb hCorr w').2.
Proof.
  intros Ht Hq Hx (Hp & Hs & Hc).
  destruct (Hin t q2 xb Ht Hq Hx)
    as (p1 & p2 & p3 & p4 & C1 & C2 & C3 & C4 & L1 & L2 & L3 & L4 & N2 & N3 & N4).
  pose proof (prefix_length _ _ Hp) as Hlen.
  assert (Hobj : forall p, p < length (heap w0) -> obj w' p = obj w0 p).
  { intros p Hlt. destruct Hp as [ext Hext]. unfold obj. rewrite Hext.
    apply app_nth1. exact Hlt. }
  destruct (pi0_cell_run g1 g2 g3 g4 t q2 xb hCorr w' p1 p2 p3 p4 C1 C2 C3 C4)
    as (o & Erun & _); try lia.
  { rewrite !Hobj by assumption. exact N2. }
  { rewrite !Hobj by assumption. exact N3. }
  { rewrite !Hobj by assumption. exact N4. }
  rewrite Erun. cbn [fst snd].
  destruct (shape_replicate_range hCorr n_xb n_q2 n_t xb q2 Hs Hx Hq) as (Sx & Sq & St).
  assert (Hnew : cell (cell_set hCorr xb q2 t (Some (length (heap w')))) xb q2 t =
                 Some (length (heap w'))) by (apply cell_cell_set_same; lia).
  assert (Hold : forall t' q2' xb', (xb, q2, t) <> (xb', q2', t') ->
            cell (cell_set hCorr xb q2 t (Some (length (heap w')))) xb' q2' t' =
            cell hCorr xb' q2' t').
  { intros t' q2' xb' N. apply cell_cell_set_other; [lia | lia | exact N]. }
  split; [cbn [heap]; etransitivity; [exact Hp | apply prefix_app_r; reflexivity]|].
  split; [rewrite shape_cell_set; exact Hs|].
  intros ta qa xa Hta Hqa Hxa HDa. cbn [heap]. rewrite length_app. cbn [length].
  destruct (decide ((xb, q2, t) = (xa, qa, ta))) as [E|N].
  - injection E as <- <- <-.
    exists (length (heap w')). split; [exact Hnew|]. split; [lia|].
    intros tb qb xb' Htb Hqb Hxb HDb Hcb.
    destruct (decide ((xb, q2, t) = (xb', qb, tb))) as [E'|N'].
    + injection E' as <- <- <-. reflexivity.
    + exfalso. rewrite (Hold _ _ _ N') in Hcb.
      destruct HDb as [HDb|HDb]; [|apply N'; injection HDb as -> -> ->; reflexivity].
      destruct (Hc tb qb xb' Htb Hqb Hxb HDb) as (hr & C & L & _).
      rewrite C in Hcb. injection Hcb as ->. lia.
  - destruct HDa as [HDa|HDa]; [|exfalso; apply N; injection HDa as -> -> ->; reflexivity].
    destruct (Hc ta qa xa Hta Hqa Hxa HDa) as (hr & C & L & U).
    exists hr. split; [rewrite (Hold _ _ _ N); exact C|]. split; [lia|].
    intros tb qb xb' Htb Hqb Hxb HDb Hcb.
    destruct (decide ((xb, q2, t) = (xb', qb, tb))) as [E'|N'].
    + exfalso. injection E' as <- <- <-. rewrite Hnew in Hcb. injection Hcb as <-. lia.
    + rewrite (Hold _ _ _ N') in Hcb.
      destruct HDb as [HDb|HDb]; [|exfalso; apply N'; injection HDb as -> -> ->; reflexivity].
      apply U; assumption.
Qed.

Lemma pi0_combine_distinct :
  let out := pi0_combine n_t n_q2 n_xb g1 g2 g3 g4 w0 in
  forall t q2 xb t' q2' xb' hr,
    t < n_t -> q2 < n_q2 -> xb < n_xb -> t' < n_t -> q2' < n_q2 -> xb' < n_xb ->
    cell out.1 xb q2 t = Some hr -> cell out.1 xb' q2' t' = Some hr ->
    (xb', q2', t') = (xb, q2, t).
Proof.
  cbv zeta.
  destruct (pi0_combine_rule g1 g2 g3 g4 n_t n_q2 n_xb K pi0_distinct_mono
              pi0_distinct_step w0) as (_ & _ & Hc).
  - split; [reflexivity|]. split.
    + unfold shape. rewrite !map_replicate. cbn. rewrite length_replicate. reflexivity.
    + intros t q2 xb _ _ _ [].
  - intros t q2 xb t' q2' xb' hr Ht Hq Hx Ht' Hq' Hx' C C'.
    destruct (Hc t q2 xb Ht Hq Hx I) as (hr0 & C0 & _ & U).
    rewrite C in C0. injection C0 as <-.
    pose proof (U t' q2' xb' Ht' Hq' Hx' I C') as E. injection E as -> -> ->.
    reflexivity.
Qed.

End Pi0Distinct.

Section Pi0More.
Import Hist Bins BSA DVCS HistPtr Pi0.
Local Open Scope R_scope.

(** The four grids [CalcPi0Corr] makes fit its loops. *)
Lemma calc_inputs_ok df1 df2 df3 df4 xBins w :
  let X1 := ComputeDVCS_CrossSection DISANAMath_default df1 xBins 1 w in
  let X2 := ComputeDVCS_CrossSection DISANAMath_default df2 xBins 1 X1.2 in
  let X3 := ComputeDVCS_CrossSection DISANAMath_default df3 xBins 1 X2.2 in
  let X4 := ComputeDVCS_CrossSection DISANAMath_default df4 xBins 1 X3.2 in
  pi0_inputs_ok X1.1 X2.1 X3.1 X4.1 (length (GetTBins xBins) - 1)
    (length (GetQ2Bins xBins) - 1) (length (GetXBBins xBins) - 1) X4.2.
Proof.
  intros X1 X2 X3 X4 t' q2' xb' Ht' Hq' Hx'.
  destruct (dvcs_run_facts DISANAMath_default df1 xBins 1 w xb' q2' t' Hx' Hq' Ht')
    as (P1 & p1 & C1 & L1 & O1).
  destruct (dvcs_run_facts DISANAMath_default df2 xBins 1 X1.2 xb' q2' t' Hx' Hq' Ht')
    as (P2 & p2 & C2 & L2 & O2).
  destruct (dvcs_run_facts DISANAMath_default df3 xBins 1 X2.2 xb' q2' t' Hx' Hq' Ht')
    as (P3 & p3 & C3 & L3 & O3).
  destruct (dvcs_run_facts DISANAMath_default df4 xBins 1 X3.2 xb' q2' t' Hx' Hq' Ht')
    as (P4 & p4 & C4 & L4 & O4).
  fold X1 in P1, C1, L1, O1. fold X2 in P2, C2, L2, O2.
  fold X3 in P3, C3, L3, O3. fold X4 in P4, C4, L4, O4.
  pose proof (prefix_length _ _ P2). pose proof (prefix_length _ _ P3).
  pose proof (prefix_length _ _ P4).
  assert (P34 : heap X3.2 `prefix_of` heap X4.2) by exact P4.
  assert (P24 : heap X2.2 `prefix_of` heap X4.2) by (etransitivity; [exact P3|exact P4]).
  assert (P14 : heap X1.2 `prefix_of` heap X4.2) by (etransitivity; [exact P2|exact P24]).
  exists p1, p2, p3, p4. repeat (split; [first [assumption | lia]|]).
  rewrite (prefix_obj X1.2 X4.2 p1 P14 L1), (prefix_obj X2.2 X4.2 p2 P24 L2),
          (prefix_obj X3.2 X4.2 p3 P34 L3), O1, O2, O3, O4.
  destruct (dvcs_obj_shape DISANAMath_default df1 xBins 1 xb' q2' t' Hx' Hq' Ht') as [_ N1].
  destruct (dvcs_obj_shape DISANAMath_default df2 xBins 1 xb' q2' t' Hx' Hq' Ht') as [_ N2].
  destruct (dvcs_obj_shape DISANAMath_default df3 xBins 1 xb' q2' t' Hx' Hq' Ht') as [_ N3].
  destruct (dvcs_obj_shape DISANAMath_default df4 xBins 1 xb' q2' t' Hx' Hq' Ht') as [_ N4].
  rewrite N1, N2, N3, N4. repeat split.
Qed.

Lemma dvcs_run_heap this df bins L w :
  let X := ComputeDVCS_CrossSection this df bins L w in
  heap w `prefix_of` heap X.2 /\ cerr X.2 = cerr w /\
  length (heap X.2) =
  (length (heap w) + (length (GetXBBins bins) - 1) *
     ((length (GetQ2Bins bins) - 1) * (length (GetTBins bins) - 1)))%nat.
Proof.
  intros X. pose proof (ComputeDVCS_CrossSection_run this df bins L w) as Hr.
  unfold n_cells in Hr. fold X in Hr. rewrite Hr. cbn [snd heap cerr].
  split; [apply prefix_app_r; reflexivity|]. split; [reflexivity|].
  rewrite length_app, length_map, route_fold_length, length_replicate. reflexivity.
Qed.

(** X20.  With edge lists that are not empty, [CalcPi0Corr] returns a full
    grid: every cell holds a histogram allocated after the four
    cross-section grids, and no two cells hold the same one.  The warning
    for a missing histogram is never given, since the four grids the
    function makes are full.  With [N] cells the call leaves [5 N] new
    histograms on the heap (the four grids of cross-sections stay there),
    and the histograms that were there before are unchanged. *)
Theorem CalcPi0Corr_layout df_dvcs_mc df_pi0_mc df_dvcs_data df_pi0_data xBins w :
  edges_present xBins ->
  let out := CalcPi0Corr df_dvcs_mc df_pi0_mc df_dvcs_data df_pi0_data xBins w in
  let n_xb := (length (GetXBBins xBins) - 1)%nat in
  let n_q2 := (length (GetQ2Bins xBins) - 1)%nat in
  let n_t := (length (GetTBins xBins) - 1)%nat in
  shape out.1 = replicate n_xb (replicate n_q2 n_t) /\
  heap w `prefix_of` heap out.2 /\
  cerr out.2 = cerr w /\
  length (heap out.2) = (length (heap w) + 5 * (n_xb * (n_q2 * n_t)))%nat /\
  (forall xb q2 t, (xb < n_xb)%nat -> (q2 < n_q2)%nat -> (t < n_t)%nat ->
     exists hr, cell out.1 xb q2 t = Some hr /\
       (length (heap w) + 4 * (n_xb * (n_q2 * n_t)) <= hr < length (heap out.2))%nat) /\
  (forall xb q2 t xb' q2' t' hr,
     (xb < n_xb)%nat -> (q2 < n_q2)%nat -> (t < n_t)%nat ->
     (xb' < n_xb)%nat -> (q2' < n_q2)%nat -> (t' < n_t)%nat ->
     cell out.1 xb q2 t = Some hr -> cell out.1 xb' q2' t' = Some hr ->
     (xb, q2, t) = (xb', q2', t')).
Proof.
  intros _ out n_xb n_q2 n_t. subst out. unfold CalcPi0Corr. cbv zeta.
  rewrite !run_bind.
  set (X1 := ComputeDVCS_CrossSection _ df_dvcs_mc xBins 1 w).
  set (X2 := ComputeDVCS_CrossSection _ df_pi0_mc xBins 1 X1.2).
  set (X3 := ComputeDVCS_CrossSection _ df_dvcs_data xBins 1 X2.2).
  set (X4 := ComputeDVCS_CrossSection _ df_pi0_data xBins 1 X3.2).
  fold n_xb n_q2 n_t.
  pose proof (calc_inputs_ok df_dvcs_mc df_pi0_mc df_dvcs_data df_pi0_data xBins w) as Hin.
  cbv zeta in Hin. fold X1 X2 X3 X4 n_xb n_q2 n_t in Hin.
  destruct (dvcs_run_heap DISANAMath_default df_dvcs_mc xBins 1 w) as (P1 & E1 & H1).
  destruct (dvcs_run_heap DISANAMath_default df_pi0_mc xBins 1 X1.2) as (P2 & E2 & H2).
  destruct (dvcs_run_heap DISANAMath_default df_dvcs_data xBins 1 X2.2) as (P3 & E3 & H3).
  destruct (dvcs_run_heap DISANAMath_default df_pi0_data xBins 1 X3.2) as (P4 & E4 & H4).
  fold X1 in P1, E1, H1, P2, E2, H2. fold X2 in P2, E2, H2, P3, E3, H3.
  fold X3 in P3, E3, H3, P4, E4, H4. fold X4 in P4, E4, H4.
  fold n_xb n_q2 n_t in H1, H2, H3, H4.
  destruct (pi0_combine_frame _ _ _ _ n_t n_q2 n_xb X4.2 Hin) as (Pc & Ec & Hc).
  destruct (pi0_combine_spec _ _ _ _ n_t n_q2 n_xb X4.2 Hin) as (_ & Hs & Hdone).
  split; [exact Hs|].
  split; [etransitivity; [exact P1|]; etransitivity; [exact P2|];
          etransitivity; [exact P3|]; etransitivity; [exact P4|exact Pc]|].
  split; [rewrite Ec, E4, E3, E2, E1; reflexivity|].
  split; [rewrite Hc, H4, H3, H2, H1; lia|].
  split.
  - intros xb q2 t Hx Hq Ht.
    destruct (Hdone t q2 xb Ht Hq Hx I)
      as (hr & o & _ & _ & _ & _ & _ & _ & _ & _ & Dc & Dh & Dl & _).
    exists hr. split; [exact Dc|].
    apply lookup_lt_Some in Dl. lia.
  - intros xb q2 t xb' q2' t' hr Hx Hq Ht Hx' Hq' Ht' C C'.
    symmetry.
    exact (pi0_combine_distinct _ _ _ _ n_t n_q2 n_xb X4.2 Hin
             t q2 xb t' q2' xb' hr Ht Hq Hx Ht' Hq' Hx' C C').
Qed.

Lemma CalcPi0Corr_layout_witness :
  exists hr,
    cell (CalcPi0Corr [one_event] [] [one_event] [] BinManager_default
            (mkWorld [] [])).1 2 0 1 = Some hr /\
    (length (heap (mkWorld [] [])) + 4 * (3 * (3 * 3)) <= hr <
     length (heap (CalcPi0Corr [one_event] [] [one_event] [] BinManager_default
                     (mkWorld [] [])).2))%nat.
Proof.
  apply (CalcPi0Corr_layout [one_event] [] [one_event] [] BinManager_default
           (mkWorld [] [])); try (cbn; lia).
  repeat split; cbn; lia.
Defined.

Lemma pi0_content_value df1 df2 df3 df4 xBins w xb q2 t b :
  (xb < length (GetXBBins xBins) - 1)%nat ->
  (q2 < length (GetQ2Bins xBins) - 1)%nat ->
  (t < length (GetTBins xBins) - 1)%nat ->
  (b < 20)%nat ->
  pi0_content df1 df2 df3 df4 xBins w xb q2 t b =
  pi0_value (xsec_content df1 xBins w xb q2 t b) (xsec_content df2 xBins w xb q2 t b)
            (xsec_content df3 xBins w xb q2 t b) (xsec_content df4 xBins w xb q2 t b).
Proof.
  intros Hx Hq Ht Hb. unfold pi0_content.
  destruct (pi0_bin_facts df1 df2 df3 df4 xBins w xb q2 t b Hx Hq Ht Hb) as (hr & C & V).
  rewrite C. exact V.
Qed.

(** X21.  Exchanging the simulation with the data (signal with signal,
    background with background) inverts the correction: in a bin where the
    four input contents are not zero, the two corrections multiply
    to [1]. *)
Theorem CalcPi0Corr_reciprocal df_dvcs_mc df_pi0_mc df_dvcs_data df_pi0_data
    xBins w xb q2 t b :
  (xb < length (GetXBBins xBins) - 1)%nat ->
  (q2 < length (GetQ2Bins xBins) - 1)%nat ->
  (t < length (GetTBins xBins) - 1)%nat ->
  (b < 20)%nat ->
  xsec_content df_dvcs_mc xBins w xb q2 t b <> 0 ->
  xsec_content df_pi0_mc xBins w xb q2 t b <> 0 ->
  xsec_content df_dvcs_data xBins w xb q2 t b <> 0 ->
  xsec_content df_pi0_data xBins w xb q2 t b <> 0 ->
  pi0_content df_dvcs_data df_pi0_data df_dvcs_mc df_pi0_mc xBins w xb q2 t b *
  pi0_content df_dvcs_mc df_pi0_mc df_dvcs_data df_pi0_data xBins w xb q2 t b = 1.
Proof.
  intros Hx Hq Ht Hb N1 N2 N3 N4.
  rewrite !pi0_content_value by assumption.
  rewrite !pi0_value_nonzero by assumption. field. repeat split; assumption.
Qed.

Lemma CalcPi0Corr_reciprocal_witness :
  pi0_content [one_event] [one_event] [one_event] [one_event] BinManager_default
    (mkWorld [] []) 0 0 0 10 *
  pi0_content [one_event] [one_event] [one_event] [one_event] BinManager_default
    (mkWorld [] []) 0 0 0 10 = 1.
Proof.
  apply (CalcPi0Corr_reciprocal [one_event] [one_event] [one_event] [one_event]
           BinManager_default (mkWorld [] []) 0 0 0 10);
    try (cbn; lia);
    rewrite xsec_content_one_event by lia; cbn [Nat.eqb]; lra.
Defined.

End Pi0More.

(** ** [findBin] on edges that repeat, and on too few edges *)

Section FindBinMore.
Local Open Scope R_scope.

Lemma upper_bound_loop_nondecreasing edges val :
  nondecreasing edges ->
  forall fuel first len,
    (len <= fuel)%nat ->
    (first + len <= length edges)%nat ->
    (forall i, (i < first)%nat -> at_ edges i <= val) ->
    (forall i, (first + len <= i < length edges)%nat -> val < at_ edges i) ->
    let r := upper_bound_loop fuel edges val first len in
    (r <= length edges)%nat /\
    (forall i, (i < r)%nat -> at_ edges i <= val) /\
    (forall i, (r <= i < length edges)%nat -> val < at_ edges i).
Proof.
  intros Hs fuel; induction fuel as [|fuel IH]; intros first len Hf Hb Hl Hr.
  - assert (len = 0)%nat by lia; subst len. simpl.
    split; [lia|]. split; [exact Hl|]. intros i Hi; apply Hr; lia.
  - destruct len as [|len'].
    + simpl. split; [lia|]. split; [exact Hl|]. intros i Hi; apply Hr; lia.
    + cbn [upper_bound_loop]. cbv zeta.
      pose proof (div2_lt_S len') as Hh.
      set (half := Nat.div2 (S len')) in *.
      destruct (Rltb_spec val (at_ edges (first + half)%nat)) as [Hlt|Hge].
      * apply IH; try lia; [exact Hl|].
        intros i Hi.
        apply Rlt_le_trans with (at_ edges (first + half)%nat); [exact Hlt|].
        apply Hs; lia.
      * apply IH; try lia.
        -- intros i Hi.
           apply Rle_trans with (at_ edges (first + half)%nat); [|lra].
           apply Hs; lia.
        -- intros i Hi; apply Hr; lia.
Qed.

Lemma upper_bound_nondecreasing edges val :
  nondecreasing edges ->
  let r := upper_bound edges val in
  (r <= length edges)%nat /\
  (forall i, (i < r)%nat -> at_ edges i <= val) /\
  (forall i, (r <= i < length edges)%nat -> val < at_ edges i).
Proof.
  intros Hs. unfold upper_bound.
  apply upper_bound_loop_nondecreasing; try lia; try exact Hs; intros i Hi; lia.
Qed.

(** [findBin] by the position [upper_bound] returns. *)
Lemma findBin_by_position edges val :
  nondecreasing edges ->
  (findBin val edges = (-1)%Z /\
   (edges = [] \/ val < at_ edges 0 \/ at_ edges (length edges - 1) <= val)) \/
  (exists i, findBin val edges = Z.of_nat i /\ in_bin edges val i /\
             forall j, in_bin edges val j -> j = i).
Proof.
  intros Hs. destruct (upper_bound_nondecreasing edges val Hs) as (Hr & Hlo & Hhi).
  unfold findBin. set (r := upper_bound edges val) in *.
  destruct (Nat.eqb_spec r 0) as [E0|N0]; cbn [orb].
  - left. split; [reflexivity|].
    destruct edges as [|e edges']; [left; reflexivity|].
    right; left. apply Hhi. cbn [length]. lia.
  - destruct (Nat.eqb_spec r (length edges)) as [El|Nl].
    + left. split; [reflexivity|]. right; right. apply Hlo. lia.
    + right. exists (r - 1)%nat.
      split; [lia|]. split.
      * split; [lia|]. split; [apply Hlo; lia|].
        replace (S (r - 1)) with r by lia. apply Hhi. lia.
      * intros j (Hj & Hge & Hlt).
        destruct (Nat.lt_trichotomy j (r - 1)%nat) as [Hc|[->|Hc]];
          [exfalso|reflexivity|exfalso].
        -- assert (at_ edges (S j) <= val) by (apply Hlo; lia). lra.
        -- assert (val < at_ edges j) by (apply Hhi; lia). lra.
Qed.

(** X22.  On edges that never decrease, repeated values allowed,
    [findBin] still returns the one bin [i] with
    [edges[i] <= val < edges[i+1]] when there is one and [-1] when there is
    none; a bin of width zero is never returned, and a larger value never
    gets a smaller bin. *)
Theorem findBin_nondecreasing (edges : list R) (val : R) :
  nondecreasing edges ->
  (findBin val edges = (-1)%Z <-> forall i, ~ in_bin edges val i) /\
  (forall i, in_bin edges val i <-> findBin val edges = Z.of_nat i) /\
  (forall i, findBin val edges = Z.of_nat i -> at_ edges i < at_ edges (S i)) /\
  (forall val', val <= val' -> findBin val edges <> (-1)%Z ->
     findBin val' edges <> (-1)%Z -> (findBin val edges <= findBin val' edges)%Z).
Proof.
  intros Hs.
  assert (Hout : forall v, findBin v edges = (-1)%Z -> forall i, ~ in_bin edges v i).
  { intros v E i Hi. destruct (findBin_by_position edges v Hs) as [[_ H]|(k & Ek & _)];
      [|rewrite E in Ek; lia].
    destruct Hi as (Hi & Hge & Hlt). destruct H as [-> |[H|H]].
    - cbn in Hi. lia.
    - assert (at_ edges 0 <= at_ edges i) by (apply Hs; lia). lra.
    - assert (at_ edges (S i) <= at_ edges (length edges - 1)) by (apply Hs; lia). lra. }
  assert (Hin : forall v i, in_bin edges v i <-> findBin v edges = Z.of_nat i).
  { intros v i. destruct (findBin_by_position edges v Hs) as [[E H]|(k & Ek & Hk & Hu)].
    - split; [intros Hi; exfalso; exact (Hout v E i Hi)|rewrite E; lia].
    - split; [intros Hi; rewrite (Hu i Hi); exact Ek|].
      rewrite Ek. intros Ei. apply Nat2Z.inj in Ei. subst k. exact Hk. }
  split; [|split; [|split]].
  - split; [apply Hout|]. intros Hno.
    destruct (findBin_by_position edges val Hs) as [[E _]|(k & _ & Hk & _)];
      [exact E|exfalso; exact (Hno k Hk)].
  - apply Hin.
  - intros i Ei. apply Hin in Ei. destruct Ei as (_ & H1 & H2). lra.
  - intros val' Hle N1 N2.
    destruct (findBin_by_position edges val Hs) as [[E _]|(k & Ek & Hk & _)];
      [contradiction|].
    destruct (findBin_by_position edges val' Hs) as [[E _]|(k' & Ek' & Hk' & _)];
      [contradiction|].
    rewrite Ek, Ek'. apply inj_le.
    destruct (Nat.le_gt_cases k k') as [H|H]; [exact H|exfalso].
    destruct Hk as (Hk1 & Hk2 & Hk3). destruct Hk' as (Hk1' & Hk2' & Hk3').
    assert (at_ edges (S k') <= at_ edges k) by (apply Hs; lia). lra.
Qed.

(** X22 at edges with a bin of width zero between [2] and [2]. *)
Lemma findBin_nondecreasing_witness :
  in_bin [1; 2; 2; 4] 2 2 <-> findBin 2 [1; 2; 2; 4] = Z.of_nat 2.
Proof.
  apply (findBin_nondecreasing [1; 2; 2; 4] 2).
  intros i j Hij. cbn [length] in Hij.
  assert (Hc : (i = 0 \/ i = 1 \/ i = 2 \/ i = 3)%nat) by lia.
  assert (Hd : (j = 0 \/ j = 1 \/ j = 2 \/ j = 3)%nat) by lia.
  destruct Hc as [-> |[-> |[-> | ->]]], Hd as [-> |[-> |[-> | ->]]];
    unfold at_; cbn [nth]; first [lra | lia].
Defined.

(** X23.  With fewer than two edges there is no bin: [findBin] answers
    [-1] for every value, whatever the edge is. *)
Theorem findBin_too_few_edges (edges : list R) (val : R) :
  (length edges < 2)%nat -> findBin val edges = (-1)%Z.
Proof.
  intros Hl. destruct (findBin_range val edges) as [E|H]; [exact E|]. lia.
Qed.

Lemma findBin_too_few_edges_witness : findBin 3 [1] = (-1)%Z.
Proof. apply (findBin_too_few_edges [1] 3). cbn. lia. Defined.

End FindBinMore.

(** ** [NormalizeHistogram] *)

Section Normalize.
Import Hist Comparer.
Local Open Scope R_scope.

Lemma at_map_scale c (l : list R) b : at_ (map (fun x => c * x) l) b = c * at_ l b.
Proof.
  unfold at_. rewrite <- (Rmult_0_r c) at 1.
  exact (map_nth (fun x => c * x) l 0 b).
Qed.

Lemma at_map_scale_r c (l : list R) b : at_ (map (fun x => x * c) l) b = at_ l b * c.
Proof.
  unfold at_. rewrite <- (Rmult_0_l c) at 1.
  exact (map_nth (fun x => x * c) l 0 b).
Qed.

Lemma fold_sum_scale (f g : nat -> R) c (l : list nat) :
  (forall b, b ∈ l -> g b = c * f b) ->
  forall a, fold_left (fun acc b => acc + g b) l (c * a) =
            c * fold_left (fun acc b => acc + f b) l a.
Proof.
  induction l as [|x l IH]; intros Hg a; cbn [fold_left]; [reflexivity|].
  rewrite (Hg x) by left. replace (c * a + c * f x) with (c * (a + f x)) by ring.
  apply IH. intros b Hb. apply Hg. right. exact Hb.
Qed.

Lemma Sumw2_keeps h : fXaxis (Sumw2 h) = fXaxis h /\ fArray (Sumw2 h) = fArray h.
Proof. unfold Sumw2. destruct (fSumw2 h); split; reflexivity. Qed.

Lemma Scale_content h c b :
  fXaxis (Scale h c) = fXaxis h /\
  length (fArray (Scale h c)) = length (fArray h) /\
  RetrieveBinContent (Scale h c) b = c * RetrieveBinContent h b.
Proof.
  unfold Scale. cbv zeta. cbn [fXaxis fArray]. unfold RetrieveBinContent. cbn [fArray].
  destruct (Nat.eqb (GetSumw2N h) 0).
  - destruct (Sumw2_keeps h) as [-> ->].
    split; [reflexivity|]. split; [apply length_map|apply at_map_scale].
  - split; [reflexivity|]. split; [apply length_map|apply at_map_scale].
Qed.

Lemma Scale_Integral h c : Integral (Scale h c) = c * Integral h.
Proof.
  unfold Integral, sum_bins.
  destruct (Scale_content h c 0) as (Hax & _ & _).
  unfold GetNbinsX. rewrite Hax.
  rewrite <- (Rmult_0_r c) at 1. apply fold_sum_scale.
  intros b _. apply (Scale_content h c b).
Qed.

Lemma sqrt_scale x c : 0 <= c -> sqrt (x * (c * c)) = sqrt x * c.
Proof.
  intros Hc. destruct (Rle_lt_dec 0 x) as [Hx|Hx].
  - rewrite sqrt_mult_alt by exact Hx. rewrite sqrt_square by exact Hc. reflexivity.
  - rewrite (sqrt_neg_0 x) by lra. rewrite sqrt_neg_0 by nra. ring.
Qed.

Lemma GetBinError_on h b :
  fSumw2 h <> [] -> GetBinError h b = sqrt (at_ (fSumw2 h) (clamp h b)).
Proof. unfold GetBinError. destruct (fSumw2 h); [contradiction|reflexivity]. Qed.

Lemma Scale_error h c b :
  0 <= c -> wf_hist h -> fSumw2 h <> [] \/ 0 < fEntries h ->
  GetBinError (Scale h c) b = GetBinError h b * c.
Proof.
  intros Hc [Hl Hs] Hon.
  assert (Hk : clamp (Scale h c) b = clamp h b).
  { unfold clamp, fNcells. destruct (Scale_content h c 0) as (_ & -> & _). reflexivity. }
  destruct (fSumw2 h) as [|s0 s] eqn:Es.
  - destruct Hon as [Hon|Hon]; [contradiction|].
    assert (E2 : fSumw2 (Scale h c) = map (fun x => x * (c * c)) (map Rabs (fArray h))).
    { unfold Scale, GetSumw2N, Sumw2. rewrite Es. cbn [length Nat.eqb fSumw2 setSumw2].
      rewrite (Rltb_true _ _ Hon). reflexivity. }
    rewrite GetBinError_on.
    + rewrite E2, Hk, at_map_scale_r, at_map_Rabs, sqrt_scale by exact Hc.
      unfold GetBinError. rewrite Es. reflexivity.
    + rewrite E2. intros Hnil. apply (f_equal (@length R)) in Hnil.
      rewrite !length_map in Hnil. cbn [length] in Hnil. lia.
  - assert (E2 : fSumw2 (Scale h c) = map (fun x => x * (c * c)) (s0 :: s)).
    { unfold Scale, GetSumw2N. rewrite Es. cbn [length Nat.eqb fSumw2]. rewrite Es.
      reflexivity. }
    rewrite GetBinError_on by (rewrite E2; discriminate).
    rewrite E2, Hk, at_map_scale_r, sqrt_scale by exact Hc.
    unfold GetBinError. rewrite Es. reflexivity.
Qed.

(** X24.  [NormalizeHistogram] on a histogram whose bins [1 .. n] sum to a
    positive number [I] divides every cell by [I], underflow and overflow
    included, so that the bins sum to [1] afterwards; the errors are
    divided by [I] as well when the histogram has entries or keeps sums of
    squared weights.  No other histogram changes. *)
Theorem NormalizeHistogram_unit (p : nat) (w : World) :
  (p < length (heap w))%nat ->
  wf_hist (obj w p) ->
  0 < Integral (obj w p) ->
  let w' := (NormalizeHistogram (Some p) w).2 in
  let I := Integral (obj w p) in
  Integral (obj w' p) = 1 /\
  (forall b, GetBinContent (obj w' p) b = GetBinContent (obj w p) b / I) /\
  (fSumw2 (obj w p) <> [] \/ 0 < fEntries (obj w p) ->
   forall b, GetBinError (obj w' p) b = GetBinError (obj w p) b / I) /\
  (forall q, q <> p -> obj w' q = obj w q) /\
  cerr w' = cerr w.
Proof.
  intros Hp Hwf HI. cbv zeta.
  assert (Erun : (NormalizeHistogram (Some p) w).2 =
                 mkWorld (alter (fun h => Scale h (1 / Integral (obj w p))) p (heap w))
                         (cerr w)).
  { unfold NormalizeHistogram. rewrite run_bind. unfold query at 1. cbn [fst snd].
    change (nth p (heap w) TH1D_null) with (obj w p).
    rewrite (Rltb_true _ _ HI). reflexivity. }
  rewrite Erun. rewrite obj_alter_same by exact Hp.
  set (I := Integral (obj w p)) in *.
  assert (Hc : 0 < 1 / I) by (apply Rdiv_lt_0_compat; lra).
  split; [rewrite Scale_Integral; fold I; field; lra|].
  split.
  { intros b. unfold GetBinContent, clamp, fNcells.
    destruct (Scale_content (obj w p) (1 / I) 0) as (_ & -> & _).
    destruct (Scale_content (obj w p) (1 / I)
                (Nat.min b (length (fArray (obj w p)) - 1))) as (_ & _ & ->).
    field. lra. }
  split.
  { intros Hon b. rewrite Scale_error by (try assumption; lra). field. lra. }
  split; [intros q Hq; apply obj_alter_other; exact Hq|reflexivity].
Qed.

(** X24 at the first histogram of [two_hists], whose one bin holds [3]. *)
Lemma NormalizeHistogram_unit_witness :
  Integral (obj (NormalizeHistogram (Some 0%nat) two_hists).2 0) = 1.
Proof.
  apply (NormalizeHistogram_unit 0 two_hists).
  - cbn; lia.
  - split; [reflexivity | left; reflexivity].
  - unfold Integral, sum_bins. cbn. unfold RetrieveBinContent, at_. cbn. lra.
Defined.

Lemma Integral_empty h :
  (forall b, (1 <= b <= GetNbinsX h)%nat -> RetrieveBinContent h b = 0) ->
  Integral h = 0.
Proof.
  unfold Integral, sum_bins. intros Hz.
  assert (G : forall l a, (forall b, b ∈ l -> RetrieveBinContent h b = 0) ->
                fold_left (fun acc b => acc + RetrieveBinContent h b) l a = a).
  { induction l as [|x l IH]; intros a Hl; cbn [fold_left]; [reflexivity|].
    rewrite (Hl x) by left. rewrite Rplus_0_r. apply IH.
    intros b Hb. apply Hl. right. exact Hb. }
  apply G. intros b Hb. apply elem_of_seq in Hb. apply Hz. lia.
Qed.

(** X25.  [NormalizeHistogram] leaves the heap and the diagnostics as they
    are when it is given a null pointer, and when the bins [1 .. n] of the
    histogram it is given sum to zero or less, as they do when all of them
    are empty: there is no division by zero. *)
Theorem NormalizeHistogram_skips (hist : option nat) (w : World) :
  (forall p, hist = Some p ->
     (p < length (heap w))%nat /\ (1 <= GetNbinsX (obj w p))%nat /\
     (Integral (obj w p) <= 0 \/
      forall b, (1 <= b <= GetNbinsX (obj w p))%nat -> RetrieveBinContent (obj w p) b = 0)) ->
  NormalizeHistogram hist w = (tt, w).
Proof.
  intros H. destruct hist as [p|]; [|reflexivity].
  assert (HI : Integral (obj w p) <= 0).
  { destruct (H p eq_refl) as (_ & _ & [HI|Hz]); [exact HI|].
    rewrite (Integral_empty _ Hz). lra. }
  unfold NormalizeHistogram. rewrite run_bind. unfold query at 1. cbn [fst snd].
  change (nth p (heap w) TH1D_null) with (obj w p).
  rewrite Rltb_false by lra. reflexivity.
Qed.

(** X25 at a histogram that was never filled. *)
Lemma NormalizeHistogram_skips_witness :
  NormalizeHistogram (Some 0%nat) (mkWorld [TH1D_new 18 0 360] []) =
  (tt, mkWorld [TH1D_new 18 0 360] []).
Proof.
  apply (NormalizeHistogram_skips (Some 0%nat) (mkWorld [TH1D_new 18 0 360] [])).
  intros p Hp. injection Hp as <-. split; [cbn; lia|]. split; [cbn; lia|].
  right. intros b Hb.
  unfold obj, RetrieveBinContent, TH1D_new, at_. cbn [heap nth fArray].
  rewrite nth_lookup.
  destruct (replicate (18 + 2) 0 !! b) as [x|] eqn:E; [|reflexivity].
  apply lookup_replicate in E as [-> _]. reflexivity.
Defined.

End Normalize.

(** ** [getMeanQ2xBt] *)

Section Means.
Import Hist Bins DVCS Comparer.
Local Open Scope R_scope.

Lemma round_half_even_IZR (n : Z) : round_half_even (IZR n) = n.
Proof.
  unfold round_half_even. cbv zeta.
  destruct (Int_part_frac_part_spec (IZR n) n 0) as [E1 E2]; [lra|lra|].
  rewrite <- E1, <- E2. rewrite Rltb_true by lra. reflexivity.
Qed.

Lemma fmt_f_six e : (exists n : Z, e * 1000000 = IZR n) -> fmt_f e = e.
Proof.
  intros [n Hn]. unfold fmt_f. rewrite Hn, round_half_even_IZR, <- Hn. field.
Qed.

Lemma six_decimals_at edges i :
  six_decimals edges -> (i < length edges)%nat -> fmt_f (at_ edges i) = at_ edges i.
Proof.
  intros H Hi. apply fmt_f_six. unfold six_decimals in H.
  rewrite Forall_forall in H. apply H. unfold at_.
  apply list_elem_of_lookup. exists i. rewrite nth_lookup.
  destruct (edges !! i) eqn:E; [reflexivity|].
  apply lookup_ge_None in E. lia.
Qed.

Lemma findBin_iff_in_bin edges val i :
  nondecreasing edges -> in_bin edges val i <-> findBin val edges = Z.of_nat i.
Proof.
  intros Hs. destruct (findBin_by_position edges val Hs) as [[E H]|(k & Ek & Hk & Hu)].
  - split; [|rewrite E; lia]. intros (Hi & Hge & Hlt). exfalso.
    destruct H as [-> |[H|H]].
    + cbn in Hi. lia.
    + assert (at_ edges 0 <= at_ edges i) by (apply Hs; lia). lra.
    + assert (at_ edges (S i) <= at_ edges (length edges - 1)) by (apply Hs; lia). lra.
  - split; [intros Hi; rewrite (Hu i Hi); exact Ek|].
    rewrite Ek. intros Ei. apply Nat2Z.inj in Ei. subst k. exact Hk.
Qed.

Lemma cut_in_bin edges x i :
  six_decimals edges -> (S i < length edges)%nat ->
  cut (at_ edges i) (at_ edges (i + 1)) x = true <-> in_bin edges x i.
Proof.
  intros H6 Hi. unfold cut, in_bin. rewrite Nat.add_1_r.
  rewrite !six_decimals_at by (try exact H6; lia).
  destruct (Rltb_spec x (at_ edges i)), (Rltb_spec x (at_ edges (S i))); cbn [negb andb];
    split; try discriminate; try (intros (_ & H1 & H2); lra); intros _;
    split; [exact Hi|lra].
Qed.

Lemma row_cell_iff bins r ix iq it :
  row_cell bins r = Some (ix, iq, it) <->
  findBin (row_xB r) (GetXBBins bins) = Z.of_nat ix /\
  findBin (row_Q2 r) (GetQ2Bins bins) = Z.of_nat iq /\
  findBin (row_t r) (GetTBins bins) = Z.of_nat it.
Proof.
  unfold row_cell. cbv zeta.
  destruct (Z.leb_spec 0 (findBin (row_Q2 r) (GetQ2Bins bins))) as [Hq|Hq];
  destruct (Z.leb_spec 0 (findBin (row_t r) (GetTBins bins))) as [Ht|Ht];
  destruct (Z.leb_spec 0 (findBin (row_xB r) (GetXBBins bins))) as [Hx|Hx];
    cbn [andb]; split;
    try discriminate; try (intros (H1 & H2 & H3); lia).
  - intros H. injection H as <- <- <-. lia.
  - intros (H1 & H2 & H3). rewrite H1, H2, H3, !Nat2Z.id. reflexivity.
Qed.

Lemma Filter_chain (c1 c2 c3 : Row -> bool) (P : Row -> Prop) `{!forall r, Decision (P r)}
    (rdf : list Row) :
  (forall r, r ∈ rdf -> (c1 r && c2 r && c3 r)%bool = true <-> P r) ->
  Filter c3 (Filter c2 (Filter c1 rdf)) = filter P rdf.
Proof.
  unfold Filter. induction rdf as [|r rdf IH]; intros Hc; [reflexivity|].
  cbn [List.filter].
  pose proof (Hc r ltac:(left)) as Hr.
  specialize (IH (fun r' Hr' => Hc r' ltac:(right; exact Hr'))).
  destruct (decide (P r)) as [HP|HP].
  - rewrite filter_cons_True by exact HP.
    apply Hr in HP. apply andb_prop in HP as [HP H3]. apply andb_prop in HP as [H1 H2].
    rewrite H1. cbn [List.filter]. rewrite H2. cbn [List.filter]. rewrite H3, IH.
    reflexivity.
  - rewrite filter_cons_False by exact HP.
    destruct (c1 r) eqn:H1; [|exact IH]. cbn [List.filter].
    destruct (c2 r) eqn:H2; [|exact IH]. cbn [List.filter].
    destruct (c3 r) eqn:H3; [|exact IH].
    exfalso. apply HP. apply Hr. reflexivity.
Qed.

(** The mean of numbers of one bin lies in the bin. *)
Lemma fold_sum_bounds (col : Row -> R) lo hi (l : list Row) :
  Forall (fun r => lo <= col r < hi) l ->
  forall a, a + INR (length l) * lo <= fold_left (fun s r => s + col r) l a /\
            (l <> [] -> fold_left (fun s r => s + col r) l a < a + INR (length l) * hi) /\
            (l = [] -> fold_left (fun s r => s + col r) l a = a).
Proof.
  induction 1 as [|r l Hr Hl IH]; intros a.
  - cbn. split; [lra|]. split; [congruence|reflexivity].
  - cbn [fold_left length]. rewrite S_INR.
    destruct (IH (a + col r)) as (I1 & I2 & I3).
    split; [lra|]. split; [|discriminate]. intros _.
    destruct l as [|r' l'].
    + rewrite I3 by reflexivity. cbn. lra.
    + specialize (I2 ltac:(discriminate)). lra.
Qed.

Lemma Mean_bounds (col : Row -> R) lo hi (l : list Row) :
  Forall (fun r => lo <= col r < hi) l -> l <> [] -> lo <= Mean col l < hi.
Proof.
  intros Hl Hne. unfold Mean. cbv zeta.
  destruct (fold_sum_bounds col lo hi l Hl 0) as (I1 & I2 & _).
  specialize (I2 Hne).
  assert (Hn : (0 < length l)%nat) by (destruct l; [contradiction|cbn; lia]).
  rewrite (proj2 (Nat.ltb_lt _ _) Hn).
  assert (HN : 0 < INR (length l)) by (apply lt_0_INR; exact Hn).
  split.
  - apply Rmult_le_reg_r with (INR (length l)); [exact HN|].
    unfold Rdiv. rewrite Rmult_assoc, Rinv_l, Rmult_1_r by lra. lra.
  - apply Rmult_lt_reg_r with (INR (length l)); [exact HN|].
    unfold Rdiv. rewrite Rmult_assoc, Rinv_l, Rmult_1_r by lra. lra.
Qed.

(** What is known of a cell as soon as the three cuts agree with the three
    bins on every row of the frame. *)
Lemma means_of_cell (bins : BinManager) (rdf : list Row) (ix iq it : nat) :
  nondecreasing (GetXBBins bins) -> nondecreasing (GetQ2Bins bins) ->
  nondecreasing (GetTBins bins) ->
  (ix < length (GetXBBins bins) - 1)%nat ->
  (iq < length (GetQ2Bins bins) - 1)%nat ->
  (it < length (GetTBins bins) - 1)%nat ->
  (forall r, r ∈ rdf ->
     (cut (at_ (GetXBBins bins) ix) (at_ (GetXBBins bins) (ix + 1)) (row_xB r) = true <->
      in_bin (GetXBBins bins) (row_xB r) ix) /\
     (cut (at_ (GetQ2Bins bins) iq) (at_ (GetQ2Bins bins) (iq + 1)) (row_Q2 r) = true <->
      in_bin (GetQ2Bins bins) (row_Q2 r) iq) /\
     (cut (at_ (GetTBins bins) it) (at_ (GetTBins bins) (it + 1)) (row_t r) = true <->
      in_bin (GetTBins bins) (row_t r) it)) ->
  let sel := cell_rows bins ix iq it rdf in
  let m := nth it (nth iq (nth ix (getMeanQ2xBt bins rdf) []) []) (0, 0, 0) in
  m = (Mean row_xB sel, Mean row_Q2 sel, Mean row_t sel) /\
  (sel = [] -> m = (0, 0, 0)) /\
  (sel <> [] ->
   in_bin (GetXBBins bins) m.1.1 ix /\ in_bin (GetQ2Bins bins) m.1.2 iq /\
   in_bin (GetTBins bins) m.2 it).
Proof.
  intros Sx Sq St Hx Hq Ht Hcut sel m.
  assert (Em : m = (Mean row_xB sel, Mean row_Q2 sel, Mean row_t sel)).
  { unfold m, getMeanQ2xBt. cbv zeta.
    rewrite (nth_map_seq _ _ ix []) by exact Hx.
    rewrite (nth_map_seq _ _ iq []) by exact Hq.
    rewrite (nth_map_seq _ _ it (0, 0, 0)) by exact Ht.
    rewrite (Filter_chain _ _ _ (fun r => row_cell bins r = Some (ix, iq, it))).
    - reflexivity.
    - intros r Hr. destruct (Hcut r Hr) as (C1 & C2 & C3).
      rewrite row_cell_iff, !andb_true_iff, C1, C2, C3.
      rewrite !findBin_iff_in_bin by assumption. tauto. }
  split; [exact Em|]. rewrite Em. cbn [fst snd]. split.
  - intros ->. unfold Mean. cbn. unfold Rdiv. rewrite !Rmult_0_l. reflexivity.
  - intros Hne.
    assert (Hall : Forall (fun r => in_bin (GetXBBins bins) (row_xB r) ix /\
                                    in_bin (GetQ2Bins bins) (row_Q2 r) iq /\
                                    in_bin (GetTBins bins) (row_t r) it) sel).
    { apply Forall_forall. intros r Hr. unfold sel, cell_rows in Hr.
      apply list_elem_of_filter in Hr as [Hr _]. apply row_cell_iff in Hr.
      rewrite !findBin_iff_in_bin by assumption. tauto. }
    split; [|split]; (split; [lia|]); apply Mean_bounds; try exact Hne;
      eapply Forall_impl; try exact Hall; cbv beta; intros r (H1 & H2 & H3).
    + apply H1.
    + apply H2.
    + apply H3.
Qed.

(** X26.  With edges that never decrease and have at most six digits
    after the decimal point, the three means [getMeanQ2xBt] gives for a
    cell are taken over exactly the events that [ComputeDVCS_CrossSection]
    fills into the histogram of that cell.  When there is such an event,
    each mean lies inside the bin of its variable; when there is none, the
    three means are [0]. *)
Theorem getMeanQ2xBt_cell (bins : BinManager) (rdf : list Row) (ix iq it : nat) :
  nondecreasing (GetXBBins bins) -> nondecreasing (GetQ2Bins bins) ->
  nondecreasing (GetTBins bins) ->
  six_decimals (GetXBBins bins) -> six_decimals (GetQ2Bins bins) ->
  six_decimals (GetTBins bins) ->
  (ix < length (GetXBBins bins) - 1)%nat ->
  (iq < length (GetQ2Bins bins) - 1)%nat ->
  (it < length (GetTBins bins) - 1)%nat ->
  let sel := cell_rows bins ix iq it rdf in
  let m := nth it (nth iq (nth ix (getMeanQ2xBt bins rdf) []) []) (0, 0, 0) in
  m = (Mean row_xB sel, Mean row_Q2 sel, Mean row_t sel) /\
  (sel = [] -> m = (0, 0, 0)) /\
  (sel <> [] ->
   in_bin (GetXBBins bins) m.1.1 ix /\ in_bin (GetQ2Bins bins) m.1.2 iq /\
   in_bin (GetTBins bins) m.2 it).
Proof.
  intros Sx Sq St Dx Dq Dt Hx Hq Ht.
  apply means_of_cell; try assumption.
  intros r _. split; [|split]; apply cut_in_bin; try assumption; lia.
Qed.

(** X26 at the default edges and the frame of one event. *)
Lemma getMeanQ2xBt_cell_witness :
  nth 0 (nth 0 (nth 0 (getMeanQ2xBt BinManager_default [one_event]) []) []) (0, 0, 0) =
  (Mean row_xB (cell_rows BinManager_default 0 0 0 [one_event]),
   Mean row_Q2 (cell_rows BinManager_default 0 0 0 [one_event]),
   Mean row_t (cell_rows BinManager_default 0 0 0 [one_event])).
Proof.
  assert (Hnd : forall a b c d, a <= b -> b <= c -> c <= d -> nondecreasing [a; b; c; d]).
  { intros a b c d H1 H2 H3 i j Hij. cbn [length] in Hij.
    assert (Hc : (i = 0 \/ i = 1 \/ i = 2 \/ i = 3)%nat) by lia.
    assert (Hd : (j = 0 \/ j = 1 \/ j = 2 \/ j = 3)%nat) by lia.
    destruct Hc as [-> |[-> |[-> | ->]]], Hd as [-> |[-> |[-> | ->]]];
      unfold at_; cbn [nth]; first [lra | lia]. }
  apply (getMeanQ2xBt_cell BinManager_default [one_event] 0 0 0);
    try (cbn; lia); try (apply Hnd; lra).
  - repeat constructor; [exists 100000%Z|exists 200000%Z|exists 400000%Z|exists 600000%Z]; lra.
  - repeat constructor; [exists 1000000%Z|exists 2000000%Z|exists 4000000%Z|exists 6000000%Z]; lra.
  - repeat constructor; [exists 100000%Z|exists 300000%Z|exists 600000%Z|exists 1000000%Z]; lra.
Defined.

Lemma round_half_even_near y : Rabs (IZR (round_half_even y) - y) <= 1 / 2.
Proof.
  unfold round_half_even. cbv zeta.
  pose proof (Rplus_Int_part_frac_part y) as Ey.
  destruct (base_fp y) as [F0 F1].
  set (f := Int_part y) in *. set (d := frac_part y) in *.
  destruct (Rltb_spec d (1 / 2)) as [H1|H1].
  - replace (IZR f - y) with (- d) by lra. rewrite Rabs_Ropp, Rabs_pos_eq; lra.
  - destruct (Rltb_spec (1 / 2) d) as [H2|H2].
    + rewrite plus_IZR. replace (IZR f + 1 - y) with (1 - d) by lra.
      rewrite Rabs_pos_eq; lra.
    + destruct (Z.even f).
      * replace (IZR f - y) with (- d) by lra. rewrite Rabs_Ropp, Rabs_pos_eq; lra.
      * rewrite plus_IZR. replace (IZR f + 1 - y) with (1 - d) by lra.
        rewrite Rabs_pos_eq; lra.
Qed.

Lemma fmt_f_near e : Rabs (fmt_f e - e) <= 0.0000005.
Proof.
  pose proof (round_half_even_near (e * 1000000)) as H. unfold fmt_f.
  set (n := IZR (round_half_even (e * 1000000))) in *.
  replace (n / 1000000 - e) with ((n - e * 1000000) / 1000000) by (field; lra).
  unfold Rdiv at 1. rewrite Rabs_mult, (Rabs_pos_eq (/ 1000000)) by lra. lra.
Qed.

Lemma clear_of_at edges x i :
  clear_of edges x -> (i < length edges)%nat -> 0.0000005 < Rabs (x - at_ edges i).
Proof.
  intros H Hi. unfold clear_of in H. rewrite Forall_forall in H. apply H.
  unfold at_. apply list_elem_of_lookup. exists i. rewrite nth_lookup.
  destruct (edges !! i) eqn:E; [reflexivity|].
  apply lookup_ge_None in E. lia.
Qed.

Lemma cut_in_bin_clear edges x i :
  clear_of edges x -> (S i < length edges)%nat ->
  cut (at_ edges i) (at_ edges (i + 1)) x = true <-> in_bin edges x i.
Proof.
  intros Hc Hi. unfold cut, in_bin. rewrite Nat.add_1_r.
  pose proof (clear_of_at edges x i Hc ltac:(lia)) as C1.
  pose proof (clear_of_at edges x (S i) Hc Hi) as C2.
  pose proof (fmt_f_near (at_ edges i)) as F1.
  pose proof (fmt_f_near (at_ edges (S i))) as F2.
  set (lo := at_ edges i) in *. set (hi := at_ edges (S i)) in *.
  set (lo' := fmt_f lo) in *. set (hi' := fmt_f hi) in *.
  unfold Rabs in C1, C2, F1, F2.
  destruct (Rcase_abs (x - lo)), (Rcase_abs (x - hi)),
           (Rcase_abs (lo' - lo)), (Rcase_abs (hi' - hi)),
           (Rltb_spec x lo'), (Rltb_spec x hi'); cbn [negb andb];
    split; try discriminate; try (intros (_ & H1 & H2); lra);
    try (intros _; split; [exact Hi|lra]); try lra.
Qed.

(** X27.  Whatever digits the edges have, an event counts for the means
    of the cell whose histogram it fills as long as the events of the
    frame keep farther than [0.0000005] from every edge of their variable:
    the cuts of [getMeanQ2xBt] are made with the edges as [%f] writes them,
    which moves an edge by at most that much. *)
Theorem getMeanQ2xBt_clear (bins : BinManager) (rdf : list Row) (ix iq it : nat) :
  nondecreasing (GetXBBins bins) -> nondecreasing (GetQ2Bins bins) ->
  nondecreasing (GetTBins bins) ->
  (forall r, r ∈ rdf ->
     clear_of (GetXBBins bins) (row_xB r) /\ clear_of (GetQ2Bins bins) (row_Q2 r) /\
     clear_of (GetTBins bins) (row_t r)) ->
  (ix < length (GetXBBins bins) - 1)%nat ->
  (iq < length (GetQ2Bins bins) - 1)%nat ->
  (it < length (GetTBins bins) - 1)%nat ->
  let sel := cell_rows bins ix iq it rdf in
  let m := nth it (nth iq (nth ix (getMeanQ2xBt bins rdf) []) []) (0, 0, 0) in
  m = (Mean row_xB sel, Mean row_Q2 sel, Mean row_t sel) /\
  (forall e, Rabs (fmt_f e - e) <= 0.0000005).
Proof.
  intros Sx Sq St Hclear Hx Hq Ht sel m.
  split; [|exact fmt_f_near].
  apply means_of_cell; try assumption.
  intros r Hr. destruct (Hclear r Hr) as (C1 & C2 & C3).
  split; [|split]; apply cut_in_bin_clear; try assumption; lia.
Qed.

(** X27 at edges with seven digits and an event well inside a cell. *)
Lemma getMeanQ2xBt_clear_witness :
  let bins := mkBinManager [1.0000001; 2.0000001] [0.1000001; 0.3000001]
                           [0.1000001; 0.2000001] in
  nth 0 (nth 0 (nth 0 (getMeanQ2xBt bins [one_event]) []) []) (0, 0, 0) =
  (Mean row_xB (cell_rows bins 0 0 0 [one_event]),
   Mean row_Q2 (cell_rows bins 0 0 0 [one_event]),
   Mean row_t (cell_rows bins 0 0 0 [one_event])).
Proof.
  cbv zeta.
  assert (Hnd : forall a b, a <= b -> nondecreasing [a; b]).
  { intros a b H1 i j Hij. cbn [length] in Hij.
    assert (Hc : (i = 0 \/ i = 1)%nat) by lia. assert (Hd : (j = 0 \/ j = 1)%nat) by lia.
    destruct Hc as [-> | ->], Hd as [-> | ->]; unfold at_; cbn [nth]; first [lra | lia]. }
  assert (Hcl : forall a b x, 0.0000005 < Rabs (x - a) -> 0.0000005 < Rabs (x - b) ->
                  clear_of [a; b] x).
  { intros a b x H1 H2. repeat constructor; assumption. }
  apply (getMeanQ2xBt_clear
           (mkBinManager [1.0000001; 2.0000001] [0.1000001; 0.3000001]
                         [0.1000001; 0.2000001]) [one_event] 0 0 0);
    try (cbn; lia); try (apply Hnd; lra).
  intros r Hr. apply list_elem_of_singleton in Hr as ->.
  split; [|split]; apply Hcl; cbn;
    unfold Rabs; match goal with |- context [Rcase_abs ?x] => destruct (Rcase_abs x) end; lra.
Defined.

End Means.
